(** * Spotify tool execution layer (tools/spotify/src)

    A shallow embedding of the Spotify tools: configuration and input
    schemas, credential resolution, the request executor, the four
    operation handlers and their response mapping.

    Conventions.
    - A JavaScript string is a [string]; every [ascii] is read as one
      UTF-16 code unit in the range 0..255, so [String.length] is
      [.length] and [substring 0 n] is [.slice(0, n)].
    - [undefined] is [None] of an [option]; a raw JSON value is a [json].
    - Numbers, the JSON codec, [toUpperCase], the room on the call stack and
      the URL test of the schema library are the host's: they are the
      fields of the class [Host] and every result holds for each host.
    - [await] is sequencing in the monad [M], which threads the log of the
      reads of the process environment and of the requests sent. *)

From Stdlib Require Import ZArith List String Ascii Bool Lia.
From Stdlib Require Import DecimalString.
Import ListNotations.
Open Scope string_scope.
Open Scope Z_scope.

Set Warnings "-register-all".

(** ** Raw JSON values *)

Inductive json (number : Type) : Type :=
| JNull
| JBool (b : bool)
| JNum (n : number)
| JStr (s : string)
| JArr (items : list (json number))
| JObj (fields : list (string * json number)).

Arguments JNull {number}.
Arguments JBool {number} b.
Arguments JNum {number} n.
Arguments JStr {number} s.
Arguments JArr {number} items.
Arguments JObj {number} fields.

(** ** The host: what the JavaScript runtime and the schema library provide *)

Definition hasColon (s : string) : bool :=
  existsb (Ascii.eqb ":") (list_ascii_of_string s).

Class Host : Type := {
  number : Type;
  (** the number with an integer value: [items.length], a validated [limit] *)
  fromZ : Z -> number;
  (** [true] on the numbers that are falsy: 0, -0 and NaN *)
  numFalsy : number -> bool;
  (** [Number(s)] on a string *)
  StringToNumber : string -> number;
  (** [String(n)] on a number *)
  NumberToString : number -> string;
  JSON_parse : string -> option (json number);
  JSON_stringify : json number -> string;
  toUpperCase : string -> string;
  (** how many nested array conversions the call stack has room for *)
  stackDepth : nat;
  (** the test behind [z.string().url()] *)
  isURL : string -> bool;
  (** a URL read without a base has a scheme, which ends in a colon *)
  isURL_colon : forall s, isURL s = true -> hasColon s = true;
  isURL_default : isURL "https://api.spotify.com/v1" = true
}.

(** ** Strings *)

Definition code (c : ascii) : N := N_of_ascii c.

(** White space and line terminators of [String.prototype.trim] among the
    code units 0..255: TAB, LF, VT, FF, CR, SPACE and NBSP. *)
Definition isWhiteSpace (c : ascii) : bool :=
  let n := code c in
  (((9 <=? n) && (n <=? 13)) || (n =? 32) || (n =? 160))%N.

Fixpoint trimStart (s : string) : string :=
  match s with
  | EmptyString => EmptyString
  | String c rest => if isWhiteSpace c then trimStart rest else s
  end.

(** [trimEnd]: a character is dropped when it is white space and so is
    everything after it. *)
Fixpoint trimEnd (s : string) : string :=
  match s with
  | EmptyString => EmptyString
  | String c rest =>
      match trimEnd rest with
      | EmptyString => if isWhiteSpace c then EmptyString else String c EmptyString
      | rest' => String c rest'
      end
  end.

Definition trim (s : string) : string := trimEnd (trimStart s).

Definition isEmpty (s : string) : bool :=
  match s with EmptyString => true | _ => false end.

(** [s.slice(0, n)] *)
Definition slice0 (n : nat) (s : string) : string := substring 0 n s.

(** [String(z)] for an integer such as an HTTP status *)
Definition decimal (z : Z) : string := NilZero.string_of_int (Z.to_int z).

Definition hexDigit (n : N) : ascii :=
  (if n <? 10 then ascii_of_N (48 + n) else ascii_of_N (55 + n))%N.

Definition percentByte (n : N) : string :=
  String "%" (String (hexDigit (n / 16)) (String (hexDigit (n mod 16)) EmptyString)).

(** Percent-encoding of the UTF-8 bytes of one code unit below 256. *)
Definition percentEncode (c : ascii) : string :=
  let n := code c in
  (if n <? 128 then percentByte n
   else percentByte (192 + n / 64) ++ percentByte (128 + n mod 64))%N%string.

Definition isAlphaNum (c : ascii) : bool :=
  let n := code c in
  (((48 <=? n) && (n <=? 57)) || ((65 <=? n) && (n <=? 90)) || ((97 <=? n) && (n <=? 122)))%N.

Definition isIn (c : ascii) (set : string) : bool :=
  existsb (Ascii.eqb c) (list_ascii_of_string set).

Fixpoint encodeURIComponent (s : string) : string :=
  match s with
  | EmptyString => EmptyString
  | String c rest =>
      (if isAlphaNum c || isIn c "-_.!~*'()" then String c EmptyString else percentEncode c)
      ++ encodeURIComponent rest
  end.

(** The application/x-www-form-urlencoded serializer of [URLSearchParams]. *)
Fixpoint formEncode (s : string) : string :=
  match s with
  | EmptyString => EmptyString
  | String c rest =>
      (if isAlphaNum c || isIn c "*-._" then String c EmptyString
       else if Ascii.eqb c " " then "+"
       else percentEncode c)
      ++ formEncode rest
  end.

Definition URLSearchParams : Type := list (string * string).

Fixpoint params_set (name value : string) (ps : URLSearchParams) : URLSearchParams :=
  match ps with
  | [] => [(name, value)]
  | (k, v) :: rest =>
      if String.eqb k name then (name, value) :: rest
      else (k, v) :: params_set name value rest
  end.

Fixpoint params_toString (ps : URLSearchParams) : string :=
  match ps with
  | [] => ""
  | [(k, v)] => formEncode k ++ "=" ++ formEncode v
  | (k, v) :: rest => formEncode k ++ "=" ++ formEncode v ++ "&" ++ params_toString rest
  end.

(** ** Failures *)

Inductive issue_code : Type :=
| invalid_type
| invalid_literal
| too_small
| too_big
| invalid_url
| custom (message : string).

Record ZodIssue : Type := { code_of : issue_code; path : list string }.

Inductive error : Type :=
| Error (message : string)          (* [new Error(message)] *)
| ZodError (issues : list ZodIssue) (* a schema rejects its input *)
| TypeError                         (* a read on [null], a call of what is no function *)
| RangeError                        (* the call stack is used up *)
| SyntaxError                       (* [response.json()] on a body that is not JSON *)
| NetworkError.                     (* [fetch] rejects *)

Inductive outcome (A : Type) : Type :=
| Return (a : A)
| Throw (e : error).

Arguments Return {A} a.
Arguments Throw {A} e.

Definition obind {A B : Type} (c : outcome A) (k : A -> outcome B) : outcome B :=
  match c with
  | Return a => k a
  | Throw e => Throw e
  end.

(** [items.map(f)] when [f] may throw: the first failure is the result. *)
Fixpoint mapM {A B : Type} (f : A -> outcome B) (l : list A) : outcome (list B) :=
  match l with
  | [] => Return []
  | x :: rest =>
      obind (f x) (fun y => obind (mapM f rest) (fun ys => Return (y :: ys)))
  end.

Declare Scope js_scope.
Delimit Scope js_scope with js.
Notation "x <~ c ;; k" := (obind c (fun x => k))
  (at level 61, c at next level, right associativity) : js_scope.
Open Scope js_scope.

(** ** JavaScript conversions on raw values *)

(** A raw value with the numbers of the host. *)
Abbreviation value := (json number).

Section Conversions.
Context {H : Host}.

(** [v.name] on an object: its own property, [undefined] when there is none. *)
Fixpoint lookup (name : string) (fields : list (string * value)) : option value :=
  match fields with
  | [] => None
  | (k, v) :: rest => if String.eqb k name then Some v else lookup name rest
  end.

(** [v?.name].  The names read by the handlers ([id], [items], [total], ...)
    are inherited by no string, number, boolean or array, so the read gives
    [undefined] on every value that is not an object. *)
Definition optField (v : option value) (name : string) : option value :=
  match v with
  | Some (JObj fields) => lookup name fields
  | _ => None
  end.

(** [a ?? b] *)
Definition nullish (v : option value) : bool :=
  match v with
  | None | Some JNull => true
  | _ => false
  end.

Definition orElse (v : option value) (default : value) : value :=
  match v with
  | None | Some JNull => default
  | Some x => x
  end.

Definition join (sep : string) (parts : list string) : string :=
  match parts with
  | [] => ""
  | p :: rest => fold_left (fun acc q => acc ++ sep ++ q) rest p
  end.

(** [String(v)] on an object parsed from JSON.  The conversion calls the
    [toString] of the object; an own [toString] key holds a JSON value,
    which cannot be called, and [valueOf] gives the object back, so the
    conversion throws.  Without that key the inherited [toString] answers. *)
Definition objectToString (fields : list (string * value)) : outcome string :=
  match lookup "toString" fields with
  | Some _ => Throw TypeError
  | None => Return "[object Object]"
  end.

(** [String(v)], given the conversion of an array. *)
Definition toStringWith (array : list value -> outcome string) (v : value)
    : outcome string :=
  match v with
  | JNull => Return "null"
  | JBool true => Return "true"
  | JBool false => Return "false"
  | JNum n => Return (NumberToString n)
  | JStr s => Return s
  | JArr items => array items
  | JObj fields => objectToString fields
  end.

(** [String(array)]: the elements are converted and joined with commas,
    [null] giving the empty string.  Each level of nesting takes room on
    the call stack, and [depth] levels are all there is. *)
Fixpoint arrayToString (depth : nat) (items : list value) {struct depth}
    : outcome string :=
  match depth with
  | O => Throw RangeError
  | S depth' =>
      parts <~ mapM (fun x => match x with
                              | JNull => Return ""
                              | _ => toStringWith (arrayToString depth') x
                              end) items ;;
      Return (join "," parts)
  end.

(** [String(v)] *)
Definition js_String (v : value) : outcome string :=
  toStringWith (arrayToString stackDepth) v.

(** [Number(v)]: an array or an object is converted to a string first. *)
Definition js_Number (v : value) : outcome number :=
  match v with
  | JNull => Return (fromZ 0)
  | JBool true => Return (fromZ 1)
  | JBool false => Return (fromZ 0)
  | JNum n => Return n
  | JStr s => Return (StringToNumber s)
  | JArr _ | JObj _ => s <~ js_String v ;; Return (StringToNumber s)
  end.

(** [Boolean(v)], the test of [v ? a : b] and of [!v] *)
Definition truthy (v : option value) : bool :=
  match v with
  | None | Some JNull => false
  | Some (JBool b) => b
  | Some (JNum n) => negb (numFalsy n)
  | Some (JStr s) => negb (isEmpty s)
  | Some (JArr _) | Some (JObj _) => true
  end.

(** [v ? String(v) : null] *)
Definition stringOrNull (v : option value) : outcome (option string) :=
  match v with
  | Some x => if truthy v then s <~ js_String x ;; Return (Some s) else Return None
  | None => Return None
  end.

(** [v === null ? null : Boolean(v)] *)
Definition booleanOrNull (v : option value) : option bool :=
  match v with
  | Some JNull => None
  | _ => Some (truthy v)
  end.

(** [Array.isArray(v) ? v : []] *)
Definition arrayOrEmpty (v : option value) : list value :=
  match v with
  | Some (JArr items) => items
  | _ => []
  end.

End Conversions.

(** ** The world: the process environment and the remote API *)

Inductive Method : Type := GET | POST.

Record Request : Type := {
  url : string;
  method : Method;
  headers : list (string * string);
  body : option string
}.

Record Response : Type := { status : Z; text : string }.

(** [response.ok] *)
Definition ok (r : Response) : bool := (200 <=? status r) && (status r <=? 299).

Inductive event : Type :=
| EnvRead (variable : string)
| Fetched (request : Request).

(** The remote side answers a request, knowing what happened before it;
    [None] is a [fetch] that rejects.  [env] holds the variables that are
    set. *)
Record World : Type := {
  env : string -> option string;
  network : list event -> Request -> option Response
}.

(** A computation runs in a world from a log of events and gives an outcome
    and the log extended by what it did. *)
Definition M (A : Type) : Type := World -> list event -> outcome A * list event.

Definition ret {A : Type} (a : A) : M A := fun _ log => (Return a, log).

Definition throw {A : Type} (e : error) : M A := fun _ log => (Throw e, log).

Definition bind {A B : Type} (c : M A) (k : A -> M B) : M B :=
  fun w log =>
    match c w log with
    | (Return a, log') => k a w log'
    | (Throw e, log') => (Throw e, log')
    end.

Definition lift {A : Type} (c : outcome A) : M A := fun _ log => (c, log).

(** What [process.env] inherits from [Object.prototype]: a read of one of
    these names gives a function (the prototype itself for [__proto__])
    unless a variable of that name is set. *)
Definition objectPrototypeNames : list string :=
  ["constructor"; "__defineGetter__"; "__defineSetter__"; "hasOwnProperty";
   "__lookupGetter__"; "__lookupSetter__"; "isPrototypeOf"; "propertyIsEnumerable";
   "toString"; "valueOf"; "__proto__"; "toLocaleString"].

Definition inheritedName (variable : string) : bool :=
  existsb (String.eqb variable) objectPrototypeNames.

(** What a read of [process.env] gives. *)
Inductive envValue : Type :=
| EnvString (s : string)  (* the variable is set *)
| EnvInherited            (* no such variable, the name is an inherited one *)
| EnvUndefined.           (* no such variable *)

(** [process.env[variable]] *)
Definition readEnv (variable : string) : M envValue :=
  fun w log =>
    (Return match env w variable with
            | Some s => EnvString s
            | None => if inheritedName variable then EnvInherited else EnvUndefined
            end,
     (log ++ [EnvRead variable])%list).

(** [read?.trim()]: what is inherited is not nullish and has no [trim] to
    call. *)
Definition trimRead (read : envValue) : outcome (option string) :=
  match read with
  | EnvString s => Return (Some (trim s))
  | EnvInherited => Throw TypeError
  | EnvUndefined => Return None
  end.

(** [await fetch(url, init)] *)
Definition fetch (request : Request) : M Response :=
  fun w log =>
    match network w log request with
    | Some response => (Return response, (log ++ [Fetched request])%list)
    | None => (Throw NetworkError, (log ++ [Fetched request])%list)
    end.

Notation "x <- c ;; k" := (bind c (fun x => k))
  (at level 61, c at next level, right associativity) : js_scope.

(** The requests of a log, in the order they were sent. *)
Fixpoint requests (log : list event) : list Request :=
  match log with
  | [] => []
  | Fetched r :: rest => r :: requests rest
  | EnvRead _ :: rest => requests rest
  end.

(** ** Configuration *)

Module Config.
(** [z.input<typeof spotifyToolsConfigSchema>] *)
Record t : Type := {
  accessToken : option string;
  tokenEnvVar : option string;
  apiBaseUrl : option string;
  defaultUserId : option string
}.
Definition empty : t :=
  {| accessToken := None; tokenEnvVar := None; apiBaseUrl := None; defaultUserId := None |}.
End Config.

Module Runtime.
(** [z.output<typeof spotifyToolsConfigSchema>] *)
Record t : Type := {
  accessToken : option string;
  tokenEnvVar : string;
  apiBaseUrl : string;
  defaultUserId : option string
}.
End Runtime.

Definition withDefault {A : Type} (v : option A) (d : A) : A :=
  match v with Some x => x | None => d end.

(** [spotifyToolsConfigSchema.parse(config)]: the defaults are filled in and
    [apiBaseUrl] must pass the URL test. *)
Definition spotifyToolsConfigSchema {H : Host} (config : Config.t) : outcome Runtime.t :=
  let base := withDefault (Config.apiBaseUrl config) "https://api.spotify.com/v1" in
  if isURL base then
    Return {| Runtime.accessToken := Config.accessToken config;
              Runtime.tokenEnvVar := withDefault (Config.tokenEnvVar config) "SPOTIFY_ACCESS_TOKEN";
              Runtime.apiBaseUrl := base;
              Runtime.defaultUserId := Config.defaultUserId config |}
  else Throw (ZodError [ {| code_of := invalid_url; path := ["apiBaseUrl"] |} ]).

(** ** Operation inputs *)

Module SearchTracksInput.
(** [z.infer<typeof spotifySearchTracksInputSchema>]: [limit] and [offset]
    are integers once validated. *)
Record t : Type := {
  query : string;
  limit : Z;
  offset : Z;
  market : option string
}.
End SearchTracksInput.

Module ListMyPlaylistsInput.
Record t : Type := { limit : Z; offset : Z }.
End ListMyPlaylistsInput.

Module CreatePlaylistInput.
(** [z.infer<typeof spotifyCreatePlaylistInputSchema>]; [confirm] is the
    literal [true] and carries no information. *)
Record t : Type := {
  userId : option string;
  name : string;
  description : option string;
  public : bool;
  collaborative : bool
}.
End CreatePlaylistInput.

(** ** The schema of the create-playlist input *)

Section Schemas.
Context {H : Host}.

(** What a field schema gives: the parsed value unless the field aborts, and
    the codes of the issues it raises.  A wrong type aborts; a failed length
    check raises an issue and keeps the value. *)
Definition checked (A : Type) : Type := (option A * list issue_code)%type.

(** [z.string()] with optional [.min(lo)] and [.max(hi)] *)
Definition z_string (lo hi : option nat) (v : option value) : checked string :=
  match v with
  | Some (JStr s) =>
      (Some s,
       (match lo with
        | Some n => if Nat.ltb (String.length s) n then [too_small] else []
        | None => []
        end ++
        match hi with
        | Some n => if Nat.ltb n (String.length s) then [too_big] else []
        | None => []
        end)%list)
  | _ => (None, [invalid_type])
  end.

(** [z.boolean()] *)
Definition z_boolean (v : option value) : checked bool :=
  match v with
  | Some (JBool b) => (Some b, [])
  | _ => (None, [invalid_type])
  end.

(** [z.literal(true)] *)
Definition z_literal_true (v : option value) : checked unit :=
  match v with
  | Some (JBool true) => (Some tt, [])
  | _ => (None, [invalid_literal])
  end.

(** [schema.optional()] *)
Definition z_optional {A : Type} (schema : option value -> checked A)
    (v : option value) : checked (option A) :=
  match v with
  | None => (Some None, [])
  | Some _ => let (r, codes) := schema v in (option_map Some r, codes)
  end.

(** [schema.default(d)] *)
Definition z_default {A : Type} (schema : option value -> checked A) (d : A)
    (v : option value) : checked A :=
  match v with
  | None => (Some d, [])
  | Some _ => schema v
  end.

Definition at_path (key : string) (codes : list issue_code) : list ZodIssue :=
  map (fun c => {| code_of := c; path := [key] |}) codes.

Definition collaborativeIssue : ZodIssue :=
  {| code_of := custom "Spotify collaborative playlists must be non-public.";
     path := ["collaborative"] |}.

(** [spotifyCreatePlaylistInputSchema.parse(input)].  The object schema
    checks every key and gathers the issues; the refinement runs unless a
    key aborted; the input is accepted when no issue was raised. *)
Definition spotifyCreatePlaylistInputSchema (input : value)
    : outcome CreatePlaylistInput.t :=
  match input with
  | JObj fields =>
      let userId := z_optional (z_string (Some 1%nat) None) (lookup "userId" fields) in
      let name := z_string (Some 1%nat) (Some 100%nat) (lookup "name" fields) in
      let description := z_optional (z_string None (Some 300%nat)) (lookup "description" fields) in
      let public := z_default z_boolean false (lookup "public" fields) in
      let collaborative := z_default z_boolean false (lookup "collaborative" fields) in
      let confirm := z_literal_true (lookup "confirm" fields) in
      let issues :=
        (at_path "userId" (snd userId) ++ at_path "name" (snd name)
         ++ at_path "description" (snd description) ++ at_path "public" (snd public)
         ++ at_path "collaborative" (snd collaborative)
         ++ at_path "confirm" (snd confirm))%list in
      match fst userId, fst name, fst description, fst public, fst collaborative, fst confirm with
      | Some u, Some n, Some d, Some p, Some c, Some _ =>
          let parsed :=
            {| CreatePlaylistInput.userId := u;
               CreatePlaylistInput.name := n;
               CreatePlaylistInput.description := d;
               CreatePlaylistInput.public := p;
               CreatePlaylistInput.collaborative := c |} in
          let refined :=
            if negb (p && c) then issues else (issues ++ [collaborativeIssue])%list in
          match refined with
          | [] => Return parsed
          | _ => Throw (ZodError refined)
          end
      | _, _, _, _, _, _ => Throw (ZodError issues)
      end
  | _ => Throw (ZodError [ {| code_of := invalid_type; path := [] |} ])
  end.

End Schemas.

(** ** Operation outputs *)

Module GetMe.
Record t {H : Host} : Type := {
  id : string;
  displayName : option string;
  email : option string;
  country : option string;
  product : option string;
  followers : number;
  uri : option string
}.
End GetMe.

Module Track.
Record t {H : Host} : Type := {
  id : string;
  name : string;
  artists : list string;
  album : option string;
  durationMs : number;
  popularity : number;
  uri : string;
  externalUrl : option string
}.
End Track.

Module SearchTracks.
Record t {H : Host} : Type := {
  total : number;
  limit : number;
  offset : number;
  tracks : list Track.t
}.
End SearchTracks.

Module Playlist.
Record t {H : Host} : Type := {
  id : string;
  name : string;
  description : option string;
  public : option bool;
  collaborative : bool;
  ownerId : option string;
  tracksTotal : number;
  snapshotId : option string;
  externalUrl : option string
}.
End Playlist.

Module ListMyPlaylists.
Record t {H : Host} : Type := {
  total : number;
  limit : number;
  offset : number;
  playlists : list Playlist.t
}.
End ListMyPlaylists.

Module CreatedPlaylist.
Record t : Type := {
  id : string;
  name : string;
  public : option bool;
  collaborative : bool;
  description : option string;
  snapshotId : option string;
  externalUrl : option string;
  ownerId : option string
}.
End CreatedPlaylist.

(** ** Credential resolution, the request executor and the handlers *)

Section Handlers.
Context {H : Host}.

(** [v.name]: a [TypeError] when [v] is [null], the read of [optField]
    otherwise. *)
Definition field (v : value) (name : string) : outcome (option value) :=
  match v with
  | JNull => Throw TypeError
  | _ => Return (optField (Some v) name)
  end.

(** [a || b] on strings that may be [undefined] *)
Definition or_else (a b : option string) : option string :=
  match a with
  | Some s => if isEmpty s then b else a
  | None => b
  end.

Definition missingTokenMessage (tokenEnvVar : string) : string :=
  "Missing Spotify access token. Pass accessToken in config or set " ++ tokenEnvVar ++ ".".

Definition resolveAccessToken (runtime : Runtime.t) : M string :=
  let explicit := option_map trim (Runtime.accessToken runtime) in
  read <- readEnv (Runtime.tokenEnvVar runtime) ;;
  fromEnv <- lift (trimRead read) ;;
  let token := or_else (or_else explicit fromEnv) None in
  match token with
  | Some t => if isEmpty t then throw (Error (missingTokenMessage (Runtime.tokenEnvVar runtime)))
              else ret t
  | None => throw (Error (missingTokenMessage (Runtime.tokenEnvVar runtime)))
  end.

Definition requestHeaders (token : string) (body : option value) : list (string * string) :=
  List.app
    [("authorization", "Bearer " ++ token); ("accept", "application/json")]
    match body with
    | None => []
    | Some _ => [("content-type", "application/json")]
    end.

Definition requestFailedMessage (response : Response) : string :=
  "Spotify API request failed (" ++ decimal (status response) ++ "): "
  ++ slice0 400 (text response).

Definition requestSpotify (runtime : Runtime.t) (token : string) (method : Method)
    (path : string) (body : option value) : M value :=
  response <- fetch {| url := Runtime.apiBaseUrl runtime ++ path;
                       method := method;
                       headers := requestHeaders token body;
                       body := option_map JSON_stringify body |} ;;
  if negb (ok response) then throw (Error (requestFailedMessage response))
  else match JSON_parse (text response) with
       | Some payload => ret payload
       | None => throw SyntaxError
       end.

Definition searchTracksParams (input : SearchTracksInput.t) : URLSearchParams :=
  let params := [] in
  let params := params_set "q" (SearchTracksInput.query input) params in
  let params := params_set "type" "track" params in
  let params := params_set "limit" (NumberToString (fromZ (SearchTracksInput.limit input))) params in
  let params := params_set "offset" (NumberToString (fromZ (SearchTracksInput.offset input))) params in
  match SearchTracksInput.market input with
  | Some market =>
      if isEmpty market then params else params_set "market" (toUpperCase market) params
  | None => params
  end.

Definition listPlaylistsParams (input : ListMyPlaylistsInput.t) : URLSearchParams :=
  let params := [] in
  let params := params_set "limit" (NumberToString (fromZ (ListMyPlaylistsInput.limit input))) params in
  params_set "offset" (NumberToString (fromZ (ListMyPlaylistsInput.offset input))) params.

Definition userIdMessage : string :=
  "Failed to resolve authenticated Spotify user id from /me endpoint.".

Definition resolveUserId (runtime : Runtime.t) (token : string) : M string :=
  match or_else (Runtime.defaultUserId runtime) None with
  | Some defaultUserId => ret defaultUserId
  | None =>
      me <- requestSpotify runtime token GET "/me" None ;;
      match optField (Some me) "id" with
      | Some id => if truthy (Some id) then lift (js_String id) else throw (Error userIdMessage)
      | None => throw (Error userIdMessage)
      end
  end.

(** [String(v ?? "")] *)
Definition stringOf (v : option value) : outcome string := js_String (orElse v (JStr "")).

(** [Number(v ?? d)] *)
Definition numberOf (v : option value) (d : value) : outcome number :=
  js_Number (orElse v d).

(** The object returned by [runSpotifyGetMe] from the payload of [/me]; its
    properties are computed in the order they are written. *)
Definition getMeOutput (payload : value) : outcome GetMe.t :=
  raw_id <~ field payload "id" ;;
  id <~ stringOf raw_id ;;
  display_name <~ field payload "display_name" ;;
  displayName <~ stringOrNull display_name ;;
  raw_email <~ field payload "email" ;;
  email <~ stringOrNull raw_email ;;
  raw_country <~ field payload "country" ;;
  country <~ stringOrNull raw_country ;;
  raw_product <~ field payload "product" ;;
  product <~ stringOrNull raw_product ;;
  raw_followers <~ field payload "followers" ;;
  followers <~ numberOf (optField raw_followers "total") (JNum (fromZ 0)) ;;
  raw_uri <~ field payload "uri" ;;
  uri <~ stringOrNull raw_uri ;;
  Return {| GetMe.id := id;
            GetMe.displayName := displayName;
            GetMe.email := email;
            GetMe.country := country;
            GetMe.product := product;
            GetMe.followers := followers;
            GetMe.uri := uri |}.

Definition runSpotifyGetMe (_input : unit) (runtime : Runtime.t) : M GetMe.t :=
  token <- resolveAccessToken runtime ;;
  payload <- requestSpotify runtime token GET "/me" None ;;
  lift (getMeOutput payload).

(** [.filter(Boolean)] on the mapped artists: [null] and the empty string go *)
Fixpoint filterBoolean (l : list (option string)) : list string :=
  match l with
  | [] => []
  | Some s :: rest => if isEmpty s then filterBoolean rest else s :: filterBoolean rest
  | None :: rest => filterBoolean rest
  end.

Definition artistName (artist : value) : outcome (option string) :=
  stringOrNull (optField (Some artist) "name").

Definition trackArtists (artists : option value) : outcome (list string) :=
  match artists with
  | Some (JArr l) => names <~ mapM artistName l ;; Return (filterBoolean names)
  | _ => Return []
  end.

Definition trackOutput (track : value) : outcome Track.t :=
  raw_id <~ field track "id" ;;
  id <~ stringOf raw_id ;;
  raw_name <~ field track "name" ;;
  name <~ stringOf raw_name ;;
  raw_artists <~ field track "artists" ;;
  artists <~ trackArtists raw_artists ;;
  raw_album <~ field track "album" ;;
  album <~ stringOrNull (optField raw_album "name") ;;
  duration_ms <~ field track "duration_ms" ;;
  durationMs <~ numberOf duration_ms (JNum (fromZ 0)) ;;
  raw_popularity <~ field track "popularity" ;;
  popularity <~ numberOf raw_popularity (JNum (fromZ 0)) ;;
  raw_uri <~ field track "uri" ;;
  uri <~ stringOf raw_uri ;;
  external_urls <~ field track "external_urls" ;;
  externalUrl <~ stringOrNull (optField external_urls "spotify") ;;
  Return {| Track.id := id;
            Track.name := name;
            Track.artists := artists;
            Track.album := album;
            Track.durationMs := durationMs;
            Track.popularity := popularity;
            Track.uri := uri;
            Track.externalUrl := externalUrl |}.

Definition lengthOf (items : list value) : value := JNum (fromZ (Z.of_nat (List.length items))).

(** The object returned by [runSpotifySearchTracks]; every read of
    [payload.tracks] gives the same value, and the paging numbers are
    computed before the items are mapped. *)
Definition searchTracksOutput (input : SearchTracksInput.t) (payload : value)
    : outcome SearchTracks.t :=
  tracks <~ field payload "tracks" ;;
  let items := arrayOrEmpty (optField tracks "items") in
  total <~ numberOf (optField tracks "total") (lengthOf items) ;;
  limit <~ numberOf (optField tracks "limit")
             (JNum (fromZ (SearchTracksInput.limit input))) ;;
  offset <~ numberOf (optField tracks "offset")
              (JNum (fromZ (SearchTracksInput.offset input))) ;;
  mapped <~ mapM trackOutput items ;;
  Return {| SearchTracks.total := total;
            SearchTracks.limit := limit;
            SearchTracks.offset := offset;
            SearchTracks.tracks := mapped |}.

Definition runSpotifySearchTracks (input : SearchTracksInput.t) (runtime : Runtime.t)
    : M SearchTracks.t :=
  token <- resolveAccessToken runtime ;;
  let params := searchTracksParams input in
  payload <- requestSpotify runtime token GET ("/search?" ++ params_toString params) None ;;
  lift (searchTracksOutput input payload).

Definition playlistOutput (playlist : value) : outcome Playlist.t :=
  raw_id <~ field playlist "id" ;;
  id <~ stringOf raw_id ;;
  raw_name <~ field playlist "name" ;;
  name <~ stringOf raw_name ;;
  raw_description <~ field playlist "description" ;;
  description <~ stringOrNull raw_description ;;
  public <~ field playlist "public" ;;
  collaborative <~ field playlist "collaborative" ;;
  owner <~ field playlist "owner" ;;
  ownerId <~ stringOrNull (optField owner "id") ;;
  tracks <~ field playlist "tracks" ;;
  tracksTotal <~ numberOf (optField tracks "total") (JNum (fromZ 0)) ;;
  snapshot_id <~ field playlist "snapshot_id" ;;
  snapshotId <~ stringOrNull snapshot_id ;;
  external_urls <~ field playlist "external_urls" ;;
  externalUrl <~ stringOrNull (optField external_urls "spotify") ;;
  Return {| Playlist.id := id;
            Playlist.name := name;
            Playlist.description := description;
            Playlist.public := booleanOrNull public;
            Playlist.collaborative := truthy collaborative;
            Playlist.ownerId := ownerId;
            Playlist.tracksTotal := tracksTotal;
            Playlist.snapshotId := snapshotId;
            Playlist.externalUrl := externalUrl |}.

(** The object returned by [runSpotifyListMyPlaylists]; the paging numbers
    are computed before the items are mapped. *)
Definition listMyPlaylistsOutput (input : ListMyPlaylistsInput.t) (payload : value)
    : outcome ListMyPlaylists.t :=
  payload_items <~ field payload "items" ;;
  let items := arrayOrEmpty payload_items in
  raw_total <~ field payload "total" ;;
  total <~ numberOf raw_total (lengthOf items) ;;
  raw_limit <~ field payload "limit" ;;
  limit <~ numberOf raw_limit (JNum (fromZ (ListMyPlaylistsInput.limit input))) ;;
  raw_offset <~ field payload "offset" ;;
  offset <~ numberOf raw_offset (JNum (fromZ (ListMyPlaylistsInput.offset input))) ;;
  mapped <~ mapM playlistOutput items ;;
  Return {| ListMyPlaylists.total := total;
            ListMyPlaylists.limit := limit;
            ListMyPlaylists.offset := offset;
            ListMyPlaylists.playlists := mapped |}.

Definition runSpotifyListMyPlaylists (input : ListMyPlaylistsInput.t) (runtime : Runtime.t)
    : M ListMyPlaylists.t :=
  token <- resolveAccessToken runtime ;;
  let params := listPlaylistsParams input in
  payload <- requestSpotify runtime token GET ("/me/playlists?" ++ params_toString params) None ;;
  lift (listMyPlaylistsOutput input payload).

(** The body of the create request.  [JSON.stringify] leaves out a property
    whose value is [undefined], so [description] is there only when given. *)
Definition createPlaylistBody (input : CreatePlaylistInput.t) : value :=
  JObj (List.app
          [("name", JStr (CreatePlaylistInput.name input))]
          (List.app
             match CreatePlaylistInput.description input with
             | Some d => [("description", JStr d)]
             | None => []
             end
             [("public", JBool (CreatePlaylistInput.public input));
              ("collaborative", JBool (CreatePlaylistInput.collaborative input))])).

Definition createPlaylistPath (userId : string) : string :=
  "/users/" ++ encodeURIComponent userId ++ "/playlists".

(** The object returned by [runSpotifyCreatePlaylist]. *)
Definition createdPlaylistOutput (payload : value) : outcome CreatedPlaylist.t :=
  raw_id <~ field payload "id" ;;
  id <~ stringOf raw_id ;;
  raw_name <~ field payload "name" ;;
  name <~ stringOf raw_name ;;
  public <~ field payload "public" ;;
  collaborative <~ field payload "collaborative" ;;
  raw_description <~ field payload "description" ;;
  description <~ stringOrNull raw_description ;;
  snapshot_id <~ field payload "snapshot_id" ;;
  snapshotId <~ stringOrNull snapshot_id ;;
  external_urls <~ field payload "external_urls" ;;
  externalUrl <~ stringOrNull (optField external_urls "spotify") ;;
  owner <~ field payload "owner" ;;
  ownerId <~ stringOrNull (optField owner "id") ;;
  Return {| CreatedPlaylist.id := id;
            CreatedPlaylist.name := name;
            CreatedPlaylist.public := booleanOrNull public;
            CreatedPlaylist.collaborative := truthy collaborative;
            CreatedPlaylist.description := description;
            CreatedPlaylist.snapshotId := snapshotId;
            CreatedPlaylist.externalUrl := externalUrl;
            CreatedPlaylist.ownerId := ownerId |}.

Definition runSpotifyCreatePlaylist (input : CreatePlaylistInput.t) (runtime : Runtime.t)
    : M CreatedPlaylist.t :=
  token <- resolveAccessToken runtime ;;
  userId <- match CreatePlaylistInput.userId input with
            | Some userId => ret userId
            | None => resolveUserId runtime token
            end ;;
  payload <- requestSpotify runtime token POST (createPlaylistPath userId)
               (Some (createPlaylistBody input)) ;;
  lift (createdPlaylistOutput payload).

Definition executeSpotifyGetMe (input : unit) (config : Config.t) : M GetMe.t :=
  runtime <- lift (spotifyToolsConfigSchema config) ;;
  runSpotifyGetMe input runtime.

Definition executeSpotifySearchTracks (input : SearchTracksInput.t) (config : Config.t)
    : M SearchTracks.t :=
  runtime <- lift (spotifyToolsConfigSchema config) ;;
  runSpotifySearchTracks input runtime.

Definition executeSpotifyListMyPlaylists (input : ListMyPlaylistsInput.t) (config : Config.t)
    : M ListMyPlaylists.t :=
  runtime <- lift (spotifyToolsConfigSchema config) ;;
  runSpotifyListMyPlaylists input runtime.

Definition executeSpotifyCreatePlaylist (input : CreatePlaylistInput.t) (config : Config.t)
    : M CreatedPlaylist.t :=
  runtime <- lift (spotifyToolsConfigSchema config) ;;
  runSpotifyCreatePlaylist input runtime.

(** ** The tool of the agent framework *)

(** What [tool({description, inputSchema, execute})] holds. *)
Record Tool (I O : Type) : Type := {
  description : string;
  inputSchema : value -> outcome I;
  execute : I -> M O
}.

Arguments description {I O} _.
Arguments inputSchema {I O} _ _.
Arguments execute {I O} _ _.

Definition spotifyCreatePlaylistDescription : string :=
  "Create a Spotify playlist for the authenticated user. Requires explicit confirm=true guardrail.".

(** The configuration is parsed when the tool is made. *)
Definition createSpotifyCreatePlaylistTool (config : Config.t)
    : outcome (Tool CreatePlaylistInput.t CreatedPlaylist.t) :=
  runtime <~ spotifyToolsConfigSchema config ;;
  Return {| description := spotifyCreatePlaylistDescription;
            inputSchema := spotifyCreatePlaylistInputSchema;
            execute := fun input => runSpotifyCreatePlaylist input runtime |}.

(** The adapter parses the configuration at each call. *)
Definition spotify_create_playlist (config : Config.t)
    : Tool CreatePlaylistInput.t CreatedPlaylist.t :=
  {| description := spotifyCreatePlaylistDescription;
     inputSchema := spotifyCreatePlaylistInputSchema;
     execute := fun input => executeSpotifyCreatePlaylist input config |}.

(** How the framework calls a tool (the data flow of the specification):
    the raw arguments go through the tool's input schema, and [execute]
    receives what the schema accepted. *)
Definition callTool {I O : Type} (tool : Tool I O) (raw : value) : M O :=
  input <- lift (inputSchema tool raw) ;;
  execute tool input.

End Handlers.

Arguments description {H I O} _.
Arguments inputSchema {H I O} _ _.
Arguments execute {H I O} _ _ _ _.

(** ** The schemas of the reading tools *)

(** What the host says of a number that passes [.int()]: its integer value,
    which [fromZ] turns back into the number (an integer zero is read
    without its sign).  Of a number that does not pass, the host says
    whether it is [NaN] and how it compares with an integer bound. *)
Class HostIntegers {H : Host} : Type := {
  integerValue : number -> option Z;
  integerValue_fromZ : forall n z, integerValue n = Some z -> fromZ z = n;
  isNaN : number -> bool;
  lessThan : number -> Z -> bool;
  greaterThan : number -> Z -> bool
}.

Section ReadingSchemas.
Context {H : Host} {HI : HostIntegers}.

(** [z.number().int().min(lo)] with an optional [.max(hi)]: a value that is
    no number, or is [NaN], aborts; the checks [int], [min] and [max] all
    run on a number, each raising its issue, so a number that is not an
    integer has the issue of [int] and those of the bounds it fails, and
    no parsed integer. *)
Definition z_int (lo : Z) (hi : option Z) (v : option value) : checked Z :=
  match v with
  | Some (JNum n) =>
      match integerValue n with
      | Some z =>
          (Some z,
           List.app (if z <? lo then [too_small] else [])
                    match hi with
                    | Some h => if h <? z then [too_big] else []
                    | None => []
                    end)
      | None =>
          if isNaN n then (None, [invalid_type])
          else
            (None,
             invalid_type
             :: List.app (if lessThan n lo then [too_small] else [])
                         match hi with
                         | Some h => if greaterThan n h then [too_big] else []
                         | None => []
                         end)
      end
  | _ => (None, [invalid_type])
  end.

(** [z.string().length(n)] *)
Definition z_string_length (n : nat) (v : option value) : checked string :=
  match v with
  | Some (JStr s) =>
      (Some s,
       if Nat.ltb (String.length s) n then [too_small]
       else if Nat.ltb n (String.length s) then [too_big]
       else [])
  | _ => (None, [invalid_type])
  end.

Definition notAnObject : ZodIssue := {| code_of := invalid_type; path := [] |}.

(** [spotifyGetMeInputSchema.parse(input)]: any object, its keys dropped. *)
Definition spotifyGetMeInputSchema (input : value) : outcome unit :=
  match input with
  | JObj _ => Return tt
  | _ => Throw (ZodError [notAnObject])
  end.

(** [spotifySearchTracksInputSchema.parse(input)] *)
Definition spotifySearchTracksInputSchema (input : value) : outcome SearchTracksInput.t :=
  match input with
  | JObj fields =>
      let query := z_string (Some 1%nat) None (lookup "query" fields) in
      let limit := z_default (z_int 1 (Some 50)) 10 (lookup "limit" fields) in
      let offset := z_default (z_int 0 None) 0 (lookup "offset" fields) in
      let market := z_optional (z_string_length 2) (lookup "market" fields) in
      let issues :=
        List.app (at_path "query" (snd query))
          (List.app (at_path "limit" (snd limit))
             (List.app (at_path "offset" (snd offset)) (at_path "market" (snd market)))) in
      match fst query, fst limit, fst offset, fst market, issues with
      | Some q, Some l, Some o, Some m, [] =>
          Return {| SearchTracksInput.query := q;
                    SearchTracksInput.limit := l;
                    SearchTracksInput.offset := o;
                    SearchTracksInput.market := m |}
      | _, _, _, _, _ => Throw (ZodError issues)
      end
  | _ => Throw (ZodError [notAnObject])
  end.

(** [spotifyListMyPlaylistsInputSchema.parse(input)] *)
Definition spotifyListMyPlaylistsInputSchema (input : value)
    : outcome ListMyPlaylistsInput.t :=
  match input with
  | JObj fields =>
      let limit := z_default (z_int 1 (Some 50)) 20 (lookup "limit" fields) in
      let offset := z_default (z_int 0 None) 0 (lookup "offset" fields) in
      let issues := List.app (at_path "limit" (snd limit)) (at_path "offset" (snd offset)) in
      match fst limit, fst offset, issues with
      | Some l, Some o, [] =>
          Return {| ListMyPlaylistsInput.limit := l; ListMyPlaylistsInput.offset := o |}
      | _, _, _ => Throw (ZodError issues)
      end
  | _ => Throw (ZodError [notAnObject])
  end.

(** ** The tool sets *)

Definition spotifyGetMeDescription : string :=
  "Fetch the current Spotify account profile for the authenticated user.".

Definition spotifySearchTracksDescription : string :=
  "Search Spotify tracks by query string and return compact track metadata.".

Definition spotifyListMyPlaylistsDescription : string :=
  "List Spotify playlists for the authenticated user account.".

Definition createSpotifyGetMeTool (config : Config.t) : outcome (Tool unit GetMe.t) :=
  runtime <~ spotifyToolsConfigSchema config ;;
  Return {| description := spotifyGetMeDescription;
            inputSchema := spotifyGetMeInputSchema;
            execute := fun input => runSpotifyGetMe input runtime |}.

Definition createSpotifySearchTracksTool (config : Config.t)
    : outcome (Tool SearchTracksInput.t SearchTracks.t) :=
  runtime <~ spotifyToolsConfigSchema config ;;
  Return {| description := spotifySearchTracksDescription;
            inputSchema := spotifySearchTracksInputSchema;
            execute := fun input => runSpotifySearchTracks input runtime |}.

Definition createSpotifyListMyPlaylistsTool (config : Config.t)
    : outcome (Tool ListMyPlaylistsInput.t ListMyPlaylists.t) :=
  runtime <~ spotifyToolsConfigSchema config ;;
  Return {| description := spotifyListMyPlaylistsDescription;
            inputSchema := spotifyListMyPlaylistsInputSchema;
            execute := fun input => runSpotifyListMyPlaylists input runtime |}.

End ReadingSchemas.

Module Toolset.
(** [ReturnType<typeof createSpotifyTools>] *)
Record t {H : Host} : Type := {
  spotify_get_me : Tool unit GetMe.t;
  spotify_search_tracks : Tool SearchTracksInput.t SearchTracks.t;
  spotify_list_my_playlists : Tool ListMyPlaylistsInput.t ListMyPlaylists.t;
  spotify_create_playlist : Tool CreatePlaylistInput.t CreatedPlaylist.t
}.
End Toolset.

Module McpTool.
(** [McpToolDefinition<TInput>] *)
Record t {H : Host} (I O : Type) : Type := {
  name : string;
  description : string;
  inputSchema : value -> outcome I;
  execute : I -> M O
}.
Arguments name {H I O} _.
Arguments description {H I O} _.
Arguments inputSchema {H I O} _ _.
Arguments execute {H I O} _ _ _ _.
End McpTool.

Module McpToolset.
(** [ReturnType<typeof createSpotifyMcpTools>] *)
Record t {H : Host} : Type := {
  spotify_get_me : McpTool.t unit GetMe.t;
  spotify_search_tracks : McpTool.t SearchTracksInput.t SearchTracks.t;
  spotify_list_my_playlists : McpTool.t ListMyPlaylistsInput.t ListMyPlaylists.t;
  spotify_create_playlist : McpTool.t CreatePlaylistInput.t CreatedPlaylist.t
}.
End McpToolset.

Section Toolsets.
Context {H : Host} {HI : HostIntegers}.

Definition createSpotifyTools (config : Config.t) : outcome Toolset.t :=
  get_me <~ createSpotifyGetMeTool config ;;
  search_tracks <~ createSpotifySearchTracksTool config ;;
  list_my_playlists <~ createSpotifyListMyPlaylistsTool config ;;
  create_playlist <~ createSpotifyCreatePlaylistTool config ;;
  Return {| Toolset.spotify_get_me := get_me;
            Toolset.spotify_search_tracks := search_tracks;
            Toolset.spotify_list_my_playlists := list_my_playlists;
            Toolset.spotify_create_playlist := create_playlist |}.

Definition createSpotifyMcpTools (config : Config.t) : McpToolset.t :=
  {| McpToolset.spotify_get_me :=
       {| McpTool.name := "spotify_get_me";
          McpTool.description :=
            "Fetch the current Spotify account profile for the authenticated user.";
          McpTool.inputSchema := spotifyGetMeInputSchema;
          McpTool.execute := fun input => executeSpotifyGetMe input config |};
     McpToolset.spotify_search_tracks :=
       {| McpTool.name := "spotify_search_tracks";
          McpTool.description :=
            "Search Spotify tracks by query string and return compact track metadata.";
          McpTool.inputSchema := spotifySearchTracksInputSchema;
          McpTool.execute := fun input => executeSpotifySearchTracks input config |};
     McpToolset.spotify_list_my_playlists :=
       {| McpTool.name := "spotify_list_my_playlists";
          McpTool.description := "List Spotify playlists for the authenticated user account.";
          McpTool.inputSchema := spotifyListMyPlaylistsInputSchema;
          McpTool.execute := fun input => executeSpotifyListMyPlaylists input config |};
     McpToolset.spotify_create_playlist :=
       {| McpTool.name := "spotify_create_playlist";
          McpTool.description :=
            "Create a Spotify playlist for the authenticated user. Requires explicit confirm=true guardrail.";
          McpTool.inputSchema := spotifyCreatePlaylistInputSchema;
          McpTool.execute := fun input => executeSpotifyCreatePlaylist input config |} |}.

(** A call of an adapter tool: the arguments go through its schema, as for
    [callTool]. *)
Definition callMcpTool {I O : Type} (tool : McpTool.t I O) (raw : value) : M O :=
  input <- lift (McpTool.inputSchema tool raw) ;;
  McpTool.execute tool input.

End Toolsets.

(** ** The echo tool (example-echo) *)

Module Echo.
Record input : Type := { text : string }.
Record output {H : Host} : Type := { echoed : string; length : number }.
End Echo.

Section EchoTool.
Context {H : Host}.

(** [z.object({ text: z.string().min(1).max(500) })] *)
Definition exampleEchoInputSchema (raw : value) : outcome Echo.input :=
  match raw with
  | JObj fields =>
      let text := z_string (Some 1%nat) (Some 500%nat) (lookup "text" fields) in
      match fst text, snd text with
      | Some t, [] => Return {| Echo.text := t |}
      | _, codes => Throw (ZodError (at_path "text" codes))
      end
  | _ => Throw (ZodError [ {| code_of := invalid_type; path := [] |} ])
  end.

Definition exampleEchoTool : Tool Echo.input Echo.output :=
  {| description := "Echoes a short text payload for smoke tests and wiring checks.";
     inputSchema := exampleEchoInputSchema;
     execute := fun input =>
       ret {| Echo.echoed := Echo.text input;
              Echo.length := fromZ (Z.of_nat (String.length (Echo.text input))) |} |}.

End EchoTool.

(** ** A host to run the handlers on

    Its numbers are the integers and NaN ([None]); its codec reads the few
    response bodies of the examples below and writes objects of strings,
    booleans and integers; its URL test only asks for a colon.  It agrees
    with JavaScript on every value the examples use. *)

Module Sample.

Definition num : Type := option Z.

Definition quote : string := String (ascii_of_nat 34) EmptyString.

Definition quoted (s : string) : string := quote ++ s ++ quote.

Definition isDigit (c : ascii) : bool := ((48 <=? code c) && (code c <=? 57))%N.

Fixpoint digits (s : string) (acc : Z) : num :=
  match s with
  | EmptyString => Some acc
  | String c rest =>
      if isDigit c then digits rest (10 * acc + Z.of_N (code c) - 48) else None
  end.

Definition stringToNumber (s : string) : num :=
  match trim s with
  | EmptyString => Some 0
  | t => digits t 0
  end.

Definition numberToString (n : num) : string :=
  match n with
  | Some z => decimal z
  | None => "NaN"
  end.

Definition falsy (n : num) : bool :=
  match n with
  | Some z => z =? 0
  | None => true
  end.

Definition upper (c : ascii) : ascii :=
  if ((97 <=? code c) && (code c <=? 122))%N then ascii_of_N (code c - 32) else c.

Fixpoint upperCase (s : string) : string :=
  match s with
  | EmptyString => EmptyString
  | String c rest => String (upper c) (upperCase rest)
  end.

Fixpoint stringify (v : json num) : string :=
  match v with
  | JNull => "null"
  | JBool true => "true"
  | JBool false => "false"
  | JNum n => numberToString n
  | JStr s => quoted s
  | JArr _ => "[]"
  | JObj fields =>
      "{" ++ join ","
               ((fix each (l : list (string * json num)) : list string :=
                   match l with
                   | [] => []
                   | (k, x) :: rest => (quoted k ++ ":" ++ stringify x) :: each rest
                   end) fields)
          ++ "}"
  end.

(** The bodies the examples receive. *)
Definition body_me : string := "{" ++ quoted "id" ++ ":" ++ quoted "u1" ++ "}".
Definition body_created : string := "{" ++ quoted "id" ++ ":" ++ quoted "p1" ++ "}".
Definition body_empty : string := "{}".

Definition parse (s : string) : option (json num) :=
  if String.eqb s body_me then Some (JObj [("id", JStr "u1")])
  else if String.eqb s body_created then Some (JObj [("id", JStr "p1")])
  else if String.eqb s body_empty then Some (JObj [])
  else if String.eqb s "null" then Some JNull
  else None.

Definition host : Host :=
  {| number := num;
     fromZ := Some;
     numFalsy := falsy;
     StringToNumber := stringToNumber;
     NumberToString := numberToString;
     JSON_parse := parse;
     JSON_stringify := stringify;
     toUpperCase := upperCase;
     stackDepth := 1000;
     isURL := hasColon;
     isURL_colon := fun _ E => E;
     isURL_default := eq_refl |}.

(** A remote side that knows one account, [u1]: [/me] answers with its id,
    a create request answers with the new playlist, every other request
    with an empty object. *)
Definition endsWith (suffix s : string) : bool :=
  String.eqb (substring (String.length s - String.length suffix) (String.length suffix) s) suffix.

Definition api (_ : list event) (r : Request) : option Response :=
  match method r with
  | POST => Some {| status := 201; text := body_created |}
  | GET =>
      if endsWith "/me" (url r) then Some {| status := 200; text := body_me |}
      else Some {| status := 200; text := body_empty |}
  end.

Definition world (token : option string) : World :=
  {| env := fun variable =>
              if String.eqb variable "SPOTIFY_ACCESS_TOKEN" then token else None;
     network := api |}.

Definition runtime (accessToken defaultUserId : option string) : Runtime.t :=
  {| Runtime.accessToken := accessToken;
     Runtime.tokenEnvVar := "SPOTIFY_ACCESS_TOKEN";
     Runtime.apiBaseUrl := "https://api.spotify.com/v1";
     Runtime.defaultUserId := defaultUserId |}.

End Sample.

(** The integers of the sample host: every number but NaN is one. *)
Module SampleIntegers.

(** The numbers of the sample host are the integers and [NaN]. *)
Definition integers : HostIntegers (H := Sample.host) :=
  @Build_HostIntegers Sample.host (fun n => n) (fun n z E => eq_sym E)
    (fun n => match n with Some _ => false | None => true end)
    (fun n k => match n with Some z => z <? k | None => false end)
    (fun n k => match n with Some z => k <? z | None => false end).

End SampleIntegers.

(** * Vocabulary of the statements *)

Section Vocabulary.
Context {H : Host}.

(** A string of white space only (the empty string is one). *)
Fixpoint blank (s : string) : bool :=
  match s with
  | EmptyString => true
  | String c rest => isWhiteSpace c && blank rest
  end.

(** A source yields nothing when it is unset or trims to the empty string. *)
Definition yieldsNothing (source : option string) : Prop :=
  match source with
  | None => True
  | Some s => trim s = ""
  end.

Definition explicitOf (runtime : Runtime.t) : option string := Runtime.accessToken runtime.

Definition fallbackOf (runtime : Runtime.t) (w : World) : option string :=
  env w (Runtime.tokenEnvVar runtime).

Definition tokenOf (runtime : Runtime.t) (w : World) : option string :=
  or_else (or_else (option_map trim (explicitOf runtime))
                   (option_map trim (fallbackOf runtime w))) None.

(** The read of the fallback variable gives what [process.env] inherits:
    no variable of that name is set and the name is an inherited one. *)
Definition inheritedRead (runtime : Runtime.t) (w : World) : bool :=
  match fallbackOf runtime w with
  | Some _ => false
  | None => inheritedName (Runtime.tokenEnvVar runtime)
  end.

(** The request that [requestSpotify] hands to [fetch]. *)
Definition requestOf (runtime : Runtime.t) (token : string) (method : Method)
    (path : string) (body : option value) : Request :=
  {| url := Runtime.apiBaseUrl runtime ++ path;
     method := method;
     headers := requestHeaders token body;
     body := option_map JSON_stringify body |}.

Definition hasHeader (name : string) (request : Request) : Prop :=
  exists v, In (name, v) (headers request).

Definition apiBaseUrlIssue : ZodIssue := {| code_of := invalid_url; path := ["apiBaseUrl"] |}.

(** [raw.key] is absent or a string. *)
Definition stringOrAbsent (v : option value) : Prop :=
  match v with
  | None => True
  | Some (JStr _) => True
  | Some _ => False
  end.

Definition isString (v : option value) : Prop :=
  match v with
  | Some (JStr _) => True
  | _ => False
  end.

Definition hasPath (p : list string) (issues : list ZodIssue) : Prop :=
  exists i, In i issues /\ path i = p.

Definition meRequest (runtime : Runtime.t) (token : string) : Request :=
  requestOf runtime token GET "/me" None.

Definition createRequest (runtime : Runtime.t) (token : string)
    (input : CreatePlaylistInput.t) (account : string) : Request :=
  requestOf runtime token POST (createPlaylistPath account) (Some (createPlaylistBody input)).

(** The API answers the request of a handler with a JSON payload. *)
Definition answers (w : World) (log : list event) (runtime : Runtime.t) (path : string)
    (payload : value) : Prop :=
  exists token response,
    fst (resolveAccessToken runtime w log) = Return token
    /\ network w (log ++ [EnvRead (Runtime.tokenEnvVar runtime)])%list
         (requestOf runtime token GET path None) = Some response
    /\ ok response = true
    /\ JSON_parse (text response) = Some payload.

Definition searchPath (input : SearchTracksInput.t) : string :=
  "/search?" ++ params_toString (searchTracksParams input).

Definition playlistsPath (input : ListMyPlaylistsInput.t) : string :=
  "/me/playlists?" ++ params_toString (listPlaylistsParams input).

Definition nonNull (v : value) : Prop := v <> JNull.

(** A value that is no array and no object, and a property that is absent
    or such a value: its conversion to a string or a number cannot fail. *)
Definition scalarValue (v : value) : Prop :=
  match v with
  | JArr _ | JObj _ => False
  | _ => True
  end.

Definition scalar (v : option value) : Prop :=
  match v with
  | Some x => scalarValue x
  | None => True
  end.

(** A profile whose converted properties are scalar. *)
Definition plainProfile (payload : value) : Prop :=
  nonNull payload
  /\ scalar (optField (Some payload) "id")
  /\ scalar (optField (Some payload) "display_name")
  /\ scalar (optField (Some payload) "email")
  /\ scalar (optField (Some payload) "country")
  /\ scalar (optField (Some payload) "product")
  /\ scalar (optField (optField (Some payload) "followers") "total")
  /\ scalar (optField (Some payload) "uri").

Definition plainArtists (artists : option value) : Prop :=
  match artists with
  | Some (JArr l) => Forall (fun artist => scalar (optField (Some artist) "name")) l
  | _ => True
  end.

Definition plainTrack (track : value) : Prop :=
  nonNull track
  /\ scalar (optField (Some track) "id")
  /\ scalar (optField (Some track) "name")
  /\ plainArtists (optField (Some track) "artists")
  /\ scalar (optField (optField (Some track) "album") "name")
  /\ scalar (optField (Some track) "duration_ms")
  /\ scalar (optField (Some track) "popularity")
  /\ scalar (optField (Some track) "uri")
  /\ scalar (optField (optField (Some track) "external_urls") "spotify").

Definition plainPlaylist (playlist : value) : Prop :=
  nonNull playlist
  /\ scalar (optField (Some playlist) "id")
  /\ scalar (optField (Some playlist) "name")
  /\ scalar (optField (Some playlist) "description")
  /\ scalar (optField (optField (Some playlist) "owner") "id")
  /\ scalar (optField (optField (Some playlist) "tracks") "total")
  /\ scalar (optField (Some playlist) "snapshot_id")
  /\ scalar (optField (optField (Some playlist) "external_urls") "spotify").

Definition plainCreated (payload : value) : Prop :=
  nonNull payload
  /\ scalar (optField (Some payload) "id")
  /\ scalar (optField (Some payload) "name")
  /\ scalar (optField (Some payload) "description")
  /\ scalar (optField (Some payload) "snapshot_id")
  /\ scalar (optField (optField (Some payload) "external_urls") "spotify")
  /\ scalar (optField (optField (Some payload) "owner") "id").

(** What an absent property of the profile becomes. *)
Definition getMeDefaults (payload : value) (out : GetMe.t) : Prop :=
  (optField (Some payload) "id" = None -> GetMe.id out = "")
  /\ (optField (Some payload) "display_name" = None -> GetMe.displayName out = None)
  /\ (optField (Some payload) "email" = None -> GetMe.email out = None)
  /\ (optField (Some payload) "country" = None -> GetMe.country out = None)
  /\ (optField (Some payload) "product" = None -> GetMe.product out = None)
  /\ (optField (optField (Some payload) "followers") "total" = None ->
      GetMe.followers out = fromZ 0)
  /\ (optField (Some payload) "uri" = None -> GetMe.uri out = None).

(** What an absent property of a track becomes. *)
Definition trackDefaults (track : value) (out : Track.t) : Prop :=
  (optField (Some track) "id" = None -> Track.id out = "")
  /\ (optField (Some track) "name" = None -> Track.name out = "")
  /\ (optField (Some track) "artists" = None -> Track.artists out = [])
  /\ (optField (optField (Some track) "album") "name" = None -> Track.album out = None)
  /\ (optField (Some track) "duration_ms" = None -> Track.durationMs out = fromZ 0)
  /\ (optField (Some track) "popularity" = None -> Track.popularity out = fromZ 0)
  /\ (optField (Some track) "uri" = None -> Track.uri out = "")
  /\ (optField (optField (Some track) "external_urls") "spotify" = None ->
      Track.externalUrl out = None).

(** What an absent property of a listed playlist becomes. *)
Definition playlistDefaults (playlist : value) (out : Playlist.t) : Prop :=
  (optField (Some playlist) "id" = None -> Playlist.id out = "")
  /\ (optField (Some playlist) "name" = None -> Playlist.name out = "")
  /\ (optField (Some playlist) "description" = None -> Playlist.description out = None)
  /\ (optField (Some playlist) "public" = None -> Playlist.public out = Some false)
  /\ (optField (Some playlist) "collaborative" = None -> Playlist.collaborative out = false)
  /\ (optField (optField (Some playlist) "owner") "id" = None -> Playlist.ownerId out = None)
  /\ (optField (optField (Some playlist) "tracks") "total" = None ->
      Playlist.tracksTotal out = fromZ 0)
  /\ (optField (Some playlist) "snapshot_id" = None -> Playlist.snapshotId out = None)
  /\ (optField (optField (Some playlist) "external_urls") "spotify" = None ->
      Playlist.externalUrl out = None).

(** What an absent property of the created playlist becomes. *)
Definition createdPlaylistDefaults (payload : value) (out : CreatedPlaylist.t) : Prop :=
  (optField (Some payload) "id" = None -> CreatedPlaylist.id out = "")
  /\ (optField (Some payload) "name" = None -> CreatedPlaylist.name out = "")
  /\ (optField (Some payload) "public" = None -> CreatedPlaylist.public out = Some false)
  /\ (optField (Some payload) "collaborative" = None ->
      CreatedPlaylist.collaborative out = false)
  /\ (optField (Some payload) "description" = None -> CreatedPlaylist.description out = None)
  /\ (optField (Some payload) "snapshot_id" = None -> CreatedPlaylist.snapshotId out = None)
  /\ (optField (optField (Some payload) "external_urls") "spotify" = None ->
      CreatedPlaylist.externalUrl out = None)
  /\ (optField (optField (Some payload) "owner") "id" = None ->
      CreatedPlaylist.ownerId out = None).

(** The items a search payload lists, and those a playlists payload lists. *)
Definition trackItems (payload : value) : list value :=
  arrayOrEmpty (optField (optField (Some payload) "tracks") "items").

Definition playlistItems (payload : value) : list value :=
  arrayOrEmpty (optField (Some payload) "items").

(** A search payload and a playlists payload whose paging numbers are
    scalar and whose items are plain. *)
Definition plainSearch (payload : value) : Prop :=
  nonNull payload
  /\ scalar (optField (optField (Some payload) "tracks") "total")
  /\ scalar (optField (optField (Some payload) "tracks") "limit")
  /\ scalar (optField (optField (Some payload) "tracks") "offset")
  /\ Forall plainTrack (trackItems payload).

Definition plainPlaylists (payload : value) : Prop :=
  nonNull payload
  /\ scalar (optField (Some payload) "total")
  /\ scalar (optField (Some payload) "limit")
  /\ scalar (optField (Some payload) "offset")
  /\ Forall plainPlaylist (playlistItems payload).

(** The paging numbers of a search output: an absent [total] is the number
    of items, an absent [limit] or [offset] is the one of the request. *)
Definition searchPaging (input : SearchTracksInput.t) (payload : value)
    (out : SearchTracks.t) : Prop :=
  let tracks := optField (Some payload) "tracks" in
  (optField tracks "total" = None ->
   SearchTracks.total out = fromZ (Z.of_nat (List.length (trackItems payload))))
  /\ (optField tracks "limit" = None ->
      SearchTracks.limit out = fromZ (SearchTracksInput.limit input))
  /\ (optField tracks "offset" = None ->
      SearchTracks.offset out = fromZ (SearchTracksInput.offset input)).

Definition playlistsPaging (input : ListMyPlaylistsInput.t) (payload : value)
    (out : ListMyPlaylists.t) : Prop :=
  (optField (Some payload) "total" = None ->
   ListMyPlaylists.total out = fromZ (Z.of_nat (List.length (playlistItems payload))))
  /\ (optField (Some payload) "limit" = None ->
      ListMyPlaylists.limit out = fromZ (ListMyPlaylistsInput.limit input))
  /\ (optField (Some payload) "offset" = None ->
      ListMyPlaylists.offset out = fromZ (ListMyPlaylistsInput.offset input)).

(** The API answers the create request with a JSON payload. *)
Definition createAnswers (w : World) (log : list event) (runtime : Runtime.t)
    (input : CreatePlaylistInput.t) (payload : value) : Prop :=
  exists token account log' response,
    fst (resolveAccessToken runtime w log) = Return token
    /\ match CreatePlaylistInput.userId input with
       | Some userId => ret userId
       | None => resolveUserId runtime token
       end w (log ++ [EnvRead (Runtime.tokenEnvVar runtime)])%list = (Return account, log')
    /\ network w log' (createRequest runtime token input account) = Some response
    /\ ok response = true
    /\ JSON_parse (text response) = Some payload.

(** The raw response of the reference example. *)
Definition examplePayload : value :=
  JObj [("tracks",
         JObj [("total", JNum (fromZ 1));
               ("items",
                JArr [JObj [("id", JStr "t1");
                            ("name", JStr "Song");
                            ("artists", JArr [JObj [("name", JStr "Artist")]]);
                            ("album", JObj [("name", JStr "Album")]);
                            ("duration_ms", JNum (fromZ 1000));
                            ("popularity", JNum (fromZ 50));
                            ("uri", JStr "spotify:track:t1");
                            ("external_urls", JObj [("spotify", JStr "https://x")])]])])].

Definition exampleOutput (input : SearchTracksInput.t) : SearchTracks.t :=
  {| SearchTracks.total := fromZ 1;
     SearchTracks.limit := fromZ (SearchTracksInput.limit input);
     SearchTracks.offset := fromZ (SearchTracksInput.offset input);
     SearchTracks.tracks :=
       [ {| Track.id := "t1";
            Track.name := "Song";
            Track.artists := ["Artist"];
            Track.album := Some "Album";
            Track.durationMs := fromZ 1000;
            Track.popularity := fromZ 50;
            Track.uri := "spotify:track:t1";
            Track.externalUrl := Some "https://x" |} ] |}.

End Vocabulary.

(** * Vocabulary of the further properties *)

Section FurtherVocabulary.
Context {H : Host}.

(** Every character of a string passes a test. *)
Fixpoint allChars (p : ascii -> bool) (s : string) : bool :=
  match s with
  | EmptyString => true
  | String c rest => p c && allChars p rest
  end.

(** The characters [encodeURIComponent] leaves as they are. *)
Definition unreserved (c : ascii) : bool := isAlphaNum c || isIn c "-_.!~*'()".

(** The characters an encoded URI component is made of. *)
Definition uriSafe (c : ascii) : bool := unreserved c || Ascii.eqb c "%".

(** The characters a form-encoded name or value is made of. *)
Definition formSafe (c : ascii) : bool := isAlphaNum c || isIn c "*-._+%".

(** The configuration that a runtime configuration is, every field given. *)
Definition asConfig (runtime : Runtime.t) : Config.t :=
  {| Config.accessToken := Runtime.accessToken runtime;
     Config.tokenEnvVar := Some (Runtime.tokenEnvVar runtime);
     Config.apiBaseUrl := Some (Runtime.apiBaseUrl runtime);
     Config.defaultUserId := Runtime.defaultUserId runtime |}.

(** The request of a reading handler. *)
Definition getRequest (runtime : Runtime.t) (token path : string) : Request :=
  requestOf runtime token GET path None.

(** The output of a search that found nothing, for a request. *)
Definition emptySearch (input : SearchTracksInput.t) : SearchTracks.t :=
  {| SearchTracks.total := fromZ 0;
     SearchTracks.limit := fromZ (SearchTracksInput.limit input);
     SearchTracks.offset := fromZ (SearchTracksInput.offset input);
     SearchTracks.tracks := [] |}.

Definition emptyPlaylists (input : ListMyPlaylistsInput.t) : ListMyPlaylists.t :=
  {| ListMyPlaylists.total := fromZ 0;
     ListMyPlaylists.limit := fromZ (ListMyPlaylistsInput.limit input);
     ListMyPlaylists.offset := fromZ (ListMyPlaylistsInput.offset input);
     ListMyPlaylists.playlists := [] |}.

Definition emptyProfile : GetMe.t :=
  {| GetMe.id := "";
     GetMe.displayName := None;
     GetMe.email := None;
     GetMe.country := None;
     GetMe.product := None;
     GetMe.followers := fromZ 0;
     GetMe.uri := None |}.

(** A raw value that is an object. *)
Definition isObject (v : option value) : Prop :=
  match v with
  | Some (JObj _) => True
  | _ => False
  end.

(** The keys the create-playlist schema reads. *)
Definition createPlaylistKeys : list string :=
  ["userId"; "name"; "description"; "public"; "collaborative"; "confirm"].

(** A string that does not start with white space. *)
Definition startsClean (s : string) : Prop :=
  match s with
  | EmptyString => True
  | String c _ => isWhiteSpace c = false
  end.

(** A string that does not end with white space. *)
Fixpoint endsClean (s : string) : Prop :=
  match s with
  | EmptyString => True
  | String c EmptyString => isWhiteSpace c = false
  | String _ rest => endsClean rest
  end.

(** [t] is [s] without the white space around it. *)
Definition core (s t : string) : Prop :=
  exists before after,
    s = before ++ t ++ after
    /\ blank before = true /\ blank after = true
    /\ startsClean t /\ endsClean t.

(** What a paging number of an accepted input is: the default when the raw
    object has none, the raw number otherwise. *)
Definition pagingField (raw : option value) (default z : Z) : Prop :=
  (raw = None /\ z = default) \/ raw = Some (JNum (fromZ z)).

End FurtherVocabulary.

(** * Properties *)

(** ** Strings *)

Lemma trimStart_blank (s : string) : blank s = true -> trimStart s = "".
Proof.
  induction s as [|c rest IH]; simpl; intros E.
  - reflexivity.
  - apply andb_true_iff in E. destruct E as [Ec Er].
    rewrite Ec. apply IH. exact Er.
Qed.

Lemma blank_trimStart (s : string) : blank (trimStart s) = true -> blank s = true.
Proof.
  induction s as [|c rest IH]; simpl; intros E.
  - reflexivity.
  - destruct (isWhiteSpace c) eqn:Ec.
    + simpl. apply IH. exact E.
    + simpl in E. rewrite Ec in E. discriminate E.
Qed.

Lemma trimEnd_empty (s : string) : trimEnd s = "" -> blank s = true.
Proof.
  induction s as [|c rest IH]; simpl; intros E.
  - reflexivity.
  - destruct (trimEnd rest) eqn:Er.
    + destruct (isWhiteSpace c).
      * simpl. apply IH. reflexivity.
      * discriminate E.
    + discriminate E.
Qed.

Lemma trim_blank (s : string) : trim s = "" <-> blank s = true.
Proof.
  unfold trim. split; intros E.
  - apply blank_trimStart. apply trimEnd_empty. exact E.
  - rewrite (trimStart_blank s E). reflexivity.
Qed.

Lemma isEmpty_true (s : string) : isEmpty s = true <-> s = "".
Proof.
  destruct s; simpl; split; intros E; try reflexivity; discriminate E.
Qed.

Lemma isEmpty_false (s : string) : isEmpty s = false <-> s <> "".
Proof.
  destruct s; simpl; split; intros E; try discriminate; try reflexivity.
  exfalso. apply E. reflexivity.
Qed.

(** ** Credential resolution *)

Section Credential.
Context {H : Host}.

Lemma resolveAccessToken_eq (runtime : Runtime.t) (w : World) (log : list event) :
  resolveAccessToken runtime w log
  = (if inheritedRead runtime w then Throw TypeError
     else match tokenOf runtime w with
          | Some t => if isEmpty t
                      then Throw (Error (missingTokenMessage (Runtime.tokenEnvVar runtime)))
                      else Return t
          | None => Throw (Error (missingTokenMessage (Runtime.tokenEnvVar runtime)))
          end,
     (log ++ [EnvRead (Runtime.tokenEnvVar runtime)])%list).
Proof.
  unfold resolveAccessToken, inheritedRead, tokenOf, explicitOf, fallbackOf, bind, readEnv,
    lift.
  destruct (env w (Runtime.tokenEnvVar runtime)) as [e|]; cbn [trimRead option_map].
  - destruct (or_else _ None) as [t|]; [destruct (isEmpty t)|]; reflexivity.
  - destruct (inheritedName (Runtime.tokenEnvVar runtime)); cbn [trimRead]; [reflexivity|].
    destruct (or_else _ None) as [t|]; [destruct (isEmpty t)|]; reflexivity.
Qed.

Lemma resolveAccessToken_log (runtime : Runtime.t) (w : World) (log : list event) :
  snd (resolveAccessToken runtime w log)
  = (log ++ [EnvRead (Runtime.tokenEnvVar runtime)])%list.
Proof. rewrite resolveAccessToken_eq. reflexivity. Qed.

Lemma inheritedRead_set (runtime : Runtime.t) (w : World) (e : string) :
  fallbackOf runtime w = Some e -> inheritedRead runtime w = false.
Proof. intros E. unfold inheritedRead. rewrite E. reflexivity. Qed.

Lemma resolveAccessToken_explicit (runtime : Runtime.t) (w : World) (log : list event)
    (s : string) :
  inheritedRead runtime w = false ->
  explicitOf runtime = Some s -> trim s <> "" ->
  fst (resolveAccessToken runtime w log) = Return (trim s).
Proof.
  intros I E N. rewrite resolveAccessToken_eq, I. unfold tokenOf. rewrite E.
  apply isEmpty_false in N. cbn. repeat (rewrite N; cbn). reflexivity.
Qed.

Lemma resolveAccessToken_fallback (runtime : Runtime.t) (w : World) (log : list event)
    (e : string) :
  yieldsNothing (explicitOf runtime) -> fallbackOf runtime w = Some e -> trim e <> "" ->
  fst (resolveAccessToken runtime w log) = Return (trim e).
Proof.
  intros Y E N. rewrite resolveAccessToken_eq, (inheritedRead_set _ _ _ E).
  unfold tokenOf. rewrite E. apply isEmpty_false in N.
  destruct (explicitOf runtime) as [s|]; cbn in *.
  - rewrite Y. cbn. repeat (rewrite N; cbn). reflexivity.
  - repeat (rewrite N; cbn). reflexivity.
Qed.

Lemma resolveAccessToken_missing (runtime : Runtime.t) (w : World) (log : list event) :
  inheritedRead runtime w = false ->
  yieldsNothing (explicitOf runtime) -> yieldsNothing (fallbackOf runtime w) ->
  fst (resolveAccessToken runtime w log)
  = Throw (Error (missingTokenMessage (Runtime.tokenEnvVar runtime))).
Proof.
  intros I Y1 Y2. rewrite resolveAccessToken_eq, I. unfold tokenOf.
  destruct (explicitOf runtime) as [s|]; destruct (fallbackOf runtime w) as [e|];
    simpl in *;
    repeat match goal with E : trim _ = "" |- _ => rewrite E; clear E end; reflexivity.
Qed.

Lemma resolveAccessToken_inherited (runtime : Runtime.t) (w : World) (log : list event) :
  inheritedRead runtime w = true ->
  resolveAccessToken runtime w log
  = (Throw TypeError, (log ++ [EnvRead (Runtime.tokenEnvVar runtime)])%list).
Proof. intros I. rewrite resolveAccessToken_eq, I. reflexivity. Qed.

(** C2. The precedence of the credentials breaks on one kind of variable
    name: when no variable named by [tokenEnvVar] is set and the name is
    one that [process.env] inherits, such as [constructor], the read gives
    a function, its [trim] cannot be called, and the resolution throws a
    [TypeError], also when an explicit credential is given; the
    missing-token error is not what is thrown either. *)
Theorem resolveAccessToken_inherited_variable (runtime : Runtime.t) (w : World)
    (log : list event) :
  env w (Runtime.tokenEnvVar runtime) = None ->
  In (Runtime.tokenEnvVar runtime) objectPrototypeNames ->
  resolveAccessToken runtime w log
  = (Throw TypeError, (log ++ [EnvRead (Runtime.tokenEnvVar runtime)])%list).
Proof.
  intros E N. apply resolveAccessToken_inherited. unfold inheritedRead, fallbackOf.
  rewrite E. unfold inheritedName. apply existsb_exists.
  exists (Runtime.tokenEnvVar runtime). split; [exact N | apply String.eqb_refl].
Qed.

(** C10. An explicit credential of white space only (or empty) counts as
    absent: the resolution is the one of the same configuration without the
    explicit credential, so it reads the environment fallback, and it fails
    exactly when that fallback is unset or blank as well. *)
Theorem resolveAccessToken_blank_explicit (runtime : Runtime.t) (w : World)
    (log : list event) (s : string) :
  Runtime.accessToken runtime = Some s -> blank s = true ->
  resolveAccessToken runtime w log
  = resolveAccessToken
      {| Runtime.accessToken := None;
         Runtime.tokenEnvVar := Runtime.tokenEnvVar runtime;
         Runtime.apiBaseUrl := Runtime.apiBaseUrl runtime;
         Runtime.defaultUserId := Runtime.defaultUserId runtime |} w log
  /\ (forall e, fallbackOf runtime w = Some e -> blank e = false ->
        fst (resolveAccessToken runtime w log) = Return (trim e))
  /\ ((exists err, fst (resolveAccessToken runtime w log) = Throw err)
      <-> match fallbackOf runtime w with
          | None => True
          | Some e => blank e = true
          end).
Proof.
  intros E B. apply trim_blank in B.
  assert (Y : yieldsNothing (explicitOf runtime)).
  { unfold yieldsNothing, explicitOf. rewrite E. exact B. }
  split; [|split].
  - rewrite !resolveAccessToken_eq. unfold inheritedRead, tokenOf, explicitOf, fallbackOf.
    rewrite E. simpl. rewrite B. reflexivity.
  - intros e Ee Be. apply resolveAccessToken_fallback; try assumption.
    intros T. apply trim_blank in T. rewrite T in Be. discriminate Be.
  - split.
    + intros [err Herr]. destruct (fallbackOf runtime w) as [e|] eqn:Ee; [|exact I].
      destruct (blank e) eqn:Be; [reflexivity|].
      rewrite (resolveAccessToken_fallback runtime w log e Y Ee) in Herr.
      * discriminate Herr.
      * intros T. apply trim_blank in T. rewrite T in Be. discriminate Be.
    + intros F. destruct (inheritedRead runtime w) eqn:IR.
      * exists TypeError. rewrite (resolveAccessToken_inherited _ _ _ IR). reflexivity.
      * eexists. apply resolveAccessToken_missing; [exact IR | exact Y|].
        unfold yieldsNothing. destruct (fallbackOf runtime w) as [e|]; [|exact I].
        apply trim_blank. exact F.
Qed.

End Credential.

(** C2, on the configuration [{accessToken: A, tokenEnvVar: constructor}]
    when no variable of that name is set: a [TypeError], not the token. *)
Lemma resolveAccessToken_inherited_variable_witness :
  resolveAccessToken
    {| Runtime.accessToken := Some "A";
       Runtime.tokenEnvVar := "constructor";
       Runtime.apiBaseUrl := "https://api.spotify.com/v1";
       Runtime.defaultUserId := None |} (Sample.world (Some "B")) []
  = (Throw TypeError, [EnvRead "constructor"]).
Proof.
  apply (resolveAccessToken_inherited_variable
           {| Runtime.accessToken := Some "A";
              Runtime.tokenEnvVar := "constructor";
              Runtime.apiBaseUrl := "https://api.spotify.com/v1";
              Runtime.defaultUserId := None |} (Sample.world (Some "B")) [] eq_refl).
  simpl. tauto.
Defined.

Lemma resolveAccessToken_blank_explicit_witness :
  fst (resolveAccessToken (Sample.runtime (Some "  ") None) (Sample.world (Some " B ")) [])
  = Return "B".
Proof.
  apply (proj1 (proj2 (resolveAccessToken_blank_explicit
                         (Sample.runtime (Some "  ") None) (Sample.world (Some " B ")) []
                         "  " eq_refl eq_refl)) " B ").
  - reflexivity.
  - reflexivity.
Defined.

(** ** The request executor *)

Lemma slice0_length (n : nat) (s : string) :
  String.length (slice0 n s) = Nat.min n (String.length s).
Proof.
  unfold slice0. revert n. induction s as [|c rest IH]; intros [|n]; simpl; try reflexivity.
  rewrite IH. reflexivity.
Qed.

Lemma slice0_prefix (n : nat) (s : string) : exists rest, s = slice0 n s ++ rest.
Proof.
  unfold slice0. revert n. induction s as [|c tail IH]; intros [|n]; simpl.
  - exists "". reflexivity.
  - exists "". reflexivity.
  - exists (String c tail). reflexivity.
  - destruct (IH n) as [rest E]. exists rest. rewrite <- E. reflexivity.
Qed.

Lemma ok_2xx (r : Response) : ok r = true <-> 200 <= status r <= 299.
Proof.
  unfold ok. rewrite andb_true_iff, !Z.leb_le. reflexivity.
Qed.

Section Executor.
Context {H : Host}.

Lemma requestSpotify_log (runtime : Runtime.t) (token : string) (method : Method)
    (path : string) (body : option value) (w : World) (log : list event) :
  snd (requestSpotify runtime token method path body w log)
  = (log ++ [Fetched (requestOf runtime token method path body)])%list.
Proof.
  unfold requestSpotify, bind, fetch, requestOf.
  destruct (network w log _) as [response|]; [|reflexivity].
  destruct (negb (ok response)); [reflexivity|].
  destruct (JSON_parse (text response)); reflexivity.
Qed.

Lemma requestSpotify_answer (runtime : Runtime.t) (token : string) (method : Method)
    (path : string) (body : option value) (w : World) (log : list event)
    (response : Response) :
  network w log (requestOf runtime token method path body) = Some response ->
  fst (requestSpotify runtime token method path body w log)
  = if ok response
    then match JSON_parse (text response) with
         | Some payload => Return payload
         | None => Throw SyntaxError
         end
    else Throw (Error (requestFailedMessage response)).
Proof.
  unfold requestSpotify, bind, fetch, requestOf. intros E. rewrite E.
  destruct (ok response); simpl; [|reflexivity].
  destruct (JSON_parse (text response)); reflexivity.
Qed.

Lemma requestSpotify_ok (runtime : Runtime.t) (token : string) (method : Method)
    (path : string) (body : option value) (w : World) (log : list event)
    (response : Response) (payload : value) :
  network w log (requestOf runtime token method path body) = Some response ->
  ok response = true -> JSON_parse (text response) = Some payload ->
  requestSpotify runtime token method path body w log
  = (Return payload, (log ++ [Fetched (requestOf runtime token method path body)])%list).
Proof.
  intros E O P.
  rewrite (surjective_pairing (requestSpotify runtime token method path body w log)).
  rewrite requestSpotify_log, (requestSpotify_answer _ _ _ _ _ _ _ _ E), O, P.
  reflexivity.
Qed.

(** C8. [requestSpotify] sends exactly one request: to the URL that is
    [apiBaseUrl] followed by the path, with [authorization: Bearer <token>]
    and [accept: application/json], and with the JSON content type exactly
    when there is a body (which is then sent serialized).  An answer whose
    status is outside 200..299 makes it throw the error that carries the
    status and the first 400 characters of the body text; an answer in
    200..299 makes it return the body parsed as JSON. *)
Theorem requestSpotify_contract (runtime : Runtime.t) (token : string) (method : Method)
    (path : string) (data : option value) (w : World) (log : list event) :
  let request := requestOf runtime token method path data in
  snd (requestSpotify runtime token method path data w log)
  = (log ++ [Fetched request])%list
  /\ url request = Runtime.apiBaseUrl runtime ++ path
  /\ In ("authorization", "Bearer " ++ token) (headers request)
  /\ In ("accept", "application/json") (headers request)
  /\ (hasHeader "content-type" request <-> data <> None)
  /\ (forall b, data = Some b ->
        In ("content-type", "application/json") (headers request)
        /\ body request = Some (JSON_stringify b))
  /\ (forall response, network w log request = Some response ->
        ~ (200 <= status response <= 299) ->
        fst (requestSpotify runtime token method path data w log)
        = Throw (Error ("Spotify API request failed (" ++ decimal (status response) ++ "): "
                        ++ slice0 400 (text response)))
        /\ (String.length (slice0 400 (text response)) <= 400)%nat
        /\ exists rest, text response = slice0 400 (text response) ++ rest)
  /\ (forall response, network w log request = Some response ->
        200 <= status response <= 299 ->
        fst (requestSpotify runtime token method path data w log)
        = match JSON_parse (text response) with
          | Some payload => Return payload
          | None => Throw SyntaxError
          end).
Proof.
  intros request. subst request.
  split; [apply requestSpotify_log|].
  split; [reflexivity|].
  split; [left; reflexivity|].
  split; [right; left; reflexivity|].
  split.
  { unfold hasHeader. destruct data as [b|]; simpl; split.
    - intros _. discriminate.
    - intros _. exists "application/json". right. right. left. reflexivity.
    - intros [v [E|[E|[]]]]; discriminate E.
    - intros N. exfalso. apply N. reflexivity. }
  split.
  { intros b E. subst data. simpl. split; [right; right; left|]; reflexivity. }
  split.
  - intros response E N.
    rewrite (requestSpotify_answer _ _ _ _ _ _ _ _ E).
    destruct (ok response) eqn:O.
    + exfalso. apply N. apply ok_2xx. exact O.
    + split; [reflexivity|]. split.
      * rewrite slice0_length. apply Nat.le_min_l.
      * apply slice0_prefix.
  - intros response E O. apply ok_2xx in O.
    rewrite (requestSpotify_answer _ _ _ _ _ _ _ _ E), O. reflexivity.
Qed.

End Executor.

(** ** Configuration resolution *)

Section Configuration.
Context {H : Host}.

Lemma spotifyToolsConfigSchema_malformed (config : Config.t) (s : string) :
  Config.apiBaseUrl config = Some s -> isURL s = false ->
  spotifyToolsConfigSchema config = Throw (ZodError [apiBaseUrlIssue]).
Proof.
  intros E U. unfold spotifyToolsConfigSchema. rewrite E. simpl. rewrite U. reflexivity.
Qed.

Lemma not_a_url : isURL "not-a-url" = false.
Proof.
  destruct (isURL "not-a-url") eqn:E; [|reflexivity].
  apply isURL_colon in E. discriminate E.
Qed.

(** C9. A configuration whose [apiBaseUrl] fails the URL test makes each of
    the four operations, on every input, throw the validation error of the
    configuration schema with the log unchanged: no environment variable is
    read and no request is sent.  [not-a-url] fails the test.  When
    [apiBaseUrl] and [tokenEnvVar] are omitted the runtime configuration
    holds [https://api.spotify.com/v1] and [SPOTIFY_ACCESS_TOKEN]. *)
Theorem malformed_apiBaseUrl_fails_first :
  (forall (config : Config.t) (s : string) (w : World) (log : list event),
     Config.apiBaseUrl config = Some s -> isURL s = false ->
     executeSpotifyGetMe tt config w log = (Throw (ZodError [apiBaseUrlIssue]), log)
     /\ (forall input,
           executeSpotifySearchTracks input config w log
           = (Throw (ZodError [apiBaseUrlIssue]), log))
     /\ (forall input,
           executeSpotifyListMyPlaylists input config w log
           = (Throw (ZodError [apiBaseUrlIssue]), log))
     /\ (forall input,
           executeSpotifyCreatePlaylist input config w log
           = (Throw (ZodError [apiBaseUrlIssue]), log)))
  /\ isURL "not-a-url" = false
  /\ (forall config : Config.t,
        Config.apiBaseUrl config = None -> Config.tokenEnvVar config = None ->
        spotifyToolsConfigSchema config
        = Return {| Runtime.accessToken := Config.accessToken config;
                    Runtime.tokenEnvVar := "SPOTIFY_ACCESS_TOKEN";
                    Runtime.apiBaseUrl := "https://api.spotify.com/v1";
                    Runtime.defaultUserId := Config.defaultUserId config |}).
Proof.
  split; [|split].
  - intros config s w log E U.
    pose proof (spotifyToolsConfigSchema_malformed config s E U) as F.
    unfold executeSpotifyGetMe, executeSpotifySearchTracks, executeSpotifyListMyPlaylists,
      executeSpotifyCreatePlaylist, bind, lift.
    rewrite F. repeat split.
  - exact not_a_url.
  - intros config E1 E2. unfold spotifyToolsConfigSchema. rewrite E1, E2. simpl.
    rewrite isURL_default. reflexivity.
Qed.

End Configuration.

Lemma malformed_apiBaseUrl_fails_first_witness :
  let config :=
    {| Config.accessToken := Some "A"; Config.tokenEnvVar := None;
       Config.apiBaseUrl := Some "not-a-url"; Config.defaultUserId := None |} in
  executeSpotifyGetMe (H := Sample.host) tt config (Sample.world None) []
  = (Throw (ZodError [apiBaseUrlIssue]), [])
  /\ spotifyToolsConfigSchema (H := Sample.host) Config.empty
     = Return (Sample.runtime None None).
Proof.
  split.
  - apply (proj1 (proj1 (malformed_apiBaseUrl_fails_first (H := Sample.host))
                    {| Config.accessToken := Some "A"; Config.tokenEnvVar := None;
                       Config.apiBaseUrl := Some "not-a-url"; Config.defaultUserId := None |}
                    "not-a-url" (Sample.world None) [] eq_refl eq_refl)).
  - apply (proj2 (proj2 (malformed_apiBaseUrl_fails_first (H := Sample.host))) Config.empty).
    + reflexivity.
    + reflexivity.
Defined.

(** ** The create-playlist input schema *)

Section CreatePlaylistSchema.
Context {H : Host}.

Lemma z_literal_true_aborts (v : option value) :
  v <> Some (JBool true) -> z_literal_true v = (None, [invalid_literal]).
Proof.
  intros N. destruct v as [[| [|] | | | |]|]; try reflexivity.
  exfalso. apply N. reflexivity.
Qed.

(** Without [confirm: true] the schema throws, and the issue on [confirm]
    is among those it reports for an object. *)
Lemma schema_without_confirm (raw : value) :
  optField (Some raw) "confirm" <> Some (JBool true) ->
  exists issues,
    spotifyCreatePlaylistInputSchema raw = Throw (ZodError issues)
    /\ (forall fields, raw = JObj fields -> hasPath ["confirm"] issues).
Proof.
  intros N. destruct raw as [| b | n | s | items | fields];
    try (eexists; split; [reflexivity | intros fields E; discriminate E]).
  simpl in N. unfold spotifyCreatePlaylistInputSchema.
  rewrite (z_literal_true_aborts _ N). simpl.
  eexists. split.
  - destruct (fst (z_optional _ _)); [|reflexivity].
    destruct (fst (z_string _ _ _)); [|reflexivity].
    destruct (fst (z_optional _ _)); [|reflexivity].
    destruct (fst (z_default _ _ _)); [|reflexivity].
    destruct (fst (z_default _ _ _)); reflexivity.
  - intros fields' _. exists {| code_of := invalid_literal; path := ["confirm"] |}.
    split; [|reflexivity].
    repeat (apply in_or_app; right). left. reflexivity.
Qed.

(** C1. The create-playlist schema accepts an input only when its [confirm]
    is the literal [true].  When [confirm] is omitted or [false] the schema
    throws a validation error, and a call of a tool that carries this
    schema throws that error with the log unchanged: nothing is executed. *)
Theorem confirm_required (raw : value) :
  (forall input, spotifyCreatePlaylistInputSchema raw = Return input ->
     optField (Some raw) "confirm" = Some (JBool true))
  /\ (optField (Some raw) "confirm" = None \/ optField (Some raw) "confirm" = Some (JBool false) ->
      exists issues,
        spotifyCreatePlaylistInputSchema raw = Throw (ZodError issues)
        /\ forall (O : Type) (tool : Tool CreatePlaylistInput.t O) (w : World) (log : list event),
             inputSchema tool = spotifyCreatePlaylistInputSchema ->
             callTool tool raw w log = (Throw (ZodError issues), log)).
Proof.
  split.
  - intros input E.
    destruct (optField (Some raw) "confirm") as [[| [|] | | | |]|] eqn:C;
      try reflexivity;
      (destruct (schema_without_confirm raw) as [issues [F _]];
       [rewrite C; discriminate | rewrite F in E; discriminate E]).
  - intros C.
    destruct (schema_without_confirm raw) as [issues [F _]].
    { destruct C as [C|C]; rewrite C; discriminate. }
    exists issues. split; [exact F|].
    intros O tool w log S. unfold callTool, bind, lift. rewrite S, F. reflexivity.
Qed.

(** C4, as amended. An input whose [public] and [collaborative] are both
    [true] is rejected; when no key aborts ([name] is a string, [userId]
    and [description] are strings or absent, [confirm] is [true]) the
    rejection carries the issue attached to [collaborative]. *)
Theorem public_collaborative_rejected (raw : value) :
  optField (Some raw) "public" = Some (JBool true) ->
  optField (Some raw) "collaborative" = Some (JBool true) ->
  exists issues,
    spotifyCreatePlaylistInputSchema raw = Throw (ZodError issues)
    /\ (stringOrAbsent (optField (Some raw) "userId") ->
        isString (optField (Some raw) "name") ->
        stringOrAbsent (optField (Some raw) "description") ->
        optField (Some raw) "confirm" = Some (JBool true) ->
        In collaborativeIssue issues /\ path collaborativeIssue = ["collaborative"]).
Proof.
  intros P C. destruct raw as [| b | n | s | items | fields]; try discriminate P.
  simpl in P, C. unfold spotifyCreatePlaylistInputSchema. rewrite P, C. simpl.
  destruct (z_optional (z_string (Some 1%nat) None) (lookup "userId" fields))
    as [[u|] iu] eqn:Eu;
  destruct (z_string (Some 1%nat) (Some 100%nat) (lookup "name" fields))
    as [[n|] inm] eqn:En;
  destruct (z_optional (z_string None (Some 300%nat)) (lookup "description" fields))
    as [[d|] idn] eqn:Ed;
  destruct (z_literal_true (lookup "confirm" fields)) as [[c|] ic] eqn:Ec; simpl.
  1: { match goal with
       | |- context [match ?l with [] => _ | _ :: _ => _ end] =>
           exists l; destruct l as [|i rest] eqn:L
       end.
       - exfalso. apply app_eq_nil in L. destruct L as [_ L]. discriminate L.
       - split; [reflexivity|]. intros _ _ _ _. split; [|reflexivity].
         rewrite <- L. apply in_or_app. right. left. reflexivity. }
  all: eexists; split; [reflexivity|]; simpl; intros Su Sn Sd Sc.
  all: exfalso.
  all: try (rewrite Sc in Ec; discriminate Ec).
  all: try (destruct (lookup "description" fields) as [[]|]; simpl in Sd, Ed;
            try contradiction; discriminate Ed).
  all: try (destruct (lookup "name" fields) as [[]|]; simpl in Sn, En;
            try contradiction; discriminate En).
  all: try (destruct (lookup "userId" fields) as [[]|]; simpl in Su, Eu;
            try contradiction; discriminate Eu).
Qed.

End CreatePlaylistSchema.

Lemma confirm_required_witness :
  let raw : json Sample.num := JObj [("name", JStr "x")] in
  exists issues,
    spotifyCreatePlaylistInputSchema (H := Sample.host) raw = Throw (ZodError issues)
    /\ callTool (H := Sample.host) (spotify_create_playlist Config.empty) raw
         (Sample.world (Some "B")) []
       = (Throw (ZodError issues), []).
Proof.
  intros raw.
  destruct (proj2 (confirm_required (H := Sample.host) raw) (or_introl eq_refl))
    as [issues [F T]].
  exists issues. split.
  - exact F.
  - apply T. reflexivity.
Defined.

(** C4, as stated, fails on an input without [confirm]: [public] and
    [collaborative] are both [true] and the input is rejected, but the only
    issue is on [confirm]; none is attached to [collaborative]. *)
Lemma public_collaborative_counterexample :
  let raw : json Sample.num :=
    JObj [("name", JStr "x"); ("public", JBool true); ("collaborative", JBool true)] in
  optField (H := Sample.host) (Some raw) "public" = Some (JBool true)
  /\ optField (H := Sample.host) (Some raw) "collaborative" = Some (JBool true)
  /\ exists issues,
       spotifyCreatePlaylistInputSchema (H := Sample.host) raw = Throw (ZodError issues)
       /\ ~ hasPath ["collaborative"] issues.
Proof.
  intros raw. split; [reflexivity|]. split; [reflexivity|].
  exists [ {| code_of := invalid_literal; path := ["confirm"] |} ].
  split; [reflexivity|].
  intros [i [[E|[]] P]]. subst i. discriminate P.
Qed.

Lemma public_collaborative_rejected_witness :
  let raw : json Sample.num :=
    JObj [("name", JStr "x"); ("public", JBool true); ("collaborative", JBool true);
          ("confirm", JBool true)] in
  exists issues,
    spotifyCreatePlaylistInputSchema (H := Sample.host) raw = Throw (ZodError issues)
    /\ In collaborativeIssue issues.
Proof.
  intros raw.
  destruct (public_collaborative_rejected (H := Sample.host) raw eq_refl eq_refl)
    as [issues [F P]].
  exists issues. split.
  - exact F.
  - apply P.
    + exact I.
    + exact I.
    + exact I.
    + reflexivity.
Defined.

(** ** Sequencing *)

Lemma bind_Return {A B : Type} (c : M A) (k : A -> M B) (w : World) (log log' : list event)
    (a : A) :
  c w log = (Return a, log') -> bind c k w log = k a w log'.
Proof. intros E. unfold bind. rewrite E. reflexivity. Qed.

Lemma bind_Throw {A B : Type} (c : M A) (k : A -> M B) (w : World) (log log' : list event)
    (e : error) :
  c w log = (Throw e, log') -> bind c k w log = (Throw e, log').
Proof. intros E. unfold bind. rewrite E. reflexivity. Qed.

Lemma bind_lift_log {A B : Type} (c : M A) (f : A -> outcome B) (w : World)
    (log : list event) :
  snd (bind c (fun a => lift (f a)) w log) = snd (c w log).
Proof. unfold bind, lift. destruct (c w log) as [[a|e] log']; reflexivity. Qed.

Lemma pair_eq {A B : Type} (p : A * B) (a : A) (b : B) :
  fst p = a -> snd p = b -> p = (a, b).
Proof. destruct p. simpl. intros -> ->. reflexivity. Qed.

(** ** The target account of a new playlist *)

Section CreatePlaylist.
Context {H : Host}.

Lemma createPlaylistBody_fields (input : CreatePlaylistInput.t) :
  optField (Some (createPlaylistBody input)) "name"
  = Some (JStr (CreatePlaylistInput.name input))
  /\ optField (Some (createPlaylistBody input)) "description"
     = option_map JStr (CreatePlaylistInput.description input)
  /\ optField (Some (createPlaylistBody input)) "public"
     = Some (JBool (CreatePlaylistInput.public input))
  /\ optField (Some (createPlaylistBody input)) "collaborative"
     = Some (JBool (CreatePlaylistInput.collaborative input)).
Proof.
  unfold createPlaylistBody.
  destruct (CreatePlaylistInput.description input); repeat split.
Qed.

Lemma resolveUserId_default (runtime : Runtime.t) (token d : string) (w : World)
    (log : list event) :
  Runtime.defaultUserId runtime = Some d -> d <> "" ->
  resolveUserId runtime token w log = (Return d, log).
Proof.
  intros E N. unfold resolveUserId. rewrite E. simpl.
  apply isEmpty_false in N. rewrite N. reflexivity.
Qed.

Lemma resolveUserId_me (runtime : Runtime.t) (token : string) (w : World)
    (log : list event) (response : Response) (me : value) :
  Runtime.defaultUserId runtime = None \/ Runtime.defaultUserId runtime = Some "" ->
  network w log (meRequest runtime token) = Some response ->
  ok response = true -> JSON_parse (text response) = Some me ->
  resolveUserId runtime token w log
  = (match optField (Some me) "id" with
     | Some id => if truthy (Some id) then js_String id
                  else Throw (Error userIdMessage)
     | None => Throw (Error userIdMessage)
     end,
     (log ++ [Fetched (meRequest runtime token)])%list).
Proof.
  intros D E O P. unfold resolveUserId.
  assert (N : or_else (Runtime.defaultUserId runtime) None = None).
  { destruct D as [D|D]; rewrite D; reflexivity. }
  rewrite N.
  rewrite (bind_Return _ _ _ _ _ _ (requestSpotify_ok _ _ _ _ _ _ _ _ _ E O P)).
  destruct (optField (Some me) "id") as [id|]; [|reflexivity].
  destruct (truthy (Some id)); reflexivity.
Qed.

Lemma runSpotifyCreatePlaylist_log (input : CreatePlaylistInput.t) (runtime : Runtime.t)
    (w : World) (log log' : list event) (token account : string) :
  fst (resolveAccessToken runtime w log) = Return token ->
  match CreatePlaylistInput.userId input with
  | Some userId => ret userId
  | None => resolveUserId runtime token
  end w (log ++ [EnvRead (Runtime.tokenEnvVar runtime)])%list = (Return account, log') ->
  snd (runSpotifyCreatePlaylist input runtime w log)
  = (log' ++ [Fetched (createRequest runtime token input account)])%list.
Proof.
  intros T A. unfold runSpotifyCreatePlaylist.
  rewrite (bind_Return _ _ _ _ _ _
             (pair_eq _ _ _ T (resolveAccessToken_log runtime w log))).
  rewrite (bind_Return _ _ _ _ _ _ A).
  rewrite bind_lift_log. apply requestSpotify_log.
Qed.

(** C3, as amended. Once the credential is resolved, a create-playlist call
    posts to [/users/{account}/playlists] (the account percent-encoded) with
    the body [{name, description, public, collaborative}] and no other key
    ([description] only when the input has one), where the account is
    [userId] when the input gives it; otherwise the non-empty
    [defaultUserId] of the configuration, with no request to [/me];
    otherwise the [id] that [GET /me] returns, converted to a string.  When
    that [id] is absent or falsy the call throws the user-resolution error,
    when its conversion throws the call throws that error, and in both
    cases it posts nothing.  An [id] of [u1] gives the path
    [/users/u1/playlists]. *)
Theorem createPlaylist_target (input : CreatePlaylistInput.t) (runtime : Runtime.t)
    (w : World) (log : list event) (token : string) :
  fst (resolveAccessToken runtime w log) = Return token ->
  let log1 := (log ++ [EnvRead (Runtime.tokenEnvVar runtime)])%list in
  let sent := snd (runSpotifyCreatePlaylist input runtime w log) in
  (forall u, CreatePlaylistInput.userId input = Some u ->
     sent = (log1 ++ [Fetched (createRequest runtime token input u)])%list)
  /\ (forall d, CreatePlaylistInput.userId input = None ->
        Runtime.defaultUserId runtime = Some d -> d <> "" ->
        sent = (log1 ++ [Fetched (createRequest runtime token input d)])%list)
  /\ (forall response me,
        CreatePlaylistInput.userId input = None ->
        Runtime.defaultUserId runtime = None \/ Runtime.defaultUserId runtime = Some "" ->
        network w log1 (meRequest runtime token) = Some response ->
        ok response = true -> JSON_parse (text response) = Some me ->
        (forall id account,
           optField (Some me) "id" = Some id -> truthy (Some id) = true ->
           js_String id = Return account ->
           sent = (log1 ++ [Fetched (meRequest runtime token);
                            Fetched (createRequest runtime token input account)])%list)
        /\ (forall id e,
              optField (Some me) "id" = Some id -> truthy (Some id) = true ->
              js_String id = Throw e ->
              runSpotifyCreatePlaylist input runtime w log
              = (Throw e, (log1 ++ [Fetched (meRequest runtime token)])%list))
        /\ (truthy (optField (Some me) "id") = false ->
            runSpotifyCreatePlaylist input runtime w log
            = (Throw (Error userIdMessage),
               (log1 ++ [Fetched (meRequest runtime token)])%list)))
  /\ (forall account,
        url (createRequest runtime token input account)
        = Runtime.apiBaseUrl runtime ++ "/users/" ++ encodeURIComponent account ++ "/playlists"
        /\ method (createRequest runtime token input account) = POST
        /\ body (createRequest runtime token input account)
           = Some (JSON_stringify (createPlaylistBody input)))
  /\ createPlaylistBody input
     = match CreatePlaylistInput.description input with
       | Some description =>
           JObj [("name", JStr (CreatePlaylistInput.name input));
                 ("description", JStr description);
                 ("public", JBool (CreatePlaylistInput.public input));
                 ("collaborative", JBool (CreatePlaylistInput.collaborative input))]
       | None =>
           JObj [("name", JStr (CreatePlaylistInput.name input));
                 ("public", JBool (CreatePlaylistInput.public input));
                 ("collaborative", JBool (CreatePlaylistInput.collaborative input))]
       end
  /\ js_String (JStr "u1") = Return "u1"
  /\ createPlaylistPath "u1" = "/users/u1/playlists".
Proof.
  intros T log1 sent. subst sent.
  split; [|split; [|split; [|split; [|split; [|split]]]]].
  - intros u U. apply runSpotifyCreatePlaylist_log; [exact T|]. rewrite U. reflexivity.
  - intros d U D N. apply runSpotifyCreatePlaylist_log; [exact T|]. rewrite U.
    apply resolveUserId_default; assumption.
  - intros response me U D E O P.
    pose proof (resolveUserId_me runtime token w log1 response me D E O P) as R.
    assert (Stop : forall e,
               resolveUserId runtime token w log1
               = (Throw e, (log1 ++ [Fetched (meRequest runtime token)])%list) ->
               runSpotifyCreatePlaylist input runtime w log
               = (Throw e, (log1 ++ [Fetched (meRequest runtime token)])%list)).
    { intros e R'. unfold runSpotifyCreatePlaylist.
      rewrite (bind_Return _ _ _ _ _ _
                 (pair_eq _ _ _ T (resolveAccessToken_log runtime w log))).
      rewrite U. fold log1. rewrite (bind_Throw _ _ _ _ _ _ R'). reflexivity. }
    split; [|split].
    + intros id account I Y S. rewrite I, Y, S in R.
      rewrite (runSpotifyCreatePlaylist_log input runtime w log
                 (log1 ++ [Fetched (meRequest runtime token)])%list token account T).
      * rewrite <- app_assoc. reflexivity.
      * rewrite U. exact R.
    + intros id e I Y S. rewrite I, Y, S in R. apply Stop. exact R.
    + intros F. apply Stop. rewrite R.
      destruct (optField (Some me) "id") as [id|]; [|reflexivity].
      rewrite F. reflexivity.
  - intros account. repeat split.
  - unfold createPlaylistBody.
    destruct (CreatePlaylistInput.description input); reflexivity.
  - reflexivity.
  - reflexivity.
Qed.

End CreatePlaylist.

(** C3, as stated, fails when the configuration has a default user: the
    input gives no [userId] and [/me] would answer [{id: u1}], yet the only
    request is the POST to [/users/d1/playlists]. *)
Lemma createPlaylist_target_counterexample :
  let runtime := Sample.runtime (Some "A") (Some "d1") in
  let input :=
    {| CreatePlaylistInput.userId := None;
       CreatePlaylistInput.name := "x";
       CreatePlaylistInput.description := None;
       CreatePlaylistInput.public := false;
       CreatePlaylistInput.collaborative := false |} in
  let w := Sample.world None in
  CreatePlaylistInput.userId input = None
  /\ fst (requestSpotify (H := Sample.host) runtime "A" GET "/me" None w
            [EnvRead "SPOTIFY_ACCESS_TOKEN"])
     = Return (JObj [("id", JStr "u1")])
  /\ map (fun r => (method r, url r))
         (requests (snd (runSpotifyCreatePlaylist (H := Sample.host) input runtime w [])))
     = [(POST, "https://api.spotify.com/v1/users/d1/playlists")]
  /\ "https://api.spotify.com/v1/users/d1/playlists"
     <> "https://api.spotify.com/v1/users/u1/playlists".
Proof.
  intros runtime input w. repeat split; try reflexivity. discriminate.
Qed.

Lemma createPlaylist_target_witness :
  let runtime := Sample.runtime (Some "A") None in
  let input :=
    {| CreatePlaylistInput.userId := None;
       CreatePlaylistInput.name := "x";
       CreatePlaylistInput.description := None;
       CreatePlaylistInput.public := false;
       CreatePlaylistInput.collaborative := false |} in
  snd (runSpotifyCreatePlaylist (H := Sample.host) input runtime (Sample.world None) [])
  = [EnvRead "SPOTIFY_ACCESS_TOKEN";
     Fetched (meRequest (H := Sample.host) runtime "A");
     Fetched (createRequest (H := Sample.host) runtime "A" input "u1")].
Proof.
  intros runtime input.
  apply (proj1 (proj1 (proj2 (proj2
           (createPlaylist_target (H := Sample.host) input runtime (Sample.world None) [] "A"
              eq_refl)))
           {| status := 200; text := Sample.body_me |} (JObj [("id", JStr "u1")])
           eq_refl (or_introl eq_refl) eq_refl eq_refl eq_refl)
         (JStr "u1") "u1").
  - reflexivity.
  - reflexivity.
  - reflexivity.
Defined.

(** ** Response mapping *)

Section Mapping.
Context {H : Host}.

Lemma field_nonNull (v : value) (name : string) :
  v <> JNull -> field v name = Return (optField (Some v) name).
Proof.
  intros N. destruct v; try reflexivity. exfalso. apply N. reflexivity.
Qed.

Lemma mapM_total {A B : Type} (f : A -> outcome B) (l : list A) :
  Forall (fun x => exists y, f x = Return y) l ->
  exists ys, mapM f l = Return ys /\ List.length ys = List.length l.
Proof.
  induction 1 as [|x rest [y Hy] _ [ys [Hys Hlen]]]; simpl.
  - exists []. split; reflexivity.
  - exists (y :: ys). rewrite Hy. simpl. rewrite Hys. simpl. rewrite Hlen.
    split; reflexivity.
Qed.

(** A handler that reads with GET: once the credential is resolved and the
    API answers in 200..299 with a JSON body, the outcome is the mapping
    of that body. *)
Lemma handler_answer {A : Type} (f : value -> outcome A) (runtime : Runtime.t)
    (path : string) (w : World) (log : list event) (token : string)
    (response : Response) (payload : value) :
  fst (resolveAccessToken runtime w log) = Return token ->
  network w (log ++ [EnvRead (Runtime.tokenEnvVar runtime)])%list
    (requestOf runtime token GET path None) = Some response ->
  ok response = true -> JSON_parse (text response) = Some payload ->
  fst ((token <- resolveAccessToken runtime ;;
        payload <- requestSpotify runtime token GET path None ;;
        lift (f payload)) w log)
  = f payload.
Proof.
  intros T E O P.
  rewrite (bind_Return _ _ _ _ _ _
             (pair_eq _ _ _ T (resolveAccessToken_log runtime w log))).
  rewrite (bind_Return _ _ _ _ _ _ (requestSpotify_ok _ _ _ _ _ _ _ _ _ E O P)).
  reflexivity.
Qed.

Lemma runSpotifyGetMe_answer (runtime : Runtime.t) (w : World) (log : list event)
    (payload : value) :
  answers w log runtime "/me" payload ->
  fst (runSpotifyGetMe tt runtime w log) = getMeOutput payload.
Proof.
  intros [token [response [T [E [O P]]]]].
  apply (handler_answer getMeOutput runtime "/me" w log token response payload T E O P).
Qed.

Lemma runSpotifySearchTracks_answer (input : SearchTracksInput.t) (runtime : Runtime.t)
    (w : World) (log : list event) (payload : value) :
  answers w log runtime (searchPath input) payload ->
  fst (runSpotifySearchTracks input runtime w log) = searchTracksOutput input payload.
Proof.
  intros [token [response [T [E [O P]]]]].
  apply (handler_answer (searchTracksOutput input) runtime (searchPath input)
           w log token response payload T E O P).
Qed.

Lemma runSpotifyListMyPlaylists_answer (input : ListMyPlaylistsInput.t)
    (runtime : Runtime.t) (w : World) (log : list event) (payload : value) :
  answers w log runtime (playlistsPath input) payload ->
  fst (runSpotifyListMyPlaylists input runtime w log) = listMyPlaylistsOutput input payload.
Proof.
  intros [token [response [T [E [O P]]]]].
  apply (handler_answer (listMyPlaylistsOutput input) runtime (playlistsPath input)
           w log token response payload T E O P).
Qed.

End Mapping.

(** ** Defaults of the mapped outputs *)

Section Defaults.
Context {H : Host}.

Lemma mapM_returned {A B : Type} (f : A -> outcome B) (P : A -> B -> Prop) (l : list A) :
  (forall x y, f x = Return y -> P x y) ->
  forall ys, mapM f l = Return ys -> Forall2 P l ys.
Proof.
  intros Each. induction l as [|x rest IH]; simpl; intros ys R.
  - injection R as R. subst ys. constructor.
  - destruct (f x) as [y|e] eqn:E; simpl in R; [|discriminate R].
    destruct (mapM f rest) as [zs|e]; simpl in R; [|discriminate R].
    injection R as R. subst ys. constructor; [apply Each; exact E | apply IH; reflexivity].
Qed.

Lemma mapM_returns {A B : Type} (f : A -> outcome B) (l : list A) :
  Forall (fun x => exists y, f x = Return y) l -> exists ys, mapM f l = Return ys.
Proof.
  intros F. destruct (mapM_total f l F) as [ys [E _]]. exists ys. exact E.
Qed.

Lemma Forall2_nil_l {A B : Type} (P : A -> B -> Prop) (ys : list B) :
  Forall2 P [] ys -> ys = [].
Proof. intros F. inversion F. reflexivity. Qed.

Lemma js_String_scalar (v : value) : scalarValue v -> exists s, js_String v = Return s.
Proof.
  destruct v as [| [|] | n | s | items | fields]; simpl; intros S;
    try contradiction; eexists; reflexivity.
Qed.

Lemma stringOf_scalar (v : option value) : scalar v -> exists s, stringOf v = Return s.
Proof.
  intros S. unfold stringOf. apply js_String_scalar.
  destruct v as [[| | | | |]|]; simpl in *; try contradiction; exact I.
Qed.

Lemma numberOf_scalar (v : option value) (d : value) :
  scalar v -> scalarValue d -> exists n, numberOf v d = Return n.
Proof.
  intros S D. unfold numberOf.
  assert (V : scalarValue (orElse v d)).
  { destruct v as [[| | | | |]|]; simpl in *; try contradiction; try exact I; exact D. }
  destruct (orElse v d) as [| [|] | n | s | items | fields]; simpl in *;
    try contradiction; eexists; reflexivity.
Qed.

Lemma stringOrNull_scalar (v : option value) :
  scalar v -> exists r, stringOrNull v = Return r.
Proof.
  intros S. unfold stringOrNull. destruct v as [x|]; [|eexists; reflexivity].
  destruct (truthy (Some x)); [|eexists; reflexivity].
  destruct (js_String_scalar x S) as [s E]. rewrite E. eexists. reflexivity.
Qed.

Lemma trackArtists_plain (artists : option value) :
  plainArtists artists -> exists names, trackArtists artists = Return names.
Proof.
  unfold plainArtists, trackArtists.
  destruct artists as [[| | | | l |]|]; intros P; try (eexists; reflexivity).
  destruct (mapM_returns artistName l) as [names E].
  - eapply Forall_impl; [|exact P]. intros artist S. apply stringOrNull_scalar. exact S.
  - rewrite E. eexists. reflexivity.
Qed.

(** Reading the result of a mapping that returned, one step after the
    other. *)
Ltac returned N R :=
  repeat first
    [ rewrite (field_nonNull _ _ N) in R; cbn [obind] in R
    | match type of R with
      | obind ?c _ = Return _ =>
          let E := fresh "E" in destruct c eqn:E; cbn [obind] in R; [|discriminate R]
      end ].

(** Showing that a mapping returns, one step after the other. *)
Ltac returns N :=
  repeat first
    [ rewrite (field_nonNull _ _ N); cbn [obind]
    | match goal with
      | |- context [obind (stringOf ?v) _] =>
          let x := fresh in let E := fresh in
          destruct (stringOf_scalar v) as [x E]; [assumption|]; rewrite E; cbn [obind]
      | |- context [obind (stringOrNull ?v) _] =>
          let x := fresh in let E := fresh in
          destruct (stringOrNull_scalar v) as [x E]; [assumption|]; rewrite E; cbn [obind]
      | |- context [obind (numberOf ?v ?d) _] =>
          let x := fresh in let E := fresh in
          destruct (numberOf_scalar v d) as [x E]; [assumption | exact I |];
          rewrite E; cbn [obind]
      | |- context [obind (trackArtists ?v) _] =>
          let x := fresh in let E := fresh in
          destruct (trackArtists_plain v) as [x E]; [assumption|]; rewrite E; cbn [obind]
      end ].

(** What is left to show of a default once the mapping is read. *)
Ltac defaulted :=
  repeat split; intros A; cbn in *; rewrite ?A in *; cbn in *; congruence.

Lemma returned_nonNull {A : Type} (f : value -> outcome A) (payload : value) (out : A) :
  f JNull = Throw TypeError -> f payload = Return out -> nonNull payload.
Proof. intros F R E. subst payload. rewrite F in R. discriminate R. Qed.

Lemma getMeOutput_returned (payload : value) (out : GetMe.t) :
  getMeOutput payload = Return out -> getMeDefaults payload out.
Proof.
  intros R. pose proof (returned_nonNull getMeOutput _ _ eq_refl R) as N.
  unfold getMeOutput in R. returned N R. injection R as R. subst out.
  unfold getMeDefaults. defaulted.
Qed.

Lemma getMeOutput_returns (payload : value) :
  plainProfile payload -> exists out, getMeOutput payload = Return out.
Proof.
  intros [N [S1 [S2 [S3 [S4 [S5 [S6 S7]]]]]]]. unfold getMeOutput. returns N.
  eexists. reflexivity.
Qed.

Lemma trackOutput_returned (track : value) (out : Track.t) :
  trackOutput track = Return out -> trackDefaults track out.
Proof.
  intros R. pose proof (returned_nonNull trackOutput _ _ eq_refl R) as N.
  unfold trackOutput in R. returned N R. injection R as R. subst out.
  unfold trackDefaults. defaulted.
Qed.

Lemma trackOutput_returns (track : value) :
  plainTrack track -> exists out, trackOutput track = Return out.
Proof.
  intros [N [S1 [S2 [S3 [S4 [S5 [S6 [S7 S8]]]]]]]]. unfold trackOutput. returns N.
  eexists. reflexivity.
Qed.

Lemma playlistOutput_returned (playlist : value) (out : Playlist.t) :
  playlistOutput playlist = Return out -> playlistDefaults playlist out.
Proof.
  intros R. pose proof (returned_nonNull playlistOutput _ _ eq_refl R) as N.
  unfold playlistOutput in R. returned N R. injection R as R. subst out.
  unfold playlistDefaults. defaulted.
Qed.

Lemma playlistOutput_returns (playlist : value) :
  plainPlaylist playlist -> exists out, playlistOutput playlist = Return out.
Proof.
  intros [N [S1 [S2 [S3 [S4 [S5 [S6 S7]]]]]]]. unfold playlistOutput. returns N.
  eexists. reflexivity.
Qed.

Lemma createdPlaylistOutput_returned (payload : value) (out : CreatedPlaylist.t) :
  createdPlaylistOutput payload = Return out -> createdPlaylistDefaults payload out.
Proof.
  intros R. pose proof (returned_nonNull createdPlaylistOutput _ _ eq_refl R) as N.
  unfold createdPlaylistOutput in R. returned N R. injection R as R. subst out.
  unfold createdPlaylistDefaults. defaulted.
Qed.

Lemma createdPlaylistOutput_returns (payload : value) :
  plainCreated payload -> exists out, createdPlaylistOutput payload = Return out.
Proof.
  intros [N [S1 [S2 [S3 [S4 [S5 S6]]]]]]. unfold createdPlaylistOutput. returns N.
  eexists. reflexivity.
Qed.

Lemma searchTracksOutput_returned (input : SearchTracksInput.t) (payload : value)
    (out : SearchTracks.t) :
  searchTracksOutput input payload = Return out ->
  searchPaging input payload out
  /\ Forall2 trackDefaults (trackItems payload) (SearchTracks.tracks out).
Proof.
  intros R. pose proof (returned_nonNull (searchTracksOutput input) _ _ eq_refl R) as N.
  unfold searchTracksOutput in R. returned N R. injection R as R. subst out.
  split.
  - unfold searchPaging, trackItems, lengthOf in *. defaulted.
  - apply (mapM_returned trackOutput trackDefaults _ trackOutput_returned). assumption.
Qed.

Lemma searchTracksOutput_returns (input : SearchTracksInput.t) (payload : value) :
  plainSearch payload -> exists out, searchTracksOutput input payload = Return out.
Proof.
  intros [N [S1 [S2 [S3 F]]]]. unfold searchTracksOutput.
  rewrite (field_nonNull _ _ N). cbn [obind].
  destruct (numberOf_scalar (optField (optField (Some payload) "tracks") "total")
              (lengthOf (arrayOrEmpty (optField (optField (Some payload) "tracks") "items")))
              S1 I) as [t Et].
  rewrite Et. cbn [obind]. returns N.
  destruct (mapM_returns trackOutput (trackItems payload)) as [ys E].
  { eapply Forall_impl; [|exact F]. intros track. apply trackOutput_returns. }
  unfold trackItems in E. rewrite E. eexists. reflexivity.
Qed.

Lemma listMyPlaylistsOutput_returned (input : ListMyPlaylistsInput.t) (payload : value)
    (out : ListMyPlaylists.t) :
  listMyPlaylistsOutput input payload = Return out ->
  playlistsPaging input payload out
  /\ Forall2 playlistDefaults (playlistItems payload) (ListMyPlaylists.playlists out).
Proof.
  intros R. pose proof (returned_nonNull (listMyPlaylistsOutput input) _ _ eq_refl R) as N.
  unfold listMyPlaylistsOutput in R. returned N R. injection R as R. subst out.
  split.
  - unfold playlistsPaging, playlistItems, lengthOf in *. defaulted.
  - apply (mapM_returned playlistOutput playlistDefaults _ playlistOutput_returned).
    assumption.
Qed.

Lemma listMyPlaylistsOutput_returns (input : ListMyPlaylistsInput.t) (payload : value) :
  plainPlaylists payload -> exists out, listMyPlaylistsOutput input payload = Return out.
Proof.
  intros [N [S1 [S2 [S3 F]]]]. unfold listMyPlaylistsOutput.
  rewrite (field_nonNull _ _ N). cbn [obind].
  rewrite (field_nonNull _ _ N). cbn [obind].
  destruct (numberOf_scalar (optField (Some payload) "total")
              (lengthOf (arrayOrEmpty (optField (Some payload) "items"))) S1 I) as [t Et].
  rewrite Et. cbn [obind]. returns N.
  destruct (mapM_returns playlistOutput (playlistItems payload)) as [ys E].
  { eapply Forall_impl; [|exact F]. intros playlist. apply playlistOutput_returns. }
  unfold playlistItems in E. rewrite E. eexists. reflexivity.
Qed.

Lemma searchTracksOutput_inv (input : SearchTracksInput.t) (payload : value)
    (out : SearchTracks.t) :
  searchTracksOutput input payload = Return out ->
  let tracks := optField (Some payload) "tracks" in
  nonNull payload
  /\ numberOf (optField tracks "total") (lengthOf (trackItems payload))
     = Return (SearchTracks.total out)
  /\ numberOf (optField tracks "limit") (JNum (fromZ (SearchTracksInput.limit input)))
     = Return (SearchTracks.limit out)
  /\ numberOf (optField tracks "offset") (JNum (fromZ (SearchTracksInput.offset input)))
     = Return (SearchTracks.offset out)
  /\ mapM trackOutput (trackItems payload) = Return (SearchTracks.tracks out).
Proof.
  intros R. pose proof (returned_nonNull (searchTracksOutput input) _ _ eq_refl R) as N.
  unfold searchTracksOutput in R. returned N R. injection R as R. subst out.
  unfold trackItems. cbn. repeat split; assumption.
Qed.

Lemma listMyPlaylistsOutput_inv (input : ListMyPlaylistsInput.t) (payload : value)
    (out : ListMyPlaylists.t) :
  listMyPlaylistsOutput input payload = Return out ->
  nonNull payload
  /\ numberOf (optField (Some payload) "total") (lengthOf (playlistItems payload))
     = Return (ListMyPlaylists.total out)
  /\ numberOf (optField (Some payload) "limit")
       (JNum (fromZ (ListMyPlaylistsInput.limit input)))
     = Return (ListMyPlaylists.limit out)
  /\ numberOf (optField (Some payload) "offset")
       (JNum (fromZ (ListMyPlaylistsInput.offset input)))
     = Return (ListMyPlaylists.offset out)
  /\ mapM playlistOutput (playlistItems payload) = Return (ListMyPlaylists.playlists out).
Proof.
  intros R. pose proof (returned_nonNull (listMyPlaylistsOutput input) _ _ eq_refl R) as N.
  unfold listMyPlaylistsOutput in R. returned N R. injection R as R. subst out.
  unfold playlistItems. cbn. repeat split; assumption.
Qed.

End Defaults.

(** ** The outputs of the handlers *)

Section Outputs.
Context {H : Host}.

Lemma runSpotifyCreatePlaylist_answer (input : CreatePlaylistInput.t) (runtime : Runtime.t)
    (w : World) (log : list event) (payload : value) :
  createAnswers w log runtime input payload ->
  fst (runSpotifyCreatePlaylist input runtime w log) = createdPlaylistOutput payload.
Proof.
  intros [token [account [log' [response [T [A [E [O P]]]]]]]].
  unfold runSpotifyCreatePlaylist.
  rewrite (bind_Return _ _ _ _ _ _
             (pair_eq _ _ _ T (resolveAccessToken_log runtime w log))).
  rewrite (bind_Return _ _ _ _ _ _ A).
  rewrite (bind_Return _ _ _ _ _ _ (requestSpotify_ok _ _ _ _ _ _ _ _ _ E O P)).
  reflexivity.
Qed.

Lemma arrayOrEmpty_not_array (v : option value) :
  (forall l, v <> Some (JArr l)) -> arrayOrEmpty v = [].
Proof.
  intros N. destruct v as [[| | | | l |]|]; try reflexivity.
  exfalso. apply (N l). reflexivity.
Qed.

(** C5, as amended. Whenever the API answers a handler with a payload and
    the handler returns an output, that output is defaulted: an absent
    string id, name or uri is the empty string; an absent count
    ([followers], [durationMs], [popularity], [tracksTotal]) is 0; an
    absent [total] is the number of items and an absent [limit] or [offset]
    is the one of the request; an absent optional string is [null]; an
    absent [public] or [collaborative] is [false]; an absent list is the
    empty sequence.  The handler does return an output when the payload and
    its items are not [null] and the properties it converts are absent or
    scalar. *)
Theorem outputs_defaulted (runtime : Runtime.t) (w : World) (log : list event) :
  (forall payload,
     answers w log runtime "/me" payload ->
     (forall out,
        fst (runSpotifyGetMe tt runtime w log) = Return out -> getMeDefaults payload out)
     /\ (plainProfile payload ->
         exists out, fst (runSpotifyGetMe tt runtime w log) = Return out))
  /\ (forall input payload,
        answers w log runtime (searchPath input) payload ->
        (forall out,
           fst (runSpotifySearchTracks input runtime w log) = Return out ->
           searchPaging input payload out
           /\ Forall2 trackDefaults (trackItems payload) (SearchTracks.tracks out)
           /\ (optField (optField (Some payload) "tracks") "items" = None ->
               SearchTracks.tracks out = []))
        /\ (plainSearch payload ->
            exists out, fst (runSpotifySearchTracks input runtime w log) = Return out))
  /\ (forall input payload,
        answers w log runtime (playlistsPath input) payload ->
        (forall out,
           fst (runSpotifyListMyPlaylists input runtime w log) = Return out ->
           playlistsPaging input payload out
           /\ Forall2 playlistDefaults (playlistItems payload)
                (ListMyPlaylists.playlists out)
           /\ (optField (Some payload) "items" = None ->
               ListMyPlaylists.playlists out = []))
        /\ (plainPlaylists payload ->
            exists out, fst (runSpotifyListMyPlaylists input runtime w log) = Return out))
  /\ (forall input payload,
        createAnswers w log runtime input payload ->
        (forall out,
           fst (runSpotifyCreatePlaylist input runtime w log) = Return out ->
           createdPlaylistDefaults payload out)
        /\ (plainCreated payload ->
            exists out, fst (runSpotifyCreatePlaylist input runtime w log) = Return out)).
Proof.
  split; [|split; [|split]].
  - intros payload A. rewrite (runSpotifyGetMe_answer _ _ _ _ A). split.
    + intros out R. apply getMeOutput_returned. exact R.
    + apply getMeOutput_returns.
  - intros input payload A. rewrite (runSpotifySearchTracks_answer _ _ _ _ _ A). split.
    + intros out R. destruct (searchTracksOutput_returned _ _ _ R) as [P D].
      split; [exact P|]. split; [exact D|].
      intros I. unfold trackItems in D. rewrite I in D. simpl in D.
      apply (Forall2_nil_l _ _ D).
    + apply searchTracksOutput_returns.
  - intros input payload A. rewrite (runSpotifyListMyPlaylists_answer _ _ _ _ _ A). split.
    + intros out R. destruct (listMyPlaylistsOutput_returned _ _ _ R) as [P D].
      split; [exact P|]. split; [exact D|].
      intros I. unfold playlistItems in D. rewrite I in D. simpl in D.
      apply (Forall2_nil_l _ _ D).
    + apply listMyPlaylistsOutput_returns.
  - intros input payload A. rewrite (runSpotifyCreatePlaylist_answer _ _ _ _ _ A). split.
    + intros out R. apply createdPlaylistOutput_returned. exact R.
    + apply createdPlaylistOutput_returns.
Qed.

(** C6. For a request with [limit] in 1..50 and [offset] at least 0, when
    the payload of the answer has no [limit] and no [offset] of its own,
    the output of the search carries the [limit] and [offset] of the
    request, and so does the output of the playlist listing.  There is such
    an output when the payload and its items are not [null] and the
    properties the handler converts are absent or scalar. *)
Theorem limit_offset_echoed (runtime : Runtime.t) (w : World) (log : list event) :
  (forall input payload out,
     1 <= SearchTracksInput.limit input <= 50 -> 0 <= SearchTracksInput.offset input ->
     answers w log runtime (searchPath input) payload ->
     optField (optField (Some payload) "tracks") "limit" = None ->
     optField (optField (Some payload) "tracks") "offset" = None ->
     fst (runSpotifySearchTracks input runtime w log) = Return out ->
     SearchTracks.limit out = fromZ (SearchTracksInput.limit input)
     /\ SearchTracks.offset out = fromZ (SearchTracksInput.offset input))
  /\ (forall input payload out,
        1 <= ListMyPlaylistsInput.limit input <= 50 ->
        0 <= ListMyPlaylistsInput.offset input ->
        answers w log runtime (playlistsPath input) payload ->
        optField (Some payload) "limit" = None ->
        optField (Some payload) "offset" = None ->
        fst (runSpotifyListMyPlaylists input runtime w log) = Return out ->
        ListMyPlaylists.limit out = fromZ (ListMyPlaylistsInput.limit input)
        /\ ListMyPlaylists.offset out = fromZ (ListMyPlaylistsInput.offset input))
  /\ (forall input payload,
        answers w log runtime (searchPath input) payload -> plainSearch payload ->
        exists out, fst (runSpotifySearchTracks input runtime w log) = Return out)
  /\ (forall input payload,
        answers w log runtime (playlistsPath input) payload -> plainPlaylists payload ->
        exists out, fst (runSpotifyListMyPlaylists input runtime w log) = Return out).
Proof.
  split; [|split; [|split]].
  - intros input payload out _ _ A L O R.
    rewrite (runSpotifySearchTracks_answer _ _ _ _ _ A) in R.
    destruct (searchTracksOutput_returned _ _ _ R) as [[_ [PL PO]] _].
    split; [apply PL; exact L | apply PO; exact O].
  - intros input payload out _ _ A L O R.
    rewrite (runSpotifyListMyPlaylists_answer _ _ _ _ _ A) in R.
    destruct (listMyPlaylistsOutput_returned _ _ _ R) as [[_ [PL PO]] _].
    split; [apply PL; exact L | apply PO; exact O].
  - intros input payload A P. rewrite (runSpotifySearchTracks_answer _ _ _ _ _ A).
    apply searchTracksOutput_returns. exact P.
  - intros input payload A P. rewrite (runSpotifyListMyPlaylists_answer _ _ _ _ _ A).
    apply listMyPlaylistsOutput_returns. exact P.
Qed.

(** C7. On the raw response of the reference example the search output is
    the stated structure, with the [limit] and [offset] of the request, and
    the handler returns it whenever the API answers with that response.  An
    artist whose [name] is [null] or missing is left out of [artists] and
    one with a non-empty string name is kept.  When [tracks.items] is not
    an array, an output has no tracks, and there is an output when the
    paging numbers of the payload are absent or scalar. *)
Theorem searchTracks_mapping :
  (forall input, searchTracksOutput input examplePayload = Return (exampleOutput input))
  /\ (forall input runtime w log,
        answers w log runtime (searchPath input) examplePayload ->
        fst (runSpotifySearchTracks input runtime w log) = Return (exampleOutput input))
  /\ (forall artist rest,
        optField (Some artist) "name" = None \/ optField (Some artist) "name" = Some JNull ->
        trackArtists (Some (JArr (artist :: rest))) = trackArtists (Some (JArr rest)))
  /\ (forall artist rest s,
        optField (Some artist) "name" = Some (JStr s) -> s <> "" ->
        trackArtists (Some (JArr (artist :: rest)))
        = (names <~ trackArtists (Some (JArr rest)) ;; Return (s :: names)))
  /\ (forall input payload out,
        (forall l, optField (optField (Some payload) "tracks") "items" <> Some (JArr l)) ->
        searchTracksOutput input payload = Return out ->
        SearchTracks.tracks out = [])
  /\ (forall input payload,
        nonNull payload ->
        (forall l, optField (optField (Some payload) "tracks") "items" <> Some (JArr l)) ->
        scalar (optField (optField (Some payload) "tracks") "total") ->
        scalar (optField (optField (Some payload) "tracks") "limit") ->
        scalar (optField (optField (Some payload) "tracks") "offset") ->
        exists out,
          searchTracksOutput input payload = Return out /\ SearchTracks.tracks out = []).
Proof.
  assert (Empty : forall input payload out,
             (forall l, optField (optField (Some payload) "tracks") "items" <> Some (JArr l)) ->
             searchTracksOutput input payload = Return out ->
             SearchTracks.tracks out = []).
  { intros input payload out A R.
    destruct (searchTracksOutput_returned _ _ _ R) as [_ D].
    unfold trackItems in D. rewrite (arrayOrEmpty_not_array _ A) in D.
    apply (Forall2_nil_l _ _ D). }
  split; [|split; [|split; [|split; [|split]]]].
  - intros input. reflexivity.
  - intros input runtime w log A. rewrite (runSpotifySearchTracks_answer _ _ _ _ _ A).
    reflexivity.
  - intros artist rest N. unfold trackArtists. cbn [mapM]. unfold artistName at 1.
    destruct N as [N|N]; rewrite N; cbn [stringOrNull truthy obind];
      destruct (mapM artistName rest); reflexivity.
  - intros artist rest s N E. unfold trackArtists. cbn [mapM]. unfold artistName at 1.
    rewrite N. apply isEmpty_false in E. cbn [stringOrNull truthy js_String toStringWith].
    rewrite E. cbn [negb obind].
    destruct (mapM artistName rest); cbn [obind filterBoolean]; [rewrite E|]; reflexivity.
  - exact Empty.
  - intros input payload N A S1 S2 S3.
    destruct (searchTracksOutput_returns input payload) as [out R].
    { unfold plainSearch, trackItems. rewrite (arrayOrEmpty_not_array _ A).
      repeat split; try assumption. constructor. }
    exists out. split; [exact R | apply (Empty input payload out A R)].
Qed.

End Outputs.

(** ** The handlers on the sample host *)

Lemma sample_answers_me :
  answers (H := Sample.host) (Sample.world None) [] (Sample.runtime (Some "A") None) "/me"
    (JObj [("id", JStr "u1")]).
Proof.
  exists "A", {| status := 200; text := Sample.body_me |}. repeat split.
Defined.

Lemma sample_answers_playlists :
  answers (H := Sample.host) (Sample.world None) [] (Sample.runtime (Some "A") None)
    (playlistsPath (H := Sample.host)
       {| ListMyPlaylistsInput.limit := 20; ListMyPlaylistsInput.offset := 0 |})
    (JObj []).
Proof.
  exists "A", {| status := 200; text := Sample.body_empty |}. repeat split.
Defined.

(** C5, as stated, fails on the paging numbers: the API answers the listing
    with [{}], which has no [limit], and the output's [limit] is the 20 of
    the request, not 0.  A payload that lists one empty playlist and has no
    [total] gives the [total] 1, not 0, and the absent [public] of that
    playlist becomes [false], not [null]. *)
Lemma outputs_defaulted_counterexample :
  let input := {| ListMyPlaylistsInput.limit := 20; ListMyPlaylistsInput.offset := 0 |} in
  let listed : json Sample.num := JObj [("items", JArr [JObj []])] in
  answers (H := Sample.host) (Sample.world None) [] (Sample.runtime (Some "A") None)
    (playlistsPath (H := Sample.host) input) (JObj [])
  /\ (exists out,
        fst (runSpotifyListMyPlaylists (H := Sample.host) input
               (Sample.runtime (Some "A") None) (Sample.world None) []) = Return out
        /\ ListMyPlaylists.limit out = fromZ (Host := Sample.host) 20
        /\ ListMyPlaylists.limit out <> fromZ (Host := Sample.host) 0)
  /\ optField (H := Sample.host) (Some listed) "total" = None
  /\ listMyPlaylistsOutput (H := Sample.host) input listed
     = Return {| ListMyPlaylists.total := fromZ (Host := Sample.host) 1;
                 ListMyPlaylists.limit := fromZ (Host := Sample.host) 20;
                 ListMyPlaylists.offset := fromZ (Host := Sample.host) 0;
                 ListMyPlaylists.playlists :=
                   [ {| Playlist.id := "";
                        Playlist.name := "";
                        Playlist.description := None;
                        Playlist.public := Some false;
                        Playlist.collaborative := false;
                        Playlist.ownerId := None;
                        Playlist.tracksTotal := fromZ (Host := Sample.host) 0;
                        Playlist.snapshotId := None;
                        Playlist.externalUrl := None |} ] |}
  /\ fromZ (Host := Sample.host) 1 <> fromZ (Host := Sample.host) 0.
Proof.
  intros input listed. split; [exact sample_answers_playlists|]. split; [|split; [|split]].
  - eexists. split; [reflexivity|]. split; [reflexivity | discriminate].
  - reflexivity.
  - reflexivity.
  - discriminate.
Qed.

Lemma outputs_defaulted_witness :
  exists out,
    fst (runSpotifyGetMe (H := Sample.host) tt (Sample.runtime (Some "A") None)
           (Sample.world None) []) = Return out
    /\ GetMe.id out = "u1"
    /\ GetMe.email out = None
    /\ GetMe.followers out = fromZ (Host := Sample.host) 0.
Proof.
  destruct (proj1 (outputs_defaulted (H := Sample.host) (Sample.runtime (Some "A") None)
                     (Sample.world None) [])
              (JObj [("id", JStr "u1")]) sample_answers_me) as [D P].
  destruct P as [out E].
  - repeat split; discriminate.
  - exists out. split; [exact E|].
    destruct (D out E) as [_ [_ [M [_ [_ [F _]]]]]].
    split.
    + assert (R : fst (runSpotifyGetMe (H := Sample.host) tt
                         (Sample.runtime (Some "A") None) (Sample.world None) [])
                  = Return out) by exact E.
      vm_compute in R. injection R as R. rewrite <- R. reflexivity.
    + split; [apply M | apply F]; reflexivity.
Defined.

Lemma limit_offset_echoed_witness :
  let input := {| ListMyPlaylistsInput.limit := 20; ListMyPlaylistsInput.offset := 0 |} in
  exists out,
    fst (runSpotifyListMyPlaylists (H := Sample.host) input
           (Sample.runtime (Some "A") None) (Sample.world None) []) = Return out
    /\ ListMyPlaylists.limit out = fromZ (Host := Sample.host) 20
    /\ ListMyPlaylists.offset out = fromZ (Host := Sample.host) 0.
Proof.
  intros input.
  destruct (limit_offset_echoed (H := Sample.host) (Sample.runtime (Some "A") None)
              (Sample.world None) []) as [_ [E [_ P]]].
  destruct (P input (JObj []) sample_answers_playlists) as [out R].
  - repeat split; try discriminate. constructor.
  - exists out. split; [exact R|].
    apply (E input (JObj []) out).
    + simpl. lia.
    + simpl. lia.
    + exact sample_answers_playlists.
    + reflexivity.
    + reflexivity.
    + exact R.
Defined.

Lemma searchTracks_mapping_witness :
  let input :=
    {| SearchTracksInput.query := "song"; SearchTracksInput.limit := 10;
       SearchTracksInput.offset := 0; SearchTracksInput.market := None |} in
  let payload : json Sample.num := JObj [("tracks", JObj [("items", JStr "none")])] in
  (exists out,
     searchTracksOutput (H := Sample.host) input payload = Return out
     /\ SearchTracks.tracks out = [])
  /\ trackArtists (H := Sample.host)
       (Some (JArr [JObj [("name", JNull)]; JObj [("name", JStr "Artist")]]))
     = Return ["Artist"].
Proof.
  intros input payload.
  destruct (searchTracks_mapping (H := Sample.host)) as [_ [_ [Dropped [Kept [_ Empty]]]]].
  split.
  - apply (Empty input payload).
    + discriminate.
    + intros l. discriminate.
    + exact I.
    + exact I.
    + exact I.
  - rewrite (Dropped (JObj [("name", JNull)]) [JObj [("name", JStr "Artist")]]
               (or_intror eq_refl)).
    rewrite (Kept (JObj [("name", JStr "Artist")]) [] "Artist" eq_refl).
    + reflexivity.
    + discriminate.
Defined.

Lemma requestSpotify_contract_witness :
  let w : World :=
    {| env := fun _ => None;
       network := fun _ _ => Some {| status := 404; text := "not found" |} |} in
  fst (requestSpotify (H := Sample.host) (Sample.runtime None None) "A" GET "/me" None w [])
  = Throw (Error "Spotify API request failed (404): not found").
Proof.
  intros w.
  apply (proj1 (proj1 (proj2 (proj2 (proj2 (proj2 (proj2 (proj2
           (requestSpotify_contract (H := Sample.host) (Sample.runtime None None) "A" GET
              "/me" None w [])))))))
           {| status := 404; text := "not found" |} eq_refl ltac:(simpl; lia))).
Defined.

(** * Further properties *)

(** ** Trimming and encoding *)

Lemma trimStart_startsClean (s : string) : startsClean (trimStart s).
Proof.
  induction s as [|c rest IH]; simpl; [exact I|].
  destruct (isWhiteSpace c) eqn:E; [exact IH | simpl; exact E].
Qed.

Lemma trimStart_clean (s : string) : startsClean s -> trimStart s = s.
Proof.
  destruct s as [|c rest]; simpl; [reflexivity|]. intros E. rewrite E. reflexivity.
Qed.

Lemma trimEnd_startsClean (s : string) : startsClean s -> startsClean (trimEnd s).
Proof.
  destruct s as [|c rest]; simpl; [intros _; exact I|]. intros E.
  destruct (trimEnd rest); [rewrite E|]; simpl; exact E.
Qed.

Lemma trimEnd_idempotent (s : string) : trimEnd (trimEnd s) = trimEnd s.
Proof.
  induction s as [|c rest IH]; simpl; [reflexivity|].
  destruct (trimEnd rest) as [|d tail] eqn:E.
  - destruct (isWhiteSpace c) eqn:W; simpl; [reflexivity|]. rewrite W. reflexivity.
  - change (trimEnd (String c (String d tail))) with
      (match trimEnd (String d tail) with
       | EmptyString => if isWhiteSpace c then EmptyString else String c EmptyString
       | rest' => String c rest'
       end).
    rewrite IH. reflexivity.
Qed.

Lemma trim_idempotent (s : string) : trim (trim s) = trim s.
Proof.
  unfold trim.
  rewrite (trimStart_clean (trimEnd (trimStart s))).
  - apply trimEnd_idempotent.
  - apply trimEnd_startsClean. apply trimStart_startsClean.
Qed.

Lemma allChars_app (p : ascii -> bool) (s t : string) :
  allChars p (s ++ t) = allChars p s && allChars p t.
Proof.
  induction s as [|c rest IH]; simpl; [reflexivity|].
  rewrite IH. apply andb_assoc.
Qed.

Lemma allChars_isIn (p : ascii -> bool) (s : string) (c : ascii) :
  allChars p s = true -> p c = false -> isIn c s = false.
Proof.
  unfold isIn. induction s as [|d rest IH]; simpl; intros A N; [reflexivity|].
  apply andb_true_iff in A. destruct A as [Pd A].
  destruct (Ascii.eqb c d) eqn:E.
  - apply Ascii.eqb_eq in E. subst d. rewrite Pd in N. discriminate N.
  - simpl. apply IH; assumption.
Qed.

Lemma percentEncode_uriSafe (c : ascii) : allChars uriSafe (percentEncode c) = true.
Proof. destruct c as [[] [] [] [] [] [] [] []]; reflexivity. Qed.

Lemma percentEncode_formSafe (c : ascii) : allChars formSafe (percentEncode c) = true.
Proof. destruct c as [[] [] [] [] [] [] [] []]; reflexivity. Qed.

Lemma encodeURIComponent_uriSafe (s : string) :
  allChars uriSafe (encodeURIComponent s) = true.
Proof.
  induction s as [|c rest IH]; simpl; [reflexivity|].
  rewrite allChars_app, IH, andb_true_r.
  destruct (isAlphaNum c || isIn c "-_.!~*'()") eqn:E.
  - simpl. unfold uriSafe, unreserved. rewrite E. reflexivity.
  - apply percentEncode_uriSafe.
Qed.

Lemma encodeURIComponent_unreserved (s : string) :
  allChars unreserved s = true -> encodeURIComponent s = s.
Proof.
  induction s as [|c rest IH]; simpl; [reflexivity|]. intros A.
  apply andb_true_iff in A. destruct A as [U A]. unfold unreserved in U.
  rewrite U, (IH A). reflexivity.
Qed.

Lemma formEncode_formSafe (s : string) : allChars formSafe (formEncode s) = true.
Proof.
  induction s as [|c rest IH]; simpl; [reflexivity|].
  rewrite allChars_app, IH, andb_true_r.
  destruct (isAlphaNum c || isIn c "*-._") eqn:E.
  - simpl. rewrite andb_true_r. unfold formSafe.
    apply orb_true_iff in E. destruct E as [E|E]; [rewrite E; reflexivity|].
    apply orb_true_iff. right. unfold isIn in *. simpl in *.
    repeat (apply orb_true_iff in E; destruct E as [E|E];
            [rewrite E; rewrite ?orb_true_r; reflexivity|]).
    discriminate E.
  - destruct (Ascii.eqb c " "); [reflexivity|]. apply percentEncode_formSafe.
Qed.

(** X1. A token that [resolveAccessToken] returns is never empty, has no
    white space around it, and is the trimmed explicit token or the trimmed
    value of the environment variable. *)
Theorem resolved_token_trimmed (runtime : Runtime.t) (w : World) (log : list event)
    (token : string) :
  fst (resolveAccessToken runtime w log) = Return token ->
  token <> ""
  /\ trim token = token
  /\ ((exists s, Runtime.accessToken runtime = Some s /\ token = trim s)
      \/ (exists e, env w (Runtime.tokenEnvVar runtime) = Some e /\ token = trim e)).
Proof.
  rewrite resolveAccessToken_eq. unfold tokenOf, explicitOf, fallbackOf. simpl.
  destruct (inheritedRead runtime w); [discriminate|].
  destruct (Runtime.accessToken runtime) as [s|];
    destruct (env w (Runtime.tokenEnvVar runtime)) as [e|]; simpl;
    repeat match goal with
           | |- context [isEmpty ?x] => destruct (isEmpty x) eqn:?; simpl
           end;
    intros R; try discriminate R; injection R as R; subst token;
    (split; [apply isEmpty_false; assumption|]);
    (split; [apply trim_idempotent|]);
    solve [ left; eexists; split; reflexivity | right; eexists; split; reflexivity ].
Qed.

Lemma resolved_token_trimmed_witness :
  trim "A" = "A"
  /\ ((exists s, Some " A " = Some s /\ "A" = trim s)
      \/ (exists e, Some "B" = Some e /\ "A" = trim e)).
Proof.
  apply (resolved_token_trimmed (Sample.runtime (Some " A ") None)
           (Sample.world (Some "B")) [] "A" eq_refl).
Defined.

(** ** The query strings *)

Section QueryStrings.
Context {H : Host}.

(** X3. The search path has the parameters [q], [type=track], [limit] and
    [offset] in this order, then [market] in upper case when the input has
    a non-empty one and nothing otherwise; the playlists path has [limit]
    and [offset].  An encoded value holds no [&], [=], [#] or space, so
    the query cannot add a parameter. *)
Theorem query_parameters :
  (forall input,
     searchPath input
     = "/search?q=" ++ formEncode (SearchTracksInput.query input)
       ++ "&type=track&limit="
       ++ formEncode (NumberToString (fromZ (SearchTracksInput.limit input)))
       ++ "&offset="
       ++ match SearchTracksInput.market input with
          | Some market =>
              if isEmpty market
              then formEncode (NumberToString (fromZ (SearchTracksInput.offset input)))
              else formEncode (NumberToString (fromZ (SearchTracksInput.offset input)))
                   ++ "&market=" ++ formEncode (toUpperCase market)
          | None => formEncode (NumberToString (fromZ (SearchTracksInput.offset input)))
          end)
  /\ (forall input,
        playlistsPath input
        = "/me/playlists?limit="
          ++ formEncode (NumberToString (fromZ (ListMyPlaylistsInput.limit input)))
          ++ "&offset="
          ++ formEncode (NumberToString (fromZ (ListMyPlaylistsInput.offset input))))
  /\ (forall s,
        isIn "&" (formEncode s) = false /\ isIn "=" (formEncode s) = false
        /\ isIn "#" (formEncode s) = false /\ isIn " " (formEncode s) = false).
Proof.
  split; [|split].
  - intros input. unfold searchPath, searchTracksParams.
    destruct (SearchTracksInput.market input) as [market|];
      [destruct (isEmpty market)|]; reflexivity.
  - intros input. reflexivity.
  - intros s. pose proof (formEncode_formSafe s) as S.
    repeat split; apply (allChars_isIn formSafe _ _ S); reflexivity.
Qed.

End QueryStrings.

(** ** What the handlers send *)

Lemma requests_app (l l' : list event) :
  requests (l ++ l') = (requests l ++ requests l')%list.
Proof.
  induction l as [|[v|r] rest IH]; simpl; [reflexivity | exact IH |].
  rewrite IH. reflexivity.
Qed.

Section Sending.
Context {H : Host}.

Lemma resolved (runtime : Runtime.t) (w : World) (log : list event) (token : string) :
  fst (resolveAccessToken runtime w log) = Return token ->
  resolveAccessToken runtime w log
  = (Return token, (log ++ [EnvRead (Runtime.tokenEnvVar runtime)])%list).
Proof. intros T. apply pair_eq; [exact T | apply resolveAccessToken_log]. Qed.

Lemma unresolved (runtime : Runtime.t) (w : World) (log : list event) :
  yieldsNothing (explicitOf runtime) -> yieldsNothing (fallbackOf runtime w) ->
  resolveAccessToken runtime w log
  = (Throw (if inheritedRead runtime w then TypeError
            else Error (missingTokenMessage (Runtime.tokenEnvVar runtime))),
     (log ++ [EnvRead (Runtime.tokenEnvVar runtime)])%list).
Proof.
  intros Y1 Y2. destruct (inheritedRead runtime w) eqn:I.
  - apply resolveAccessToken_inherited. exact I.
  - apply pair_eq;
      [apply resolveAccessToken_missing; assumption | apply resolveAccessToken_log].
Qed.

Lemma reading_log {A : Type} (f : value -> outcome A) (runtime : Runtime.t) (path : string)
    (w : World) (log : list event) (token : string) :
  fst (resolveAccessToken runtime w log) = Return token ->
  snd ((token <- resolveAccessToken runtime ;;
        payload <- requestSpotify runtime token GET path None ;;
        lift (f payload)) w log)
  = (log ++ [EnvRead (Runtime.tokenEnvVar runtime);
             Fetched (getRequest runtime token path)])%list.
Proof.
  intros T. rewrite (bind_Return _ _ _ _ _ _ (resolved _ _ _ _ T)).
  rewrite bind_lift_log, requestSpotify_log, <- app_assoc. reflexivity.
Qed.

(** X4. Without a credential no handler sends anything: when neither the
    explicit token nor the environment variable yields a non-empty string,
    each of the four handlers throws, and all it did is read the
    environment variable.  What it throws is the missing-token error,
    except when the variable is unset and its name is one that
    [process.env] inherits: then it is the [TypeError] of the read. *)
Theorem no_credential_no_request (runtime : Runtime.t) (w : World) (log : list event) :
  yieldsNothing (explicitOf runtime) -> yieldsNothing (fallbackOf runtime w) ->
  let failure :=
    if inheritedRead runtime w then TypeError
    else Error (missingTokenMessage (Runtime.tokenEnvVar runtime)) in
  let log1 := (log ++ [EnvRead (Runtime.tokenEnvVar runtime)])%list in
  runSpotifyGetMe tt runtime w log = (Throw failure, log1)
  /\ (forall input, runSpotifySearchTracks input runtime w log = (Throw failure, log1))
  /\ (forall input, runSpotifyListMyPlaylists input runtime w log = (Throw failure, log1))
  /\ (forall input, runSpotifyCreatePlaylist input runtime w log = (Throw failure, log1))
  /\ requests log1 = requests log.
Proof.
  intros Y1 Y2 failure log1. pose proof (unresolved runtime w log Y1 Y2) as U.
  repeat split; try intros input;
    try (apply (bind_Throw _ _ _ _ _ _ U)).
  subst log1. rewrite requests_app. simpl. apply app_nil_r.
Qed.

(** X5. With a credential a reading handler sends exactly one request, a
    GET without body to [apiBaseUrl] followed by its path, with the two
    headers [authorization] and [accept], whatever the API answers. *)
Theorem reading_handlers_send_one_get (runtime : Runtime.t) (w : World) (log : list event)
    (token : string) :
  fst (resolveAccessToken runtime w log) = Return token ->
  let log1 := (log ++ [EnvRead (Runtime.tokenEnvVar runtime)])%list in
  snd (runSpotifyGetMe tt runtime w log)
  = (log1 ++ [Fetched (getRequest runtime token "/me")])%list
  /\ (forall input,
        snd (runSpotifySearchTracks input runtime w log)
        = (log1 ++ [Fetched (getRequest runtime token (searchPath input))])%list)
  /\ (forall input,
        snd (runSpotifyListMyPlaylists input runtime w log)
        = (log1 ++ [Fetched (getRequest runtime token (playlistsPath input))])%list)
  /\ (forall path,
        getRequest runtime token path
        = {| url := Runtime.apiBaseUrl runtime ++ path;
             method := GET;
             headers := [("authorization", "Bearer " ++ token);
                         ("accept", "application/json")];
             body := None |}).
Proof.
  intros T log1. subst log1.
  split; [|split; [|split]].
  - unfold runSpotifyGetMe. rewrite (reading_log _ _ _ _ _ _ T), <- app_assoc. reflexivity.
  - intros input. unfold runSpotifySearchTracks.
    rewrite (reading_log _ _ _ _ _ _ T), <- app_assoc. reflexivity.
  - intros input. unfold runSpotifyListMyPlaylists.
    rewrite (reading_log _ _ _ _ _ _ T), <- app_assoc. reflexivity.
  - intros path. reflexivity.
Qed.

Lemma resolveUserId_shape (runtime : Runtime.t) (token : string) (w : World)
    (log : list event) :
  (exists account, resolveUserId runtime token w log = (Return account, log))
  \/ (exists account,
        resolveUserId runtime token w log
        = (Return account, (log ++ [Fetched (meRequest runtime token)])%list))
  \/ (exists e,
        resolveUserId runtime token w log
        = (Throw e, (log ++ [Fetched (meRequest runtime token)])%list)).
Proof.
  unfold resolveUserId.
  destruct (or_else (Runtime.defaultUserId runtime) None) as [d|].
  - left. exists d. reflexivity.
  - right. unfold bind.
    pose proof (requestSpotify_log runtime token GET "/me" None w log) as L.
    destruct (requestSpotify runtime token GET "/me" None w log) as [[me|e] log'].
    + simpl in L. subst log'.
      destruct (optField (Some me) "id") as [id|];
        [destruct (truthy (Some id)); [unfold lift; destruct (js_String id)|]|];
        solve [ left; eexists; reflexivity | right; eexists; reflexivity ].
    + simpl in L. subst log'. right. exists e. reflexivity.
Qed.

(** X6. With a credential a create-playlist call sends one or two requests
    and nothing else: the create request alone, or the request to [/me]
    alone (the call then fails), or the request to [/me] followed by the
    create request.  The create request is never followed by another. *)
Theorem create_playlist_requests (input : CreatePlaylistInput.t) (runtime : Runtime.t)
    (w : World) (log : list event) (token : string) :
  fst (resolveAccessToken runtime w log) = Return token ->
  let log1 := (log ++ [EnvRead (Runtime.tokenEnvVar runtime)])%list in
  let sent := snd (runSpotifyCreatePlaylist input runtime w log) in
  (exists account,
     sent = (log1 ++ [Fetched (createRequest runtime token input account)])%list)
  \/ (sent = (log1 ++ [Fetched (meRequest runtime token)])%list
      /\ exists e, fst (runSpotifyCreatePlaylist input runtime w log) = Throw e)
  \/ (exists account,
        sent = (log1 ++ [Fetched (meRequest runtime token);
                         Fetched (createRequest runtime token input account)])%list).
Proof.
  intros T log1 sent. subst sent.
  destruct (CreatePlaylistInput.userId input) as [u|] eqn:U.
  - left. exists u. apply runSpotifyCreatePlaylist_log; [exact T|]. rewrite U. reflexivity.
  - destruct (resolveUserId_shape runtime token w log1) as [[a R]|[[a R]|[e R]]].
    + left. exists a. apply runSpotifyCreatePlaylist_log; [exact T|]. rewrite U. exact R.
    + right. right. exists a.
      rewrite (runSpotifyCreatePlaylist_log input runtime w log
                 (log1 ++ [Fetched (meRequest runtime token)])%list token a T).
      * rewrite <- app_assoc. reflexivity.
      * rewrite U. exact R.
    + right. left. unfold runSpotifyCreatePlaylist.
      rewrite (bind_Return _ _ _ _ _ _ (resolved _ _ _ _ T)). rewrite U. fold log1.
      rewrite (bind_Throw _ _ _ _ _ _ R). split; [reflexivity | exists e; reflexivity].
Qed.

(** X7. When the account has to come from [/me] and that request fails,
    the playlist is not created: a rejected [fetch], an answer outside
    200..299 and a body that is not JSON each end the call with the error
    of the request, and the request to [/me] is the only one sent. *)
Theorem me_failure_stops_creation (input : CreatePlaylistInput.t) (runtime : Runtime.t)
    (w : World) (log : list event) (token : string) :
  fst (resolveAccessToken runtime w log) = Return token ->
  CreatePlaylistInput.userId input = None ->
  Runtime.defaultUserId runtime = None \/ Runtime.defaultUserId runtime = Some "" ->
  let log1 := (log ++ [EnvRead (Runtime.tokenEnvVar runtime)])%list in
  let log2 := (log1 ++ [Fetched (meRequest runtime token)])%list in
  (network w log1 (meRequest runtime token) = None ->
   runSpotifyCreatePlaylist input runtime w log = (Throw NetworkError, log2))
  /\ (forall response,
        network w log1 (meRequest runtime token) = Some response ->
        ok response = false ->
        runSpotifyCreatePlaylist input runtime w log
        = (Throw (Error (requestFailedMessage response)), log2))
  /\ (forall response,
        network w log1 (meRequest runtime token) = Some response ->
        ok response = true -> JSON_parse (text response) = None ->
        runSpotifyCreatePlaylist input runtime w log = (Throw SyntaxError, log2)).
Proof.
  intros T U D log1 log2.
  assert (N : or_else (Runtime.defaultUserId runtime) None = None).
  { destruct D as [D|D]; rewrite D; reflexivity. }
  assert (Step : forall e,
             requestSpotify runtime token GET "/me" None w log1 = (Throw e, log2) ->
             runSpotifyCreatePlaylist input runtime w log = (Throw e, log2)).
  { intros e R. unfold runSpotifyCreatePlaylist.
    rewrite (bind_Return _ _ _ _ _ _ (resolved _ _ _ _ T)). rewrite U. fold log1.
    apply bind_Throw. unfold resolveUserId. rewrite N. apply bind_Throw. exact R. }
  split; [|split].
  - intros E. apply Step. unfold requestSpotify, bind, fetch.
    change {| url := Runtime.apiBaseUrl runtime ++ "/me"; method := GET;
              headers := requestHeaders token None;
              body := option_map JSON_stringify None |}
      with (meRequest runtime token).
    rewrite E. reflexivity.
  - intros response E O. apply Step. apply pair_eq; [|apply requestSpotify_log].
    rewrite (requestSpotify_answer _ _ _ _ _ _ _ _ E), O. reflexivity.
  - intros response E O P. apply Step. apply pair_eq; [|apply requestSpotify_log].
    rewrite (requestSpotify_answer _ _ _ _ _ _ _ _ E), O, P. reflexivity.
Qed.

End Sending.

Lemma no_credential_no_request_witness :
  runSpotifyGetMe (H := Sample.host) tt (Sample.runtime (Some "  ") None) (Sample.world None) []
  = (Throw (Error "Missing Spotify access token. Pass accessToken in config or set SPOTIFY_ACCESS_TOKEN."),
     [EnvRead "SPOTIFY_ACCESS_TOKEN"]).
Proof.
  apply (proj1 (no_credential_no_request (H := Sample.host)
                  (Sample.runtime (Some "  ") None) (Sample.world None) [] eq_refl I)).
Defined.

Lemma reading_handlers_send_one_get_witness :
  snd (runSpotifyGetMe (H := Sample.host) tt (Sample.runtime (Some "A") None)
         (Sample.world None) [])
  = [EnvRead "SPOTIFY_ACCESS_TOKEN";
     Fetched (getRequest (H := Sample.host) (Sample.runtime (Some "A") None) "A" "/me")].
Proof.
  apply (proj1 (reading_handlers_send_one_get (H := Sample.host)
                  (Sample.runtime (Some "A") None) (Sample.world None) [] "A" eq_refl)).
Defined.

Lemma create_playlist_requests_witness :
  let runtime := Sample.runtime (Some "A") None in
  let input :=
    {| CreatePlaylistInput.userId := Some "u7";
       CreatePlaylistInput.name := "x";
       CreatePlaylistInput.description := None;
       CreatePlaylistInput.public := false;
       CreatePlaylistInput.collaborative := false |} in
  let sent := snd (runSpotifyCreatePlaylist (H := Sample.host) input runtime
                     (Sample.world None) []) in
  (exists account,
     sent = [EnvRead "SPOTIFY_ACCESS_TOKEN";
             Fetched (createRequest (H := Sample.host) runtime "A" input account)])
  \/ (sent = [EnvRead "SPOTIFY_ACCESS_TOKEN";
              Fetched (meRequest (H := Sample.host) runtime "A")]
      /\ exists e,
           fst (runSpotifyCreatePlaylist (H := Sample.host) input runtime
                  (Sample.world None) []) = Throw e)
  \/ (exists account,
        sent = [EnvRead "SPOTIFY_ACCESS_TOKEN";
                Fetched (meRequest (H := Sample.host) runtime "A");
                Fetched (createRequest (H := Sample.host) runtime "A" input account)]).
Proof.
  intros runtime input.
  apply (create_playlist_requests (H := Sample.host) input runtime (Sample.world None) []
           "A" eq_refl).
Defined.

Lemma me_failure_stops_creation_witness :
  let w : World :=
    {| env := fun _ => None;
       network := fun _ _ => Some {| status := 401; text := "denied" |} |} in
  let runtime := Sample.runtime (Some "A") None in
  let input :=
    {| CreatePlaylistInput.userId := None;
       CreatePlaylistInput.name := "x";
       CreatePlaylistInput.description := None;
       CreatePlaylistInput.public := false;
       CreatePlaylistInput.collaborative := false |} in
  runSpotifyCreatePlaylist (H := Sample.host) input runtime w []
  = (Throw (Error "Spotify API request failed (401): denied"),
     [EnvRead "SPOTIFY_ACCESS_TOKEN"; Fetched (meRequest (H := Sample.host) runtime "A")]).
Proof.
  intros w runtime input.
  apply (proj1 (proj2 (me_failure_stops_creation (H := Sample.host) input runtime w [] "A"
                         eq_refl eq_refl (or_introl eq_refl)))
           {| status := 401; text := "denied" |} eq_refl eq_refl).
Defined.

(** ** What the mapping does with unexpected payloads *)

Section Unexpected.
Context {H : Host}.

Lemma Forall2_left {A B : Type} (P : A -> Prop) (l : list A) (ys : list B) :
  Forall2 (fun x _ => P x) l ys -> Forall P l.
Proof. intros F. induction F; constructor; assumption. Qed.

Lemma mapM_nonNull {B : Type} (f : value -> outcome B) (l : list value) (ys : list B) :
  f JNull = Throw TypeError -> mapM f l = Return ys ->
  ~ In JNull l /\ List.length ys = List.length l.
Proof.
  intros F R.
  pose proof (mapM_returned f (fun x _ => nonNull x) l
                (fun x y E => returned_nonNull f x y F E) ys R) as All.
  split.
  - intros Hin. apply Forall2_left in All.
    apply (proj1 (Forall_forall _ _) All JNull Hin). reflexivity.
  - symmetry. apply (Forall2_length All).
Qed.

(** X8. The mapping of a [null] payload fails with a [TypeError], and a
    search or a listing fails when one of the listed items is [null]; so a
    mapping that returns had a payload and items that are not [null], and
    it returns one entry per listed item. *)
Theorem mapping_fails_on_null :
  getMeOutput JNull = Throw TypeError
  /\ createdPlaylistOutput JNull = Throw TypeError
  /\ (forall input, searchTracksOutput input JNull = Throw TypeError)
  /\ (forall input, listMyPlaylistsOutput input JNull = Throw TypeError)
  /\ (forall input payload,
        In JNull (trackItems payload) ->
        exists e, searchTracksOutput input payload = Throw e)
  /\ (forall input payload,
        In JNull (playlistItems payload) ->
        exists e, listMyPlaylistsOutput input payload = Throw e)
  /\ (forall input payload out,
        searchTracksOutput input payload = Return out ->
        nonNull payload
        /\ ~ In JNull (trackItems payload)
        /\ List.length (SearchTracks.tracks out) = List.length (trackItems payload))
  /\ (forall input payload out,
        listMyPlaylistsOutput input payload = Return out ->
        nonNull payload
        /\ ~ In JNull (playlistItems payload)
        /\ List.length (ListMyPlaylists.playlists out)
           = List.length (playlistItems payload)).
Proof.
  assert (Search : forall input payload out,
             searchTracksOutput input payload = Return out ->
             nonNull payload
             /\ ~ In JNull (trackItems payload)
             /\ List.length (SearchTracks.tracks out) = List.length (trackItems payload)).
  { intros input payload out R.
    destruct (searchTracksOutput_inv _ _ _ R) as [N [_ [_ [_ M]]]].
    split; [exact N|]. apply (mapM_nonNull trackOutput _ _ eq_refl M). }
  assert (Listing : forall input payload out,
             listMyPlaylistsOutput input payload = Return out ->
             nonNull payload
             /\ ~ In JNull (playlistItems payload)
             /\ List.length (ListMyPlaylists.playlists out)
                = List.length (playlistItems payload)).
  { intros input payload out R.
    destruct (listMyPlaylistsOutput_inv _ _ _ R) as [N [_ [_ [_ M]]]].
    split; [exact N|]. apply (mapM_nonNull playlistOutput _ _ eq_refl M). }
  split; [reflexivity|]. split; [reflexivity|].
  split; [intros input; reflexivity|]. split; [intros input; reflexivity|].
  split; [|split; [|split; [exact Search | exact Listing]]].
  - intros input payload Hin.
    destruct (searchTracksOutput input payload) as [out|e] eqn:R; [|exists e; reflexivity].
    exfalso. apply (proj1 (proj2 (Search _ _ _ R))). exact Hin.
  - intros input payload Hin.
    destruct (listMyPlaylistsOutput input payload) as [out|e] eqn:R; [|exists e; reflexivity].
    exfalso. apply (proj1 (proj2 (Listing _ _ _ R))). exact Hin.
Qed.

Lemma filterBoolean_no_empty (l : list (option string)) : ~ In "" (filterBoolean l).
Proof.
  induction l as [|[s|] rest IH]; simpl; [intros [] | | exact IH].
  destruct (isEmpty s) eqn:E; [exact IH|].
  intros [E'|Hin]; [|exact (IH Hin)]. subst s. discriminate E.
Qed.

Lemma filterBoolean_length (l : list (option string)) :
  (List.length (filterBoolean l) <= List.length l)%nat.
Proof.
  induction l as [|[s|] rest IH]; simpl; [lia | | lia].
  destruct (isEmpty s); simpl; lia.
Qed.

Lemma mapM_length {A B : Type} (f : A -> outcome B) (l : list A) (ys : list B) :
  mapM f l = Return ys -> List.length ys = List.length l.
Proof.
  intros R. symmetry.
  apply (Forall2_length (mapM_returned f (fun _ _ => True) l (fun _ _ _ => I) ys R)).
Qed.

(** X9. The [artists] of a mapped track never hold an empty name and are no
    more than the entries of the raw [artists] array; an [artists] that is
    not an array gives none, and an array whose names are absent or scalar
    does give a list of names. *)
Theorem trackArtists_names (artists : option value) :
  (forall names,
     trackArtists artists = Return names ->
     ~ In "" names
     /\ (forall l, artists = Some (JArr l) ->
           (List.length names <= List.length l)%nat))
  /\ ((forall l, artists <> Some (JArr l)) -> trackArtists artists = Return [])
  /\ (plainArtists artists -> exists names, trackArtists artists = Return names).
Proof.
  split; [|split].
  - intros names R. unfold trackArtists in R.
    destruct artists as [[| | | | l |]|];
      try (injection R as R; subst names; split; [intros [] | intros l' E; discriminate E]).
    destruct (mapM artistName l) as [raw|e] eqn:M; cbn [obind] in R; [|discriminate R].
    injection R as R. subst names. split; [apply filterBoolean_no_empty|].
    intros l' E. injection E as E. subst l'.
    rewrite <- (mapM_length _ _ _ M). apply filterBoolean_length.
  - intros N. destruct artists as [[| | | | l |]|]; try reflexivity.
    exfalso. apply (N l). reflexivity.
  - apply trackArtists_plain.
Qed.

(** X10. A paging number that the payload gives as a number is passed on
    unchanged: [total], [limit] and [offset] of the search output are those
    of [payload.tracks], and those of the listing are the payload's, when
    they are numbers there. *)
Theorem paging_numbers_passed_on :
  (forall input payload out,
     searchTracksOutput input payload = Return out ->
     let tracks := optField (Some payload) "tracks" in
     (forall n, optField tracks "total" = Some (JNum n) -> SearchTracks.total out = n)
     /\ (forall n, optField tracks "limit" = Some (JNum n) -> SearchTracks.limit out = n)
     /\ (forall n, optField tracks "offset" = Some (JNum n) -> SearchTracks.offset out = n))
  /\ (forall input payload out,
        listMyPlaylistsOutput input payload = Return out ->
        (forall n, optField (Some payload) "total" = Some (JNum n) ->
           ListMyPlaylists.total out = n)
        /\ (forall n, optField (Some payload) "limit" = Some (JNum n) ->
              ListMyPlaylists.limit out = n)
        /\ (forall n, optField (Some payload) "offset" = Some (JNum n) ->
              ListMyPlaylists.offset out = n)).
Proof.
  split.
  - intros input payload out R tracks. subst tracks.
    destruct (searchTracksOutput_inv _ _ _ R) as [_ [T [L [O _]]]].
    repeat split; intros n E; rewrite E in *; cbn in *; congruence.
  - intros input payload out R.
    destruct (listMyPlaylistsOutput_inv _ _ _ R) as [_ [T [L [O _]]]].
    repeat split; intros n E; rewrite E in *; cbn in *; congruence.
Qed.

(** X11. A payload that is JSON but not of the expected shape is mapped to
    an empty output instead of failing: a search whose [tracks] is not an
    object finds nothing and echoes the request, and a listing or a profile
    whose payload is no object (a string, a number, a boolean, an array)
    is empty. *)
Theorem unexpected_shape_gives_empty_output :
  (forall input payload,
     nonNull payload -> ~ isObject (optField (Some payload) "tracks") ->
     searchTracksOutput input payload = Return (emptySearch input))
  /\ (forall input payload,
        nonNull payload -> ~ isObject (Some payload) ->
        listMyPlaylistsOutput input payload = Return (emptyPlaylists input))
  /\ (forall payload,
        nonNull payload -> ~ isObject (Some payload) ->
        getMeOutput payload = Return emptyProfile).
Proof.
  split; [|split].
  - intros input payload N O. unfold searchTracksOutput.
    rewrite (field_nonNull _ _ N). cbn [obind].
    destruct (optField (Some payload) "tracks") as [[| | | | |fields]|];
      try reflexivity.
    exfalso. apply O. exact I.
  - intros input payload N O.
    destruct payload; try reflexivity; exfalso; [apply N; reflexivity | apply O; exact I].
  - intros payload N O.
    destruct payload; try reflexivity; exfalso; [apply N; reflexivity | apply O; exact I].
Qed.

End Unexpected.

Lemma mapping_fails_on_null_witness :
  let payload : json Sample.num :=
    JObj [("tracks", JObj [("items", JArr [JObj []; JNull])])] in
  exists e,
    searchTracksOutput (H := Sample.host)
      {| SearchTracksInput.query := "q"; SearchTracksInput.limit := 10;
         SearchTracksInput.offset := 0; SearchTracksInput.market := None |} payload
    = Throw e.
Proof.
  intros payload.
  apply (proj1 (proj2 (proj2 (proj2 (proj2 (mapping_fails_on_null (H := Sample.host))))))
           {| SearchTracksInput.query := "q"; SearchTracksInput.limit := 10;
              SearchTracksInput.offset := 0; SearchTracksInput.market := None |}
           payload).
  simpl. right. left. reflexivity.
Defined.

Lemma trackArtists_names_witness :
  ~ In "" ["Artist"] /\ (1 <= 2)%nat.
Proof.
  destruct (proj1 (trackArtists_names (H := Sample.host)
                     (Some (JArr [JObj [("name", JStr "")];
                                  JObj [("name", JStr "Artist")]])))
              ["Artist"] eq_refl) as [E L].
  split; [exact E|].
  apply (L [JObj [("name", JStr "")]; JObj [("name", JStr "Artist")]] eq_refl).
Defined.

Lemma paging_numbers_passed_on_witness :
  let input := {| ListMyPlaylistsInput.limit := 20; ListMyPlaylistsInput.offset := 0 |} in
  let payload : json Sample.num := JObj [("total", JNum (Some 7)); ("limit", JNum (Some 5))] in
  exists out,
    listMyPlaylistsOutput (H := Sample.host) input payload = Return out
    /\ ListMyPlaylists.limit out = Some 5.
Proof.
  intros input payload. eexists. split; [reflexivity|].
  apply (proj1 (proj2 (proj2 (paging_numbers_passed_on (H := Sample.host))
                         input payload _ eq_refl))).
  reflexivity.
Defined.

Lemma unexpected_shape_gives_empty_output_witness :
  getMeOutput (H := Sample.host) (JArr []) = Return (emptyProfile (H := Sample.host)).
Proof.
  apply (proj2 (proj2 (unexpected_shape_gives_empty_output (H := Sample.host))) (JArr [])).
  - discriminate.
  - intros O. exact O.
Defined.

(** ** The runtime configuration *)

Section RuntimeConfiguration.
Context {H : Host}.

(** X12. A configuration is refused for one reason only, its [apiBaseUrl].
    The runtime configuration it gives otherwise has an [apiBaseUrl] that
    passes the URL test, the given token, default user, variable name and
    base URL (the defaults where they were omitted), and parsing it again
    as a configuration gives it back. *)
Theorem runtime_configuration_invariant (config : Config.t) :
  (spotifyToolsConfigSchema config = Throw (ZodError [apiBaseUrlIssue])
   \/ exists runtime, spotifyToolsConfigSchema config = Return runtime)
  /\ (forall runtime,
        spotifyToolsConfigSchema config = Return runtime ->
        isURL (Runtime.apiBaseUrl runtime) = true
        /\ Runtime.accessToken runtime = Config.accessToken config
        /\ Runtime.defaultUserId runtime = Config.defaultUserId config
        /\ Runtime.tokenEnvVar runtime
           = withDefault (Config.tokenEnvVar config) "SPOTIFY_ACCESS_TOKEN"
        /\ Runtime.apiBaseUrl runtime
           = withDefault (Config.apiBaseUrl config) "https://api.spotify.com/v1"
        /\ spotifyToolsConfigSchema (asConfig runtime) = Return runtime).
Proof.
  unfold spotifyToolsConfigSchema.
  destruct (isURL (withDefault (Config.apiBaseUrl config) "https://api.spotify.com/v1"))
    eqn:U.
  - split; [right; eexists; reflexivity|].
    intros runtime R. injection R as R. subst runtime. simpl.
    rewrite U. repeat split.
  - split; [left; reflexivity|]. intros runtime R. discriminate R.
Qed.

End RuntimeConfiguration.

Lemma runtime_configuration_invariant_witness :
  spotifyToolsConfigSchema (H := Sample.host) (asConfig (Sample.runtime (Some "A") None))
  = Return (Sample.runtime (Some "A") None).
Proof.
  apply (proj2 (runtime_configuration_invariant (H := Sample.host)
                  {| Config.accessToken := Some "A"; Config.tokenEnvVar := None;
                     Config.apiBaseUrl := None; Config.defaultUserId := None |})
           (Sample.runtime (Some "A") None) eq_refl).
Defined.

(** ** The two tool sets *)

Section TwoToolsets.
Context {H : Host} {HI : HostIntegers}.

(** X13. [createSpotifyTools] fails exactly as the configuration schema
    does.  When it succeeds, each of its tools and the adapter tool of the
    same name give the same outcome and the same log on every raw input,
    in every world. *)
Theorem toolsets_agree (config : Config.t) :
  (forall e,
     createSpotifyTools config = Throw e <-> spotifyToolsConfigSchema config = Throw e)
  /\ (forall tools,
        createSpotifyTools config = Return tools ->
        forall raw w log,
          callTool (Toolset.spotify_get_me tools) raw w log
          = callMcpTool (McpToolset.spotify_get_me (createSpotifyMcpTools config)) raw w log
          /\ callTool (Toolset.spotify_search_tracks tools) raw w log
             = callMcpTool (McpToolset.spotify_search_tracks (createSpotifyMcpTools config))
                 raw w log
          /\ callTool (Toolset.spotify_list_my_playlists tools) raw w log
             = callMcpTool
                 (McpToolset.spotify_list_my_playlists (createSpotifyMcpTools config))
                 raw w log
          /\ callTool (Toolset.spotify_create_playlist tools) raw w log
             = callMcpTool (McpToolset.spotify_create_playlist (createSpotifyMcpTools config))
                 raw w log).
Proof.
  unfold createSpotifyTools, createSpotifyGetMeTool, createSpotifySearchTracksTool,
    createSpotifyListMyPlaylistsTool, createSpotifyCreatePlaylistTool.
  destruct (spotifyToolsConfigSchema config) as [runtime|err] eqn:E; simpl.
  - split.
    + intros e. split; intros R; discriminate R.
    + intros tools R. injection R as R. subst tools. intros raw w log.
      unfold callTool, callMcpTool, bind, lift. simpl.
      unfold executeSpotifyGetMe, executeSpotifySearchTracks,
        executeSpotifyListMyPlaylists, executeSpotifyCreatePlaylist, bind, lift.
      rewrite E.
      repeat split;
        match goal with
        | |- context [?schema raw] => destruct (schema raw); reflexivity
        end.
  - split.
    + intros e. split; intros R; injection R as R; subst e; reflexivity.
    + intros tools R. discriminate R.
Qed.

End TwoToolsets.

Lemma toolsets_agree_witness :
  exists tools,
    createSpotifyTools (H := Sample.host) (HI := SampleIntegers.integers) Config.empty
    = Return tools
    /\ callTool (Toolset.spotify_get_me tools) (JObj []) (Sample.world (Some "B")) []
       = callMcpTool
           (McpToolset.spotify_get_me
              (createSpotifyMcpTools (H := Sample.host) (HI := SampleIntegers.integers)
                 Config.empty))
           (JObj []) (Sample.world (Some "B")) [].
Proof.
  eexists. split; [reflexivity|].
  apply (proj1 (proj2 (toolsets_agree (H := Sample.host) (HI := SampleIntegers.integers)
                         Config.empty) _ eq_refl (JObj []) (Sample.world (Some "B")) [])).
Defined.

(** ** What the input schemas accept *)

Section Accepted.
Context {H : Host} {HI : HostIntegers}.

Lemma at_path_nil (key : string) (codes : list issue_code) :
  at_path key codes = [] -> codes = [].
Proof. destruct codes; [reflexivity | discriminate]. Qed.

Lemma z_string_accepted (lo hi : option nat) (v : option value) (s : string) :
  z_string lo hi v = (Some s, []) ->
  v = Some (JStr s)
  /\ (forall n, lo = Some n -> (n <= String.length s)%nat)
  /\ (forall n, hi = Some n -> (String.length s <= n)%nat).
Proof.
  unfold z_string. destruct v as [[| | |t| |]|]; try discriminate.
  intros E. injection E as E1 E2. subst t.
  apply app_eq_nil in E2. destruct E2 as [L U].
  split; [reflexivity|]. split; intros n N; subst.
  - destruct (Nat.ltb (String.length s) n) eqn:C; [discriminate L|].
    apply Nat.ltb_ge in C. exact C.
  - destruct (Nat.ltb n (String.length s)) eqn:C; [discriminate U|].
    apply Nat.ltb_ge in C. exact C.
Qed.

Lemma z_string_accepts (lo hi : option nat) (s : string) :
  (forall n, lo = Some n -> (n <= String.length s)%nat) ->
  (forall n, hi = Some n -> (String.length s <= n)%nat) ->
  z_string lo hi (Some (JStr s)) = (Some s, []).
Proof.
  intros L U. unfold z_string.
  destruct lo as [n|]; [pose proof (L n eq_refl) as L'|];
    destruct hi as [m|]; [pose proof (U m eq_refl) as U'| |pose proof (U m eq_refl) as U'|];
    repeat match goal with
           | X : (_ <= _)%nat |- _ => apply Nat.ltb_ge in X; rewrite X; clear X
           end; reflexivity.
Qed.

Lemma z_optional_string_accepted (lo hi : option nat) (v : option value)
    (r : option string) :
  z_optional (z_string lo hi) v = (Some r, []) ->
  v = option_map JStr r
  /\ (forall s n, r = Some s -> lo = Some n -> (n <= String.length s)%nat)
  /\ (forall s n, r = Some s -> hi = Some n -> (String.length s <= n)%nat).
Proof.
  unfold z_optional. destruct v as [x|].
  - destruct (z_string lo hi (Some x)) as [[s|] codes] eqn:E; simpl;
      intros R; [|discriminate R]. injection R as R1 R2. subst.
    destruct (z_string_accepted _ _ _ _ E) as [V [L U]].
    split; [exact V|]. split; intros t n T; injection T as T; subst t; auto.
  - intros R. injection R as R. subst r. split; [reflexivity|].
    split; intros s n T; discriminate T.
Qed.

Lemma z_boolean_default_accepted (v : option value) (b : bool) (codes : list issue_code) :
  z_default z_boolean false v = (Some b, codes) ->
  codes = []
  /\ ((v = None /\ b = false) \/ v = Some (JBool b)).
Proof.
  unfold z_default, z_boolean. destruct v as [[| c | | | |]|]; try discriminate;
    intros R; injection R as R1 R2; subst; split; auto.
Qed.

Lemma z_int_accepted (lo : Z) (hi : option Z) (v : option value) (z : Z) :
  z_int lo hi v = (Some z, []) ->
  (exists n, v = Some (JNum n) /\ integerValue n = Some z /\ fromZ z = n)
  /\ lo <= z
  /\ (forall h, hi = Some h -> z <= h).
Proof.
  unfold z_int. destruct v as [[| |n| | |]|]; try discriminate.
  destruct (integerValue n) as [k|] eqn:I; [|destruct (isNaN n); discriminate].
  intros R. injection R as R1 R2. subst k.
  apply app_eq_nil in R2. destruct R2 as [L U].
  split; [exists n; split; [reflexivity|]; split; [exact I|];
          apply integerValue_fromZ; exact I|].
  split.
  - destruct (z <? lo) eqn:C; [discriminate L|]. apply Z.ltb_ge in C. exact C.
  - intros h E. subst hi. destruct (h <? z) eqn:C; [discriminate U|].
    apply Z.ltb_ge in C. exact C.
Qed.

Lemma z_int_default_accepted (lo : Z) (hi : option Z) (d : Z) (v : option value) (z : Z) :
  z_default (z_int lo hi) d v = (Some z, []) ->
  (v = None /\ z = d)
  \/ ((exists n, v = Some (JNum n) /\ integerValue n = Some z /\ fromZ z = n)
      /\ lo <= z /\ (forall h, hi = Some h -> z <= h)).
Proof.
  unfold z_default. destruct v as [x|].
  - intros R. right. apply (z_int_accepted _ _ _ _ R).
  - intros R. injection R as R. left. split; [reflexivity | symmetry; exact R].
Qed.

(** X14. An input that the create-playlist schema accepts is well formed:
    [name] has 1 to 100 characters, a [userId] is not empty, a
    [description] has at most 300 characters, [public] and [collaborative]
    are not both true, and every field is the one of the raw object
    ([false] for an omitted [public] or [collaborative]). *)
Theorem create_playlist_schema_sound (raw : value) (input : CreatePlaylistInput.t) :
  spotifyCreatePlaylistInputSchema raw = Return input ->
  (1 <= String.length (CreatePlaylistInput.name input) <= 100)%nat
  /\ (forall u, CreatePlaylistInput.userId input = Some u -> (1 <= String.length u)%nat)
  /\ (forall d, CreatePlaylistInput.description input = Some d ->
        (String.length d <= 300)%nat)
  /\ CreatePlaylistInput.public input && CreatePlaylistInput.collaborative input = false
  /\ optField (Some raw) "name" = Some (JStr (CreatePlaylistInput.name input))
  /\ optField (Some raw) "userId" = option_map JStr (CreatePlaylistInput.userId input)
  /\ optField (Some raw) "description"
     = option_map JStr (CreatePlaylistInput.description input)
  /\ (optField (Some raw) "public" = None /\ CreatePlaylistInput.public input = false
      \/ optField (Some raw) "public" = Some (JBool (CreatePlaylistInput.public input)))
  /\ (optField (Some raw) "collaborative" = None
      /\ CreatePlaylistInput.collaborative input = false
      \/ optField (Some raw) "collaborative"
         = Some (JBool (CreatePlaylistInput.collaborative input))).
Proof.
  destruct raw as [| | | | |fields]; try discriminate.
  unfold spotifyCreatePlaylistInputSchema. simpl optField.
  destruct (z_optional (z_string (Some 1%nat) None) (lookup "userId" fields))
    as [[u|] iu] eqn:Eu; simpl; [|discriminate].
  destruct (z_string (Some 1%nat) (Some 100%nat) (lookup "name" fields))
    as [[n|] inm] eqn:En; simpl; [|discriminate].
  destruct (z_optional (z_string None (Some 300%nat)) (lookup "description" fields))
    as [[d|] idn] eqn:Ed; simpl; [|discriminate].
  destruct (z_default z_boolean false (lookup "public" fields))
    as [[p|] ip] eqn:Ep; simpl; [|discriminate].
  destruct (z_default z_boolean false (lookup "collaborative" fields))
    as [[c|] ic] eqn:Ec; simpl; [|discriminate].
  destruct (z_literal_true (lookup "confirm" fields)) as [[t|] it] eqn:Et; simpl;
    [|discriminate].
  destruct (z_boolean_default_accepted _ _ _ Ep) as [Ip Vp].
  destruct (z_boolean_default_accepted _ _ _ Ec) as [Ic Vc]. subst ip ic. simpl.
  destruct (negb (p && c)) eqn:PC.
  - destruct (_ ++ _)%list eqn:L; [|discriminate].
    intros R. injection R as R. subst input. simpl.
    apply app_eq_nil in L. destruct L as [Lu L].
    apply app_eq_nil in L. destruct L as [Ln L].
    apply app_eq_nil in L. destruct L as [Ld _].
    apply at_path_nil in Lu, Ln, Ld. subst iu inm idn.
    destruct (z_optional_string_accepted _ _ _ _ Eu) as [Vu [Lo _]].
    destruct (z_string_accepted _ _ _ _ En) as [Vn [Ln Un]].
    destruct (z_optional_string_accepted _ _ _ _ Ed) as [Vd [_ Ud]].
    split; [split; [apply (Ln 1%nat eq_refl) | apply (Un 100%nat eq_refl)]|].
    split; [intros s E; apply (Lo s 1%nat E eq_refl)|].
    split; [intros s E; apply (Ud s 300%nat E eq_refl)|].
    split; [apply negb_true_iff in PC; exact PC|].
    repeat split; assumption.
  - destruct (_ ++ _)%list eqn:L; [|discriminate].
    apply app_eq_nil in L. destruct L as [_ L]. discriminate L.
Qed.

(** X15. The create-playlist schema accepts every object that is well
    formed: a [name] of 1 to 100 characters, a non-empty [userId] or none,
    a [description] of at most 300 characters or none, boolean [public]
    and [collaborative] (or none) that are not both true, and [confirm]
    [true].  The parsed input holds these values, [false] for an omitted
    flag. *)
Theorem create_playlist_schema_complete (fields : list (string * value))
    (userId : option string) (name : string) (description : option string)
    (public collaborative : option bool) :
  lookup "userId" fields = option_map JStr userId ->
  lookup "name" fields = Some (JStr name) ->
  lookup "description" fields = option_map JStr description ->
  lookup "public" fields = option_map JBool public ->
  lookup "collaborative" fields = option_map JBool collaborative ->
  lookup "confirm" fields = Some (JBool true) ->
  (forall u, userId = Some u -> (1 <= String.length u)%nat) ->
  (1 <= String.length name <= 100)%nat ->
  (forall d, description = Some d -> (String.length d <= 300)%nat) ->
  withDefault public false && withDefault collaborative false = false ->
  spotifyCreatePlaylistInputSchema (JObj fields)
  = Return {| CreatePlaylistInput.userId := userId;
              CreatePlaylistInput.name := name;
              CreatePlaylistInput.description := description;
              CreatePlaylistInput.public := withDefault public false;
              CreatePlaylistInput.collaborative := withDefault collaborative false |}.
Proof.
  intros Eu En Ed Ep Ec Et Lu [Ln Un] Ld PC.
  unfold spotifyCreatePlaylistInputSchema. rewrite Eu, En, Ed, Ep, Ec, Et.
  assert (Zu : z_optional (z_string (Some 1%nat) None) (option_map JStr userId)
               = (Some userId, [])).
  { destruct userId as [u|]; [|reflexivity]. unfold z_optional. simpl option_map.
    rewrite z_string_accepts; [reflexivity | |]; intros n E; [|discriminate E].
    injection E as E. subst n. apply Lu. reflexivity. }
  assert (Zn : z_string (Some 1%nat) (Some 100%nat) (Some (JStr name)) = (Some name, [])).
  { apply z_string_accepts; intros n E; injection E as E; subst n; assumption. }
  assert (Zd : z_optional (z_string None (Some 300%nat)) (option_map JStr description)
               = (Some description, [])).
  { destruct description as [d|]; [|reflexivity]. unfold z_optional. simpl option_map.
    rewrite z_string_accepts; [reflexivity | |]; intros n E; [discriminate E|].
    injection E as E. subst n. apply Ld. reflexivity. }
  rewrite Zu, Zn, Zd.
  destruct public as [[]|]; destruct collaborative as [[]|]; simpl in *;
    try discriminate PC; reflexivity.
Qed.

End Accepted.

Lemma create_playlist_schema_sound_witness :
  let raw : json Sample.num :=
    JObj [("name", JStr "Focus"); ("public", JBool true); ("confirm", JBool true)] in
  exists input,
    spotifyCreatePlaylistInputSchema (H := Sample.host) raw = Return input
    /\ (1 <= String.length (CreatePlaylistInput.name input) <= 100)%nat
    /\ CreatePlaylistInput.public input && CreatePlaylistInput.collaborative input = false.
Proof.
  intros raw. eexists. split; [reflexivity|].
  pose (S := create_playlist_schema_sound (H := Sample.host) raw _ eq_refl).
  split; [exact (proj1 S) | exact (proj1 (proj2 (proj2 (proj2 S))))].
Defined.

Lemma create_playlist_schema_complete_witness :
  spotifyCreatePlaylistInputSchema (H := Sample.host)
    (JObj [("name", JStr "Focus"); ("collaborative", JBool true); ("confirm", JBool true)])
  = Return {| CreatePlaylistInput.userId := None;
              CreatePlaylistInput.name := "Focus";
              CreatePlaylistInput.description := None;
              CreatePlaylistInput.public := false;
              CreatePlaylistInput.collaborative := true |}.
Proof.
  apply (create_playlist_schema_complete (H := Sample.host)
           [("name", JStr "Focus"); ("collaborative", JBool true); ("confirm", JBool true)]
           None "Focus" None None (Some true) eq_refl eq_refl eq_refl eq_refl eq_refl eq_refl).
  - intros u E. discriminate E.
  - simpl. lia.
  - intros d E. discriminate E.
  - reflexivity.
Defined.

Section ReadingAccepted.
Context {H : Host} {HI : HostIntegers}.

Lemma z_optional_length_accepted (n : nat) (v : option value) (r : option string) :
  z_optional (z_string_length n) v = (Some r, []) ->
  v = option_map JStr r /\ (forall s, r = Some s -> String.length s = n).
Proof.
  unfold z_optional, z_string_length. destruct v as [[| | |t| |]|]; try discriminate.
  - destruct (Nat.ltb (String.length t) n) eqn:L; [discriminate|].
    destruct (Nat.ltb n (String.length t)) eqn:U; [discriminate|].
    simpl. intros R. injection R as R. subst r. split; [reflexivity|].
    intros s E. injection E as E. subst s.
    apply Nat.ltb_ge in L, U. lia.
  - intros R. injection R as R. subst r. split; [reflexivity|]. intros s E. discriminate E.
Qed.

Lemma z_int_default_paging (lo : Z) (hi : option Z) (d : Z) (v : option value) (z : Z) :
  lo <= d -> (forall h, hi = Some h -> d <= h) ->
  z_default (z_int lo hi) d v = (Some z, []) ->
  pagingField v d z /\ lo <= z /\ (forall h, hi = Some h -> z <= h).
Proof.
  intros Ld Ud R.
  destruct (z_int_default_accepted _ _ _ _ _ R) as [[V Z]|[[n [V [_ F]]] [L U]]].
  - subst z. split; [left; split; [exact V | reflexivity]|]. split; assumption.
  - subst n. split; [right; exact V|]. split; assumption.
Qed.

(** X16. An input that the search schema accepts has the non-empty [query]
    of the raw object, a [limit] between 1 and 50 and an [offset] of at
    least 0, each the number of the raw object or, when omitted, 10 and 0,
    and a [market] of two characters or none.  An input that the playlists
    schema accepts has such a [limit] and [offset], with 20 and 0 when
    omitted. *)
Theorem reading_schemas_sound :
  (forall raw input,
     spotifySearchTracksInputSchema raw = Return input ->
     optField (Some raw) "query" = Some (JStr (SearchTracksInput.query input))
     /\ (1 <= String.length (SearchTracksInput.query input))%nat
     /\ 1 <= SearchTracksInput.limit input <= 50
     /\ 0 <= SearchTracksInput.offset input
     /\ pagingField (optField (Some raw) "limit") 10 (SearchTracksInput.limit input)
     /\ pagingField (optField (Some raw) "offset") 0 (SearchTracksInput.offset input)
     /\ optField (Some raw) "market" = option_map JStr (SearchTracksInput.market input)
     /\ (forall m, SearchTracksInput.market input = Some m -> String.length m = 2%nat))
  /\ (forall raw input,
        spotifyListMyPlaylistsInputSchema raw = Return input ->
        1 <= ListMyPlaylistsInput.limit input <= 50
        /\ 0 <= ListMyPlaylistsInput.offset input
        /\ pagingField (optField (Some raw) "limit") 20 (ListMyPlaylistsInput.limit input)
        /\ pagingField (optField (Some raw) "offset") 0 (ListMyPlaylistsInput.offset input)).
Proof.
  split.
  - intros raw input. destruct raw as [| | | | |fields]; try discriminate.
    unfold spotifySearchTracksInputSchema. simpl optField.
    destruct (z_string (Some 1%nat) None (lookup "query" fields)) as [[q|] iq] eqn:Eq;
      simpl; [|discriminate].
    destruct (z_default (z_int 1 (Some 50)) 10 (lookup "limit" fields))
      as [[l|] il] eqn:El; simpl; [|discriminate].
    destruct (z_default (z_int 0 None) 0 (lookup "offset" fields))
      as [[o|] io] eqn:Eo; simpl; [|discriminate].
    destruct (z_optional (z_string_length 2) (lookup "market" fields))
      as [[m|] im] eqn:Em; simpl; [|discriminate].
    destruct (_ ++ _)%list eqn:L; [|discriminate].
    intros R. injection R as R. subst input. simpl.
    apply app_eq_nil in L. destruct L as [Lq L].
    apply app_eq_nil in L. destruct L as [Ll L].
    apply app_eq_nil in L. destruct L as [Lo Lm].
    apply at_path_nil in Lq, Ll, Lo, Lm. subst iq il io im.
    destruct (z_string_accepted _ _ _ _ Eq) as [Vq [Bq _]].
    destruct (z_int_default_paging 1 (Some 50) 10 _ _ ltac:(lia)
                ltac:(intros h E; injection E as E; lia) El) as [Pl [L1 L2]].
    destruct (z_int_default_paging 0 None 0 _ _ ltac:(lia)
                ltac:(intros h E; discriminate E) Eo) as [Po [O1 _]].
    destruct (z_optional_length_accepted _ _ _ Em) as [Vm Bm].
    pose proof (L2 50 eq_refl) as L3. pose proof (Bq 1%nat eq_refl) as Bq1.
    repeat split; assumption.
  - intros raw input. destruct raw as [| | | | |fields]; try discriminate.
    unfold spotifyListMyPlaylistsInputSchema. simpl optField.
    destruct (z_default (z_int 1 (Some 50)) 20 (lookup "limit" fields))
      as [[l|] il] eqn:El; simpl; [|discriminate].
    destruct (z_default (z_int 0 None) 0 (lookup "offset" fields))
      as [[o|] io] eqn:Eo; simpl; [|discriminate].
    destruct (_ ++ _)%list eqn:L; [|discriminate].
    intros R. injection R as R. subst input. simpl.
    apply app_eq_nil in L. destruct L as [Ll Lo].
    apply at_path_nil in Ll, Lo. subst il io.
    destruct (z_int_default_paging 1 (Some 50) 20 _ _ ltac:(lia)
                ltac:(intros h E; injection E as E; lia) El) as [Pl [L1 L2]].
    destruct (z_int_default_paging 0 None 0 _ _ ltac:(lia)
                ltac:(intros h E; discriminate E) Eo) as [Po [O1 _]].
    pose proof (L2 50 eq_refl) as L3.
    repeat split; assumption.
Qed.

Lemma lookup_other (name key : string) (v : value) (fields : list (string * value)) :
  key <> name -> lookup name ((key, v) :: fields) = lookup name fields.
Proof.
  intros N. simpl. destruct (String.eqb key name) eqn:E; [|reflexivity].
  apply String.eqb_eq in E. contradiction.
Qed.

Ltac other_key N :=
  let E := fresh in intros E; apply N; rewrite E; simpl; tauto.

(** X17. A key that a schema does not declare is ignored: adding it to a
    raw object changes nothing in what the create-playlist, the search and
    the playlists schema give, and the profile schema accepts every
    object. *)
Theorem undeclared_keys_ignored (key : string) (v : value) (fields : list (string * value)) :
  (~ In key createPlaylistKeys ->
   spotifyCreatePlaylistInputSchema (JObj ((key, v) :: fields))
   = spotifyCreatePlaylistInputSchema (JObj fields))
  /\ (~ In key ["query"; "limit"; "offset"; "market"] ->
      spotifySearchTracksInputSchema (JObj ((key, v) :: fields))
      = spotifySearchTracksInputSchema (JObj fields))
  /\ (~ In key ["limit"; "offset"] ->
      spotifyListMyPlaylistsInputSchema (JObj ((key, v) :: fields))
      = spotifyListMyPlaylistsInputSchema (JObj fields))
  /\ spotifyGetMeInputSchema (JObj fields) = Return tt.
Proof.
  split; [|split; [|split]].
  - intros N. unfold spotifyCreatePlaylistInputSchema, createPlaylistKeys in *.
    rewrite !lookup_other by other_key N. reflexivity.
  - intros N. unfold spotifySearchTracksInputSchema.
    rewrite !lookup_other by other_key N. reflexivity.
  - intros N. unfold spotifyListMyPlaylistsInputSchema.
    rewrite !lookup_other by other_key N. reflexivity.
  - reflexivity.
Qed.

End ReadingAccepted.

Lemma reading_schemas_sound_witness :
  let raw : json Sample.num := JObj [("query", JStr "jazz"); ("limit", JNum (Some 5))] in
  exists input,
    spotifySearchTracksInputSchema (H := Sample.host) (HI := SampleIntegers.integers) raw
    = Return input
    /\ 1 <= SearchTracksInput.limit input <= 50
    /\ 0 <= SearchTracksInput.offset input.
Proof.
  intros raw. eexists. split; [reflexivity|].
  pose (S := proj1 (reading_schemas_sound (H := Sample.host) (HI := SampleIntegers.integers))
               raw _ eq_refl).
  split; [exact (proj1 (proj2 (proj2 S))) | exact (proj1 (proj2 (proj2 (proj2 S))))].
Defined.

Lemma undeclared_keys_ignored_witness :
  spotifyCreatePlaylistInputSchema (H := Sample.host)
    (JObj [("note", JStr "hi"); ("name", JStr "Focus"); ("confirm", JBool true)])
  = spotifyCreatePlaylistInputSchema (H := Sample.host)
      (JObj [("name", JStr "Focus"); ("confirm", JBool true)]).
Proof.
  apply (proj1 (undeclared_keys_ignored (H := Sample.host) (HI := SampleIntegers.integers)
                  "note" (JStr "hi") [("name", JStr "Focus"); ("confirm", JBool true)])).
  simpl. intros [E|[E|[E|[E|[E|[E|[]]]]]]]; discriminate E.
Defined.

(** ** The echo tool *)

Section EchoProperties.
Context {H : Host}.

(** X18. A call of the echo tool touches nothing: no variable is read and
    no request is sent.  It returns exactly when the raw input is an
    object whose [text] is a string of 1 to 500 characters, and then
    [echoed] is that text and [length] its number of characters. *)
Theorem echo_tool_call (raw : value) (w : World) (log : list event) :
  snd (callTool exampleEchoTool raw w log) = log
  /\ (forall out,
        fst (callTool exampleEchoTool raw w log) = Return out ->
        optField (Some raw) "text" = Some (JStr (Echo.echoed out))
        /\ (1 <= String.length (Echo.echoed out) <= 500)%nat
        /\ Echo.length out = fromZ (Z.of_nat (String.length (Echo.echoed out))))
  /\ (forall t,
        optField (Some raw) "text" = Some (JStr t) ->
        (1 <= String.length t <= 500)%nat ->
        fst (callTool exampleEchoTool raw w log)
        = Return {| Echo.echoed := t;
                    Echo.length := fromZ (Z.of_nat (String.length t)) |}).
Proof.
  unfold callTool, bind, lift, exampleEchoTool. simpl.
  destruct raw as [| | | | |fields];
    try (split; [reflexivity|]; split; [intros out R; discriminate R|];
         intros t E; discriminate E).
  simpl.
  destruct (z_string (Some 1%nat) (Some 500%nat) (lookup "text" fields))
    as [[s|] codes] eqn:E; simpl.
  - destruct codes as [|c rest]; simpl.
    + destruct (z_string_accepted _ _ _ _ E) as [V [L U]].
      split; [reflexivity|]. split.
      * intros out R. injection R as R. subst out. simpl.
        split; [exact V|]. split; [|reflexivity].
        split; [apply (L 1%nat eq_refl) | apply (U 500%nat eq_refl)].
      * intros t T B. rewrite V in T. injection T as T. subst t. reflexivity.
    + split; [reflexivity|]. split; [intros out R; discriminate R|].
      intros t T [B1 B2]. exfalso. rewrite T in E.
      rewrite z_string_accepts in E.
      * discriminate E.
      * intros n N. injection N as N. subst n. exact B1.
      * intros n N. injection N as N. subst n. exact B2.
  - split; [reflexivity|]. split; [intros out R; discriminate R|].
    intros t T _. exfalso. rewrite T in E. simpl in E. discriminate E.
Qed.

End EchoProperties.

Lemma echo_tool_call_witness :
  fst (callTool (H := Sample.host) exampleEchoTool (JObj [("text", JStr "ping")])
         (Sample.world None) [])
  = Return {| Echo.echoed := "ping"; Echo.length := fromZ (Host := Sample.host) 4 |}.
Proof.
  apply (proj2 (proj2 (echo_tool_call (H := Sample.host) (JObj [("text", JStr "ping")])
                         (Sample.world None) [])) "ping" eq_refl).
  simpl. lia.
Defined.

(** ** What the reading schemas accept *)

Section ReadingComplete.
Context {H : Host} {HI : HostIntegers}.

Lemma z_int_accepts (lo : Z) (hi : option Z) (n : number) (z : Z) :
  integerValue n = Some z -> lo <= z -> (forall h, hi = Some h -> z <= h) ->
  z_int lo hi (Some (JNum n)) = (Some z, []).
Proof.
  intros I L U. unfold z_int. rewrite I.
  apply Z.ltb_ge in L. rewrite L.
  destruct hi as [h|]; [|reflexivity].
  pose proof (U h eq_refl) as U'. apply Z.ltb_ge in U'. rewrite U'. reflexivity.
Qed.

(** A paging number of a raw object that is well formed: none, and then the
    default counts, or an integer within the bounds. *)
Lemma z_int_default_accepts (lo : Z) (hi : option Z) (d : Z) (raw : option number) (z : Z) :
  match raw with
  | Some n => integerValue n = Some z /\ lo <= z /\ (forall h, hi = Some h -> z <= h)
  | None => z = d
  end ->
  z_default (z_int lo hi) d (option_map JNum raw) = (Some z, []).
Proof.
  destruct raw as [n|]; simpl.
  - intros [I [L U]]. apply z_int_accepts; assumption.
  - intros E. subst z. reflexivity.
Qed.

(** X19. The search schema accepts every object with a non-empty string
    [query], a [limit] that is an integer from 1 to 50 or is omitted, an
    [offset] that is an integer of at least 0 or is omitted, and a [market]
    of two characters or none; the parsed input holds these values, with 10
    and 0 for an omitted [limit] and [offset].  The playlists schema does
    the same with 20 and 0. *)
Theorem reading_schemas_complete (fields : list (string * value))
    (limit offset : option number) (l o : Z) :
  lookup "limit" fields = option_map JNum limit ->
  lookup "offset" fields = option_map JNum offset ->
  match offset with
  | Some n => integerValue n = Some o /\ 0 <= o
  | None => o = 0
  end ->
  (forall query market,
     lookup "query" fields = Some (JStr query) -> (1 <= String.length query)%nat ->
     lookup "market" fields = option_map JStr market ->
     (forall m, market = Some m -> String.length m = 2%nat) ->
     match limit with
     | Some n => integerValue n = Some l /\ 1 <= l <= 50
     | None => l = 10
     end ->
     spotifySearchTracksInputSchema (JObj fields)
     = Return {| SearchTracksInput.query := query;
                 SearchTracksInput.limit := l;
                 SearchTracksInput.offset := o;
                 SearchTracksInput.market := market |})
  /\ (match limit with
      | Some n => integerValue n = Some l /\ 1 <= l <= 50
      | None => l = 20
      end ->
      spotifyListMyPlaylistsInputSchema (JObj fields)
      = Return {| ListMyPlaylistsInput.limit := l; ListMyPlaylistsInput.offset := o |}).
Proof.
  intros El Eo Bo.
  assert (Zo : z_default (z_int 0 None) 0 (option_map JNum offset) = (Some o, [])).
  { apply z_int_default_accepts. destruct offset as [n|]; [|exact Bo].
    destruct Bo as [I B]. repeat split; try assumption. intros h E. discriminate E. }
  split.
  - intros query market Eq Bq Em Bm Bl.
    assert (Zl : z_default (z_int 1 (Some 50)) 10 (option_map JNum limit) = (Some l, [])).
    { apply z_int_default_accepts. destruct limit as [n|]; [|exact Bl].
      destruct Bl as [I [B1 B2]]. repeat split; try assumption.
      intros h E. injection E as E. subst h. exact B2. }
    unfold spotifySearchTracksInputSchema. rewrite Eq, El, Eo, Em, Zl, Zo.
    rewrite (z_string_accepts (Some 1%nat) None query).
    + destruct market as [m|]; simpl; [|reflexivity].
      rewrite (Bm m eq_refl). reflexivity.
    + intros n E. injection E as E. subst n. exact Bq.
    + intros n E. discriminate E.
  - intros Bl.
    assert (Zl : z_default (z_int 1 (Some 50)) 20 (option_map JNum limit) = (Some l, [])).
    { apply z_int_default_accepts. destruct limit as [n|]; [|exact Bl].
      destruct Bl as [I [B1 B2]]. repeat split; try assumption.
      intros h E. injection E as E. subst h. exact B2. }
    unfold spotifyListMyPlaylistsInputSchema. rewrite El, Eo, Zl, Zo. reflexivity.
Qed.

End ReadingComplete.

Lemma reading_schemas_complete_witness :
  spotifyListMyPlaylistsInputSchema (H := Sample.host) (HI := SampleIntegers.integers)
    (JObj [("offset", JNum (Some 40))])
  = Return {| ListMyPlaylistsInput.limit := 20; ListMyPlaylistsInput.offset := 40 |}.
Proof.
  refine (proj2 (reading_schemas_complete (H := Sample.host) (HI := SampleIntegers.integers)
                   [("offset", JNum (Some 40))] None (Some (Some 40)) 20 40
                   eq_refl eq_refl _) _).
  - simpl. split; [reflexivity | lia].
  - reflexivity.
Defined.

(** ** Failures of the API in the reading handlers *)

Section ReadingFailures.
Context {H : Host}.

Lemma reading_failure {A : Type} (f : value -> outcome A) (runtime : Runtime.t)
    (path : string) (w : World) (log : list event) (token : string) (e : error) :
  fst (resolveAccessToken runtime w log) = Return token ->
  fst (requestSpotify runtime token GET path None w
         (log ++ [EnvRead (Runtime.tokenEnvVar runtime)])%list) = Throw e ->
  fst ((token <- resolveAccessToken runtime ;;
        payload <- requestSpotify runtime token GET path None ;;
        lift (f payload)) w log) = Throw e.
Proof.
  intros T R. rewrite (bind_Return _ _ _ _ _ _ (resolved _ _ _ _ T)).
  unfold bind.
  destruct (requestSpotify runtime token GET path None w _) as [[payload|e'] log'];
    simpl in R; [discriminate R|]. injection R as R. subst e'. reflexivity.
Qed.

(** X20. A reading handler passes a failure of its request on unchanged:
    when the API answers outside 200..299 the handler throws the error that
    carries the status and the first 400 characters of the body, and when
    the body of a good answer is not JSON it throws the parse error; no
    output is made up. *)
Theorem reading_handlers_pass_failures_on (runtime : Runtime.t) (w : World)
    (log : list event) (token : string) (response : Response) (path : string) :
  fst (resolveAccessToken runtime w log) = Return token ->
  network w (log ++ [EnvRead (Runtime.tokenEnvVar runtime)])%list
    (getRequest runtime token path) = Some response ->
  let failure :=
    if ok response then SyntaxError else Error (requestFailedMessage response) in
  (ok response = true -> JSON_parse (text response) = None) ->
  (path = "/me" -> fst (runSpotifyGetMe tt runtime w log) = Throw failure)
  /\ (forall input,
        path = searchPath input ->
        fst (runSpotifySearchTracks input runtime w log) = Throw failure)
  /\ (forall input,
        path = playlistsPath input ->
        fst (runSpotifyListMyPlaylists input runtime w log) = Throw failure).
Proof.
  intros T E failure P.
  assert (R : fst (requestSpotify runtime token GET path None w
                     (log ++ [EnvRead (Runtime.tokenEnvVar runtime)])%list)
              = Throw failure).
  { rewrite (requestSpotify_answer _ _ _ _ _ _ _ _ E). subst failure.
    destruct (ok response); [rewrite (P eq_refl)|]; reflexivity. }
  split; [|split].
  - intros Ep. subst path. apply (reading_failure getMeOutput _ _ _ _ _ _ T R).
  - intros input Ep. subst path.
    apply (reading_failure (searchTracksOutput input) _ _ _ _ _ _ T R).
  - intros input Ep. subst path.
    apply (reading_failure (listMyPlaylistsOutput input) _ _ _ _ _ _ T R).
Qed.

End ReadingFailures.

Lemma reading_handlers_pass_failures_on_witness :
  let w : World :=
    {| env := fun _ => None;
       network := fun _ _ => Some {| status := 429; text := "slow down" |} |} in
  fst (runSpotifyGetMe (H := Sample.host) tt (Sample.runtime (Some "A") None) w [])
  = Throw (Error "Spotify API request failed (429): slow down").
Proof.
  intros w.
  apply (proj1 (reading_handlers_pass_failures_on (H := Sample.host)
                  (Sample.runtime (Some "A") None) w [] "A"
                  {| status := 429; text := "slow down" |} "/me" eq_refl eq_refl
                  ltac:(intros E; discriminate E))).
  reflexivity.
Defined.

(** X21. The environment variable is read on every resolution, also when
    the explicit token is the one returned: the log grows by exactly that
    read, whatever the outcome, and by no request.  When the variable is
    unset and its name is one that [process.env] inherits, the read is
    where the resolution ends, with a [TypeError], whatever the explicit
    token. *)
Theorem environment_read_on_every_resolution (runtime : Runtime.t) (w : World)
    (log : list event) :
  snd (resolveAccessToken runtime w log)
  = (log ++ [EnvRead (Runtime.tokenEnvVar runtime)])%list
  /\ requests (snd (resolveAccessToken runtime w log)) = requests log
  /\ (forall s, Runtime.accessToken runtime = Some s -> trim s <> "" ->
        inheritedRead runtime w = false ->
        resolveAccessToken runtime w log
        = (Return (trim s), (log ++ [EnvRead (Runtime.tokenEnvVar runtime)])%list))
  /\ (inheritedRead runtime w = true ->
      resolveAccessToken runtime w log
      = (Throw TypeError, (log ++ [EnvRead (Runtime.tokenEnvVar runtime)])%list)).
Proof.
  split; [apply resolveAccessToken_log|]. split; [|split].
  - rewrite resolveAccessToken_log, requests_app. simpl. apply app_nil_r.
  - intros s E N I. apply pair_eq; [|apply resolveAccessToken_log].
    apply resolveAccessToken_explicit; assumption.
  - apply resolveAccessToken_inherited.
Qed.

Lemma environment_read_on_every_resolution_witness :
  resolveAccessToken (Sample.runtime (Some " A ") None) (Sample.world (Some "B")) []
  = (Return "A", [EnvRead "SPOTIFY_ACCESS_TOKEN"]).
Proof.
  apply (proj1 (proj2 (proj2 (environment_read_on_every_resolution
                                (Sample.runtime (Some " A ") None)
                                (Sample.world (Some "B")) [])))
           " A " eq_refl).
  - discriminate.
  - reflexivity.
Defined.

(** ** The precedence of the credentials *)

Lemma trimStart_core (s : string) :
  exists before, s = before ++ trimStart s /\ blank before = true.
Proof.
  induction s as [|c rest [before [E B]]]; [exists ""; split; reflexivity|].
  simpl. destruct (isWhiteSpace c) eqn:W.
  - exists (String c before). simpl. rewrite <- E, W, B. split; reflexivity.
  - exists "". split; reflexivity.
Qed.

Lemma trimEnd_core (s : string) :
  exists after, s = trimEnd s ++ after /\ blank after = true.
Proof.
  induction s as [|c rest [after [E B]]]; [exists ""; split; reflexivity|].
  simpl. destruct (trimEnd rest) as [|d tail] eqn:T.
  - simpl in E. subst rest. destruct (isWhiteSpace c) eqn:W.
    + exists (String c after). simpl. rewrite W, B. split; reflexivity.
    + exists after. split; [reflexivity | exact B].
  - exists after. simpl. rewrite E at 1. split; [reflexivity | exact B].
Qed.

Lemma trimEnd_endsClean (s : string) : endsClean (trimEnd s).
Proof.
  induction s as [|c rest IH]; simpl; [exact I|].
  destruct (trimEnd rest) as [|d tail].
  - destruct (isWhiteSpace c) eqn:W; simpl; [exact I | exact W].
  - exact IH.
Qed.

Lemma trim_core (s : string) : core s (trim s).
Proof.
  destruct (trimStart_core s) as [before [Eb Bb]].
  destruct (trimEnd_core (trimStart s)) as [after [Ea Ba]].
  exists before, after. unfold trim.
  split; [rewrite <- Ea; exact Eb|].
  split; [exact Bb|]. split; [exact Ba|].
  split; [apply trimEnd_startsClean; apply trimStart_startsClean | apply trimEnd_endsClean].
Qed.

Section Precedence.
Context {H : Host}.

(** X22. The precedence of the credentials, on a variable name that
    [process.env] does not inherit (or a variable that is set): an explicit
    token that is not blank wins, and what is returned is that token
    without the white space around it; otherwise the variable decides in
    the same way; when both are unset or blank the error names the
    variable. *)
Theorem credential_precedence (runtime : Runtime.t) (w : World) (log : list event) :
  inheritedRead runtime w = false ->
  (forall s,
     Runtime.accessToken runtime = Some s -> blank s = false ->
     exists token,
       fst (resolveAccessToken runtime w log) = Return token /\ core s token)
  /\ (forall e,
        match Runtime.accessToken runtime with
        | Some s => blank s = true
        | None => True
        end ->
        env w (Runtime.tokenEnvVar runtime) = Some e -> blank e = false ->
        exists token,
          fst (resolveAccessToken runtime w log) = Return token /\ core e token)
  /\ (match Runtime.accessToken runtime with
      | Some s => blank s = true
      | None => True
      end ->
      match env w (Runtime.tokenEnvVar runtime) with
      | Some e => blank e = true
      | None => True
      end ->
      fst (resolveAccessToken runtime w log)
      = Throw (Error ("Missing Spotify access token. Pass accessToken in config or set "
                      ++ Runtime.tokenEnvVar runtime ++ "."))).
Proof.
  intros I.
  assert (Y : forall source : option string,
             match source with Some s => blank s = true | None => True end ->
             yieldsNothing source).
  { intros [s|] B; [apply trim_blank; exact B | exact B]. }
  assert (N : forall s, blank s = false -> trim s <> "").
  { intros s B T. apply trim_blank in T. rewrite T in B. discriminate B. }
  split; [|split].
  - intros s E B. exists (trim s). split; [|apply trim_core].
    apply resolveAccessToken_explicit; [exact I | exact E | apply N; exact B].
  - intros e B E Be. exists (trim e). split; [|apply trim_core].
    apply resolveAccessToken_fallback; [apply Y; exact B | exact E | apply N; exact Be].
  - intros B1 B2. apply resolveAccessToken_missing; [exact I | |]; apply Y; assumption.
Qed.

End Precedence.

Lemma credential_precedence_witness :
  fst (resolveAccessToken (Sample.runtime (Some " A ") None) (Sample.world (Some "B")) [])
  = Return "A"
  /\ core " A " "A".
Proof.
  destruct (proj1 (credential_precedence (Sample.runtime (Some " A ") None)
                     (Sample.world (Some "B")) [] eq_refl) " A " eq_refl eq_refl)
    as [token [R C]].
  assert (E : token = "A").
  { vm_compute in R. injection R as R. symmetry. exact R. }
  rewrite <- E. split; [exact R | exact C].
Defined.
